(** * MyMoney portfolio ledger (geektrust.py): a shallow embedding

    The Python program reads whitespace-tokenised command lines, parses
    them into [Command] records and runs them against a [MoneyBank]
    holding [InvestorPortfolio]s made of [Asset]s.

    Modelling conventions.
    - Python [int] is [Z]; Python [float] is IEEE-754 binary64, taken from
      the Standard Library's [SpecFloat] at precision 53 and [emax] 1024,
      rounding to nearest, ties to even.
    - Python [str] is [string] (ASCII text); [str.lower] lowers A-Z.
    - An exception is a value of [exn]; a computation that may raise has
      type [result]. [execute_investor_commands] never catches, so a raise
      ends the run; what was printed before stays printed.
    - Insertion-ordered dictionaries whose order is observable (the assets
      of a portfolio, the values of a command) are association lists with
      unique keys, and [zip] is [combine]; dictionaries used only by key (the investors of the
      bank, the snapshot log) are [gmap]s.
    - Opening the input file is outside the model: [main] starts from the
      token lists that [read_file_2_list] returns, and [read_file_2_list]
      from the text of the file. *)

From Stdlib Require Import ZArith List String Ascii Bool Lia QArith Qround.
From Stdlib Require Import Floats.SpecFloat.
From Stdlib Require Import DecimalString DecimalZ.
From stdpp Require Import gmap strings.

Import ListNotations.
Local Open Scope Z_scope.
Local Open Scope string_scope.

(** ** Exceptions and the error monad *)

Inductive key := KInt (n : Z) | KStr (s : string).

Inductive exn :=
| KeyError (k : key)
| ValueError
| OverflowError
| ZeroDivisionError
| AttributeError.

Inductive result (A : Type) :=
| Ok (a : A)
| Err (e : exn).
Arguments Ok {A} a.
Arguments Err {A} e.

Definition bind {A B} (r : result A) (f : A -> result B) : result B :=
  match r with
  | Ok a => f a
  | Err e => Err e
  end.

Notation "'do' x <- r ; k" := (bind r (fun x => k))
  (at level 10, x pattern, r at level 100, k at level 200).

Fixpoint mapM {A B} (f : A -> result B) (l : list A) : result (list B) :=
  match l with
  | [] => Ok []
  | a :: l' => do b <- f a; do bs <- mapM f l'; Ok (b :: bs)
  end.

(** ** Python numbers *)

Module Float64.

Definition prec : Z := 53.
Definition emax : Z := 1024.

Definition float := spec_float.

Definition add : float -> float -> float := SFadd prec emax.
Definition mul : float -> float -> float := SFmul prec emax.
Definition div : float -> float -> float := SFdiv prec emax.

(** The float nearest to the integer [n]; an infinity when [n] is out of
    range. *)
Definition of_Z (n : Z) : float := binary_normalize prec emax n 0 false.

(** The float nearest to the rational [n / d], for [d > 0]: the quotient
    is rounded once, from the exact integers. *)
Definition of_ratio (s : bool) (n d : positive) : float :=
  let '(mz, ez, lz) := SFdiv_core_binary prec emax (Zpos n) 0 (Zpos d) 0 in
  binary_round_aux prec emax s mz ez lz.

Definition is_finite (f : float) : bool :=
  match f with
  | S754_zero _ | S754_finite _ _ _ => true
  | _ => false
  end.

(** The rational value of a finite float. *)
Definition to_Q (f : float) : Q :=
  match f with
  | S754_finite s m e =>
      let v := if (0 <=? e)%Z then inject_Z (Zpos m * 2 ^ e)
               else Qmake (Zpos m) (Z.to_pos (2 ^ (- e))) in
      if s then Qopp v else v
  | _ => 0%Q
  end.

End Float64.

Abbreviation float := Float64.float.

(** A Python number: the program only meets [int] and [float]. *)
Inductive num :=
| PyInt (n : Z)
| PyFloat (f : float).

(** [float(n)] for an [int]: raises when [n] is beyond the float range. *)
Definition int_to_float (n : Z) : result float :=
  let f := Float64.of_Z n in
  if Float64.is_finite f then Ok f else Err OverflowError.

Definition to_float (x : num) : result float :=
  match x with
  | PyInt n => int_to_float n
  | PyFloat f => Ok f
  end.

(** [x + y] *)
Definition py_add (x y : num) : result num :=
  match x, y with
  | PyInt a, PyInt b => Ok (PyInt (a + b))
  | _, _ => do a <- to_float x; do b <- to_float y; Ok (PyFloat (Float64.add a b))
  end.

(** [x * y] *)
Definition py_mul (x y : num) : result num :=
  match x, y with
  | PyInt a, PyInt b => Ok (PyInt (a * b))
  | _, _ => do a <- to_float x; do b <- to_float y; Ok (PyFloat (Float64.mul a b))
  end.

Definition is_zero (f : float) : bool :=
  match f with
  | S754_zero _ => true
  | _ => false
  end.

(** [a / b] on two [int]s: the correctly rounded quotient of the exact
    integers. *)
Definition int_truediv (a b : Z) : result float :=
  match b with
  | Z0 => Err ZeroDivisionError
  | _ =>
      match a with
      | Z0 => Ok (S754_zero (b <? 0)%Z)
      | _ =>
          let f := Float64.of_ratio (xorb (a <? 0)%Z (b <? 0)%Z)
                     (Z.to_pos (Z.abs a)) (Z.to_pos (Z.abs b)) in
          if Float64.is_finite f then Ok f else Err OverflowError
      end
  end.

(** [x / y] *)
Definition py_truediv (x y : num) : result num :=
  match x, y with
  | PyInt a, PyInt b => do f <- int_truediv a b; Ok (PyFloat f)
  | _, _ =>
      do a <- to_float x;
      do b <- to_float y;
      if is_zero b then Err ZeroDivisionError else Ok (PyFloat (Float64.div a b))
  end.

(** [int(f)] on a float: the integer part, towards zero. *)
Definition float_to_int (f : float) : result Z :=
  match f with
  | S754_zero _ => Ok 0
  | S754_infinity _ => Err OverflowError
  | S754_nan => Err ValueError
  | S754_finite s m e =>
      let a := if (0 <=? e)%Z then Z.shiftl (Zpos m) e else Z.shiftr (Zpos m) (- e) in
      Ok (if s then - a else a)
  end.

(** [int(x)] *)
Definition py_int (x : num) : result Z :=
  match x with
  | PyInt n => Ok n
  | PyFloat f => float_to_int f
  end.

(** ** Strings *)

Definition lower_ascii (c : ascii) : ascii :=
  let n := nat_of_ascii c in
  if ((65 <=? n) && (n <=? 90))%nat then ascii_of_nat (n + 32) else c.

(** [s.lower()] *)
Fixpoint lower (s : string) : string :=
  match s with
  | EmptyString => EmptyString
  | String c s' => String (lower_ascii c) (lower s')
  end.

(** ["%" in s] *)
Fixpoint has_percent (s : string) : bool :=
  match s with
  | EmptyString => false
  | String c s' => Ascii.eqb c "%" || has_percent s'
  end.

(** [s.replace("%", "")] *)
Fixpoint remove_percent (s : string) : string :=
  match s with
  | EmptyString => EmptyString
  | String c s' =>
      if Ascii.eqb c "%" then remove_percent s' else String c (remove_percent s')
  end.

(** [str(n)] for an [int] *)
Definition str_int (n : Z) : string := NilZero.string_of_int (Z.to_int n).

(** [" ".join(l)] *)
Fixpoint join_space (l : list string) : string :=
  match l with
  | [] => ""
  | [s] => s
  | s :: l' => s ++ " " ++ join_space l'
  end.

(** ** [float(s)]: reading a float literal

    [sign] (digits [. digits] | . digits) [(e|E) [sign] digits], or a signed
    [inf], [infinity] or [nan] in any case; digits may be grouped by single
    underscores; surrounding white space is dropped.  The decimal value is
    rounded once to the nearest float. *)

Module FloatLiteral.

Definition digit_of (c : ascii) : option Z :=
  let n := nat_of_ascii c in
  if ((48 <=? n) && (n <=? 57))%nat then Some (Z.of_nat n - 48) else None.

Definition is_space (c : ascii) : bool :=
  let n := nat_of_ascii c in
  ((n =? 32) || ((9 <=? n) && (n <=? 13)))%nat.

Fixpoint lstrip (l : list ascii) : list ascii :=
  match l with
  | c :: l' => if is_space c then lstrip l' else l
  | [] => []
  end.

Definition strip (l : list ascii) : list ascii :=
  rev (lstrip (rev (lstrip l))).

(** The digits after the first one of a digit part: the value so far,
    the number of digits read, and the text left. *)
Fixpoint more_digits (acc : Z) (count : Z) (l : list ascii) : Z * Z * list ascii :=
  match l with
  | c :: l' =>
      match digit_of c with
      | Some d => more_digits (acc * 10 + d) (count + 1) l'
      | None =>
          if Ascii.eqb c "_" then
            match l' with
            | c' :: l'' =>
                match digit_of c' with
                | Some d => more_digits (acc * 10 + d) (count + 1) l''
                | None => (acc, count, l)
                end
            | [] => (acc, count, l)
            end
          else (acc, count, l)
      end
  | [] => (acc, count, l)
  end.

(** A digit part, if the text starts with one. *)
Definition digitpart (l : list ascii) : option (Z * Z * list ascii) :=
  match l with
  | c :: l' =>
      match digit_of c with
      | Some d => Some (more_digits d 1 l')
      | None => None
      end
  | [] => None
  end.

Definition sign (l : list ascii) : bool * list ascii :=
  match l with
  | c :: l' =>
      if Ascii.eqb c "-" then (true, l')
      else if Ascii.eqb c "+" then (false, l')
      else (false, l)
  | [] => (false, l)
  end.

(** mantissa digits as an integer, the number of digits after the point,
    and the text left *)
Definition number (l : list ascii) : option (Z * Z * list ascii) :=
  match digitpart l with
  | Some (i, _, l1) =>
      match l1 with
      | c :: l2 =>
          if Ascii.eqb c "." then
            match digitpart l2 with
            | Some (f, k, l3) =>
                let '(n, _, _) := more_digits i 0 l2 in Some (n, k, l3)
            | None => Some (i, 0, l2)
            end
          else Some (i, 0, l1)
      | [] => Some (i, 0, l1)
      end
  | None =>
      match l with
      | c :: l2 =>
          if Ascii.eqb c "." then
            match digitpart l2 with
            | Some (f, k, l3) => Some (f, k, l3)
            | None => None
            end
          else None
      | [] => None
      end
  end.

Definition exponent (l : list ascii) : option (Z * list ascii) :=
  match l with
  | [] => Some (0, [])
  | c :: l1 =>
      if Ascii.eqb (lower_ascii c) "e" then
        let '(s, l2) := sign l1 in
        match digitpart l2 with
        | Some (e, _, l3) => Some (if s then - e else e, l3)
        | None => None
        end
      else None
  end.

(** The float nearest to [(-1)^s * n * 10^e]. *)
Definition decimal (s : bool) (n e : Z) : float :=
  match n with
  | Zpos p =>
      if (0 <=? e)%Z then
        binary_normalize Float64.prec Float64.emax
          (if s then - (n * 10 ^ e) else n * 10 ^ e) 0 s
      else Float64.of_ratio s p (Z.to_pos (10 ^ (- e)))
  | _ => S754_zero s
  end.

Definition special (l : list ascii) : option float :=
  let '(s, l1) := sign l in
  let w := lower (string_of_list_ascii l1) in
  if String.eqb w "inf" || String.eqb w "infinity" then Some (S754_infinity s)
  else if String.eqb w "nan" then Some S754_nan
  else None.

Definition read (str : string) : option float :=
  let l := strip (list_ascii_of_string str) in
  match special l with
  | Some f => Some f
  | None =>
      let '(s, l1) := sign l in
      match number l1 with
      | Some (n, k, l2) =>
          match exponent l2 with
          | Some (e, []) => Some (decimal s n (e - k))
          | _ => None
          end
      | None => None
      end
  end.

End FloatLiteral.

(** [float(s)] *)
Definition py_float (s : string) : result float :=
  match FloatLiteral.read s with
  | Some f => Ok f
  | None => Err ValueError
  end.


(** ** Insertion-ordered dictionaries

    A Python [dict] keyed by strings, read in insertion order: storing
    under a key already present replaces the value where it stands,
    storing under a new key appends. *)

Module Dict.

Definition t (V : Type) := list (string * V).

Fixpoint get {V} (k : string) (d : t V) : option V :=
  match d with
  | [] => None
  | (k', v) :: d' => if String.eqb k k' then Some v else get k d'
  end.

Fixpoint set {V} (k : string) (v : V) (d : t V) : t V :=
  match d with
  | [] => [(k, v)]
  | (k', v') :: d' =>
      if String.eqb k k' then (k', v) :: d' else (k', v') :: set k v d'
  end.

Definition mem {V} (k : string) (d : t V) : bool :=
  match get k d with
  | Some _ => true
  | None => false
  end.

(** [dict(pairs)] *)
Definition of_pairs {V} (l : list (string * V)) : t V :=
  fold_left (fun d kv => set (fst kv) (snd kv) d) l [].

Definition keys {V} (d : t V) : list string := map fst d.
Definition values {V} (d : t V) : list V := map snd d.

End Dict.

(** ** Commands and their parser *)

(** [calendar.month_name]: index 0 is the empty string. *)
Definition calendar_month_name : list string :=
  [""; "January"; "February"; "March"; "April"; "May"; "June"; "July";
   "August"; "September"; "October"; "November"; "December"].

(** [enumerate(l)] *)
Definition enumerate {A} (l : list A) : list (Z * A) :=
  combine (map Z.of_nat (seq 0 (length l))) l.

(** [{month.lower(): index for index, month in enumerate(calendar.month_name) if month}],
    that is [{january: 1, february: 2, ...}] *)
Definition MONTH_NUMBER_ : Dict.t Z :=
  Dict.of_pairs
    (map (fun im => (lower (snd im), fst im))
       (List.filter (fun im => negb (String.eqb (snd im) "")) (enumerate calendar_month_name))).

Definition month_number_from_name (name_of_the_month : string) : result Z :=
  let k := lower name_of_the_month in
  match Dict.get k MONTH_NUMBER_ with
  | Some n => Ok n
  | None => Err (KeyError (KStr k))
  end.

Definition parse_nums (value : string) : result float :=
  if has_percent value then
    do f <- py_float (remove_percent value);
    do q <- py_truediv (PyFloat f) (PyInt 100);
    to_float q
  else py_float value.

Definition list_of_strings_2_floats (strings : list string) : result (list float) :=
  mapM parse_nums strings.

Record Command := mkCommand {
  cmd_name : string;
  cmd_values : Dict.t float;
  cmd_month : Z
}.

(** One turn of the loop of [parse_list_2_commands]: nothing is yielded for
    a line without tokens. *)
Definition parse_line (commands : list string) (asset_order : list string)
  : result (option Command) :=
  match commands with
  | [] => Ok None
  | [command] => Ok (Some (mkCommand (lower command) [] 0))
  | command :: remaining =>
      let month_name := List.last remaining "" in
      let last_command_is_a_month_name := Dict.mem (lower month_name) MONTH_NUMBER_ in
      do sm <- (if last_command_is_a_month_name
                then do month <- month_number_from_name month_name;
                     Ok (removelast remaining, month)
                else Ok (remaining, 0));
      do values <- list_of_strings_2_floats (fst sm);
      Ok (Some (mkCommand (lower command)
                  (Dict.of_pairs (combine asset_order values)) (snd sm)))
  end.

(** The generator: the commands it yields, in order, and the exception
    that ends it early, if any. *)
Fixpoint parse_list_2_commands (list_of_commands : list (list string))
  (asset_order : list string) : list Command * option exn :=
  match list_of_commands with
  | [] => ([], None)
  | commands :: rest =>
      match parse_line commands asset_order with
      | Err e => ([], Some e)
      | Ok None => parse_list_2_commands rest asset_order
      | Ok (Some c) =>
          let '(cs, e) := parse_list_2_commands rest asset_order in (c :: cs, e)
      end
  end.

(** ** Assets *)

Definition bank_rounding_system (allocation : num) : result Z := py_int allocation.

Record Asset := mkAsset {
  asset_name : string;
  _allocation : Z;
  _weight : Z
}.

Module AssetOps.

Definition weight (a : Asset) : Z := _weight a.
Definition allocation (a : Asset) : Z := _allocation a.

(** the setter of [weight] *)
Definition set_weight (a : Asset) (w : Z) : result Asset :=
  if ((w <? 0)%Z || (w >? 100)%Z)%bool then Err ValueError
  else Ok (mkAsset (asset_name a) (_allocation a) w).

(** the setter of [allocation] *)
Definition set_allocation (a : Asset) (v : num) : result Asset :=
  do n <- bank_rounding_system v;
  Ok (mkAsset (asset_name a) n (_weight a)).

(** [Asset(name, allocations, weight)]; the weight field has no value until
    its setter has run, and no asset is returned if a setter raises. *)
Definition init (name : string) (allocations : num) (w : Z) : result Asset :=
  do a <- set_allocation (mkAsset name 0 0) allocations;
  set_weight a w.

(** [self.allocation *= 1 + rate] *)
Definition monthly_rate_of_change (a : Asset) (rate : float) : result Asset :=
  do f <- py_add (PyInt 1) (PyFloat rate);
  do v <- py_mul (PyInt (allocation a)) f;
  set_allocation a v.

End AssetOps.

(** ** Portfolios *)

Record InvestorPortfolio := mkPortfolio {
  pf_name : string;
  assets : Dict.t Asset;
  sip : Dict.t float
}.

Definition sum_Z (l : list Z) : Z := fold_left Z.add l 0.

Module Portfolio.

Definition init (name : string) (assets : Dict.t Asset) : result InvestorPortfolio :=
  let total_weights := sum_Z (map AssetOps.weight (Dict.values assets)) in
  if negb (total_weights =? 100)%Z then Err ValueError
  else Ok (mkPortfolio name assets
             (Dict.of_pairs
                (combine (Dict.keys assets)
                   (List.repeat (S754_zero false) (length assets))))).

(** [self.assets[name].allocation += value] *)
Definition allocate_one (assets : Dict.t Asset) (name : string) (value : float)
  : result (Dict.t Asset) :=
  match Dict.get name assets with
  | None => Err (KeyError (KStr name))
  | Some a =>
      do v <- py_add (PyInt (AssetOps.allocation a)) (PyFloat value);
      do a' <- AssetOps.set_allocation a v;
      Ok (Dict.set name a' assets)
  end.

Fixpoint allocate_assets (assets : Dict.t Asset) (values : Dict.t float)
  : result (Dict.t Asset) :=
  match values with
  | [] => Ok assets
  | (name, value) :: values' =>
      do assets' <- allocate_one assets name value;
      allocate_assets assets' values'
  end.

Definition allocate (p : InvestorPortfolio) (values : Dict.t float)
  : result InvestorPortfolio :=
  do assets' <- allocate_assets (assets p) values;
  Ok (mkPortfolio (pf_name p) assets' (sip p)).

Definition add_sip (p : InvestorPortfolio) : result InvestorPortfolio :=
  allocate p (sip p).

(** [self.assets[name].monthly_rate_of_change(rate)] *)
Definition change_one (assets : Dict.t Asset) (name : string) (rate : float)
  : result (Dict.t Asset) :=
  match Dict.get name assets with
  | None => Err (KeyError (KStr name))
  | Some a =>
      do a' <- AssetOps.monthly_rate_of_change a rate;
      Ok (Dict.set name a' assets)
  end.

Fixpoint change_assets (assets : Dict.t Asset) (rates : Dict.t float)
  : result (Dict.t Asset) :=
  match rates with
  | [] => Ok assets
  | (name, rate) :: rates' =>
      do assets' <- change_one assets name rate;
      change_assets assets' rates'
  end.

Definition change (p : InvestorPortfolio) (rates : Dict.t float)
  : result InvestorPortfolio :=
  do assets' <- change_assets (assets p) rates;
  Ok (mkPortfolio (pf_name p) assets' (sip p)).

(** [asset.allocation = total_allocation * asset.weight / 100] *)
Definition rebalance_one (total_allocation : Z) (a : Asset) : result Asset :=
  do x <- py_mul (PyInt total_allocation) (PyInt (AssetOps.weight a));
  do v <- py_truediv x (PyInt 100);
  AssetOps.set_allocation a v.

Definition rebalance (p : InvestorPortfolio) : result InvestorPortfolio :=
  let total_allocation := sum_Z (map AssetOps.allocation (Dict.values (assets p))) in
  do assets' <- mapM (fun kv => do a' <- rebalance_one total_allocation (snd kv);
                                Ok (fst kv, a')) (assets p);
  Ok (mkPortfolio (pf_name p) assets' (sip p)).

Definition balance (p : InvestorPortfolio) : list Z :=
  map AssetOps.allocation (Dict.values (assets p)).

End Portfolio.


(** ** The bank *)

(** [current_month] is [None] until a [change] has assigned the attribute. *)
Record MoneyBank := mkBank {
  initial_month : Z;
  investors : gmap string InvestorPortfolio;
  log : gmap Z (gmap string (list Z));
  current_month : option Z
}.

(** [print] of the unpacked list of [int]s: one line of standard output. *)
Definition print_ints (l : list Z) : string := join_space (map str_int l).

Module Bank.

Definition INITIAL_MONTH : Z := 1.
Definition SIP_MONTH : Z := 2.
Definition REBALANCE_MONTHS : list Z := [6; 12].
Definition REBALANCE_ERROR_MSG : string := "CANNOT_REBALANCE".

(** [range(n)] *)
Definition range (n : nat) : list Z := map Z.of_nat (seq 0 n).

Definition init (investors : list InvestorPortfolio) : MoneyBank :=
  mkBank INITIAL_MONTH
    (fold_left (fun m investor => <[pf_name investor := investor]> m) investors ∅)
    (fold_left (fun m i => <[i := ∅]> m) (range (length MONTH_NUMBER_)) ∅)
    None.

(** [self.investors[name]] *)
Definition investor (b : MoneyBank) (name : string) : result InvestorPortfolio :=
  match investors b !! name with
  | Some p => Ok p
  | None => Err (KeyError (KStr name))
  end.

Definition set_investor (b : MoneyBank) (name : string) (p : InvestorPortfolio)
  : MoneyBank :=
  mkBank (initial_month b) (<[name := p]> (investors b)) (log b) (current_month b).

Definition allocate (b : MoneyBank) (name : string) (values : Dict.t float)
  : result MoneyBank :=
  do p <- investor b name;
  do p' <- Portfolio.allocate p values;
  Ok (set_investor b name p').

Definition sip (b : MoneyBank) (name : string) (sip_amounts : Dict.t float)
  : result MoneyBank :=
  do p <- investor b name;
  Ok (set_investor b name (mkPortfolio (pf_name p) (assets p) sip_amounts)).

(** [self.log[month][name] = balances] *)
Definition record (b : MoneyBank) (month : Z) (name : string) (balances : list Z)
  : result MoneyBank :=
  match log b !! month with
  | None => Err (KeyError (KInt month))
  | Some snapshots =>
      Ok (mkBank (initial_month b) (investors b)
            (<[month := <[name := balances]> snapshots]> (log b))
            (current_month b))
  end.

Definition change (b : MoneyBank) (name : string) (rates : Dict.t float) (month : Z)
  : result MoneyBank :=
  let b := mkBank (initial_month b) (investors b) (log b) (Some month) in
  do b <- (if (month >=? SIP_MONTH)%Z
           then do p <- investor b name;
                do p' <- Portfolio.add_sip p;
                Ok (set_investor b name p')
           else Ok b);
  do p <- investor b name;
  do p' <- Portfolio.change p rates;
  let b := set_investor b name p' in
  do p <- investor b name;
  record b month name (Portfolio.balance p).

Definition balance (b : MoneyBank) (name : string) (month : Z) : result (list Z) :=
  match log b !! month with
  | None => Err (KeyError (KInt month))
  | Some snapshots =>
      match snapshots !! name with
      | None => Err (KeyError (KStr name))
      | Some l => Ok l
      end
  end.

(** What [rebalance] prints, what it returns, and the bank it leaves. *)
Definition rebalance (b : MoneyBank) (name : string)
  : result (list string * bool * MoneyBank) :=
  match current_month b with
  | None => Err AttributeError
  | Some m =>
      if negb (existsb (Z.eqb m) REBALANCE_MONTHS) then
        Ok ([REBALANCE_ERROR_MSG], false, b)
      else
        do p <- investor b name;
        do p' <- Portfolio.rebalance p;
        let b := set_investor b name p' in
        do p <- investor b name;
        do b <- record b m name (Portfolio.balance p);
        Ok ([], true, b)
  end.

(** The body of the loop of [execute_investor_commands] for one command:
    the lines it prints and the bank it leaves. *)
Definition dispatch (b : MoneyBank) (investor_name : string) (c : Command)
  : result (list string * MoneyBank) :=
  let command := cmd_name c in
  if String.eqb command "allocate" then
    do b' <- allocate b investor_name (cmd_values c); Ok ([], b')
  else if String.eqb command "sip" then
    do b' <- sip b investor_name (cmd_values c); Ok ([], b')
  else if String.eqb command "change" then
    do b' <- change b investor_name (cmd_values c) (cmd_month c); Ok ([], b')
  else if String.eqb command "balance" then
    do l <- balance b investor_name (cmd_month c); Ok ([print_ints l], b)
  else if String.eqb command "rebalance" then
    do r <- rebalance b investor_name;
    let '(out, done, b') := r in
    if (done : bool) then
      match current_month b' with
      | None => Err AttributeError
      | Some m => do l <- balance b' investor_name m; Ok ((out ++ [print_ints l])%list, b')
      end
    else Ok (out, b')
  else Ok ([], b).

(** Running commands in order: the lines printed, and either the final
    bank or the exception that stopped the run. *)
Fixpoint run_commands (b : MoneyBank) (investor_name : string) (cs : list Command)
  : list string * result MoneyBank :=
  match cs with
  | [] => ([], Ok b)
  | c :: cs' =>
      match dispatch b investor_name c with
      | Err e => ([], Err e)
      | Ok (out, b') =>
          let '(out', r) := run_commands b' investor_name cs' in ((out ++ out')%list, r)
      end
  end.

(** The loop draws commands from the generator one at a time; parsing has
    no effect of its own, so an exception of the parser surfaces after
    the commands yielded before it have run. *)
Definition execute_investor_commands (b : MoneyBank) (investor_name : string)
  (list_of_commands : list (list string)) (assets_order : list string)
  : list string * result MoneyBank :=
  let '(cs, stop) := parse_list_2_commands list_of_commands assets_order in
  let '(out, r) := run_commands b investor_name cs in
  (out, match r, stop with
        | Ok _, Some e => Err e
        | _, _ => r
        end).

End Bank.

(** ** The program

    [main] with its investor name, asset order and weights as arguments,
    run on the token lists read from the input file. *)
Definition run (investor_name : string) (asset_order : list string)
  (weights : list Z) (list_of_commands : list (list string))
  : list string * result MoneyBank :=
  match
    (do assets_ <- mapM (fun nw => AssetOps.init (fst nw) (PyInt 0) (snd nw))
                     (combine asset_order weights);
     Portfolio.init investor_name (Dict.of_pairs (combine asset_order assets_)))
  with
  | Err e => ([], Err e)
  | Ok investor =>
      Bank.execute_investor_commands (Bank.init [investor]) (pf_name investor)
        list_of_commands asset_order
  end.

Definition main (list_of_commands : list (list string))
  : list string * result MoneyBank :=
  run "John Doe" ["Equity"; "Debt"; "Gold"] [60; 30; 10] list_of_commands.


(** ** Vocabulary of the statements *)

(** A line that has at least one token. *)
Definition has_tokens (line : list string) : bool :=
  match line with
  | [] => false
  | _ => true
  end.

(** The 1-based position, counting from [i], of the first name that equals
    [tok] when both are lower-cased. *)
Fixpoint position_from (i : Z) (names : list string) (tok : string) : option Z :=
  match names with
  | [] => None
  | n :: names' =>
      if String.eqb (lower tok) (lower n) then Some i
      else position_from (i + 1) names' tok
  end.

(** The calendar index of a month name, in any case: January is 1. *)
Definition calendar_index (tok : string) : option Z :=
  position_from 1 (tl calendar_month_name) tok.

(** Truncation of a rational towards zero. *)
Definition truncate (x : Q) : Z :=
  if Qle_bool 0 x then Qfloor x else Qceiling x.


(** The float 100.0, the divisor of a percentage. *)
Definition hundred : float := Float64.of_Z 100.

(** What a run leaves for an investor, when it ends without exception. *)
Definition portfolio_after (r : list string * result MoneyBank) (name : string)
  : option InvestorPortfolio :=
  match snd r with
  | Ok b => investors b !! name
  | Err _ => None
  end.

Definition balances_after (r : list string * result MoneyBank) (name : string)
  : option (list Z) :=
  option_map Portfolio.balance (portfolio_after r name).

Definition month_after (r : list string * result MoneyBank) : option Z :=
  match snd r with
  | Ok b => current_month b
  | Err _ => None
  end.

(** The months of the snapshot log are 0 to 11. *)
Definition log_months_0_to_11 (b : MoneyBank) : Prop :=
  forall k : Z, is_Some (log b !! k) <-> 0 <= k <= 11.


(** A portfolio and banks to run the statements on. *)
Definition example_portfolio : InvestorPortfolio :=
  mkPortfolio "John Doe"
    [("Equity", mkAsset "Equity" 6000 60); ("Debt", mkAsset "Debt" 3000 40)]
    [("Equity", Float64.of_Z 100); ("Debt", Float64.of_Z 200)].

Definition example_bank : MoneyBank := Bank.init [example_portfolio].

Definition example_bank_in_month (m : Z) : MoneyBank :=
  mkBank (initial_month example_bank) (investors example_bank)
    (log example_bank) (Some m).

Definition example_rates : Dict.t float :=
  [("Equity", S754_finite false 7205759403792794 (-56))].

Definition example_bank_after_change : MoneyBank :=
  match Bank.change example_bank "John Doe" example_rates 3 with
  | Ok b => b
  | Err _ => example_bank
  end.


(** A portfolio whose total is beyond the exact range of float division. *)
Definition example_large_portfolio : InvestorPortfolio :=
  mkPortfolio "John Doe"
    [("Equity", mkAsset "Equity" (2 ^ 57) 60); ("Debt", mkAsset "Debt" 0 30);
     ("Gold", mkAsset "Gold" 0 10)]
    [("Equity", S754_zero false); ("Debt", S754_zero false);
     ("Gold", S754_zero false)].


(** ** Reading the command file

    [read_file_2_list] on the text of the file, as [open(path, "r")]
    delivers it: every line ends at a newline character. *)

(** [c.isspace()] for an ASCII character *)
Definition py_isspace (c : ascii) : bool :=
  let n := nat_of_ascii c in
  (((9 <=? n) && (n <=? 13)) || ((28 <=? n) && (n <=? 32)))%nat.

(** [s.lstrip()] *)
Fixpoint py_lstrip (s : string) : string :=
  match s with
  | EmptyString => EmptyString
  | String c s' => if py_isspace c then py_lstrip s' else s
  end.

(** [s.rstrip()] *)
Fixpoint py_rstrip (s : string) : string :=
  match s with
  | EmptyString => EmptyString
  | String c s' =>
      match py_rstrip s' with
      | EmptyString => if py_isspace c then EmptyString else String c EmptyString
      | r => String c r
      end
  end.

(** [s.strip()] *)
Definition py_strip (s : string) : string := py_rstrip (py_lstrip s).

(** [s.split()]: the maximal runs of characters that are not white space. *)
Fixpoint py_split (s : string) : list string :=
  match s with
  | EmptyString => []
  | String c s' =>
      if py_isspace c then py_split s'
      else
        match s' with
        | EmptyString => [String c EmptyString]
        | String c' _ =>
            if py_isspace c' then String c EmptyString :: py_split s'
            else
              match py_split s' with
              | t :: ts => String c t :: ts
              | [] => [String c EmptyString]
              end
        end
  end.

Definition newline : ascii := ascii_of_nat 10.

(** [fp.readlines()]: the lines of the text, each with its newline. *)
Fixpoint readlines (content : string) : list string :=
  match content with
  | EmptyString => []
  | String c rest =>
      if Ascii.eqb c newline then String c EmptyString :: readlines rest
      else
        match rest with
        | EmptyString => [String c EmptyString]
        | _ =>
            match readlines rest with
            | l :: ls => String c l :: ls
            | [] => [String c EmptyString]
            end
        end
  end.

Definition read_file_2_list (content : string) : list (list string) :=
  map (fun line => py_split (py_strip line)) (readlines content).

(** ** The comparison of the test file (geektest.py) *)

(** [re.split(r"\s", s)]: the pieces of [s] between any two white space
    characters, empty pieces included. *)
Fixpoint re_split_space (s : string) : list string :=
  match s with
  | EmptyString => [EmptyString]
  | String c s' =>
      if py_isspace c then EmptyString :: re_split_space s'
      else
        match re_split_space s' with
        | t :: ts => String c t :: ts
        | [] => [String c EmptyString]
        end
  end.

(** [split_file_w_whitespace] on the text of the file. *)
Definition split_file_w_whitespace (content : string) : list (list string) :=
  map re_split_space (map py_strip (readlines content)).

(** ** Vocabulary of the further statements *)

Fixpoint no_space (s : string) : bool :=
  match s with
  | EmptyString => true
  | String c s' => negb (py_isspace c) && no_space s'
  end.

(** A token: not empty and without white space. *)
Definition is_token (s : string) : bool :=
  negb (String.eqb s "") && no_space s.

(** The text of a command file: one line per token list, the tokens one
    space apart. *)
Fixpoint file_text (lines : list (list string)) : string :=
  match lines with
  | [] => ""
  | line :: lines' => join_space line ++ String newline (file_text lines')
  end.

(** The names and weights of the assets of a dictionary, in order. *)
Definition asset_weights (d : Dict.t Asset) : list (string * (string * Z)) :=
  map (fun kv => (fst kv, (asset_name (snd kv), AssetOps.weight (snd kv)))) d.

(** The commands that [execute_investor_commands] acts on. *)
Definition is_known_command (c : Command) : bool :=
  existsb (String.eqb (cmd_name c)) ["allocate"; "sip"; "change"; "balance"; "rebalance"].

(** The commands that print a line when they complete. *)
Definition prints_a_line (c : Command) : bool :=
  String.eqb (cmd_name c) "balance" || String.eqb (cmd_name c) "rebalance".

(** The month of the last [change] among the commands, or [m0]. *)
Definition last_change_month (m0 : option Z) (cs : list Command) : option Z :=
  fold_left (fun m c => if String.eqb (cmd_name c) "change" then Some (cmd_month c) else m)
    cs m0.

Fixpoint no_newline (s : string) : bool :=
  match s with
  | EmptyString => true
  | String c s' => negb (Ascii.eqb c newline) && no_newline s'
  end.

(** What no command changes in a portfolio: its name and the names and
    weights of its assets, in order. *)
Definition portfolio_shape (p : InvestorPortfolio)
  : string * list (string * (string * Z)) :=
  (pf_name p, asset_weights (assets p)).


(** * Properties *)

(** ** The error monad *)

Lemma bind_Ok_inv {A B} (r : result A) (f : A -> result B) (b : B) :
  bind r f = Ok b -> exists a, r = Ok a /\ f a = Ok b.
Proof. destruct r as [a|e]; simpl; [eauto | discriminate]. Qed.

(** Decompose hypotheses of the form [do x <- r; k = Ok y]. *)
Ltac inv_bind :=
  repeat match goal with
    | H : bind _ _ = Ok _ |- _ =>
        let x := fresh "x" in
        let Hx := fresh "Hx" in
        apply bind_Ok_inv in H; destruct H as (x & Hx & H)
    | H : Ok _ = Ok _ |- _ => injection H as H
    | H : Err _ = Ok _ |- _ => discriminate H
    end.

Lemma mapM_length {A B} (f : A -> result B) (l : list A) (l' : list B) :
  mapM f l = Ok l' -> length l' = length l.
Proof.
  revert l'; induction l as [|a l IH]; simpl; intros l' H.
  - inv_bind. now subst.
  - inv_bind. subst. simpl. f_equal. eauto.
Qed.

(** ** Dictionaries *)

Module DictFacts.

Lemma get_set_eq {V} k (v : V) d : Dict.get k (Dict.set k v d) = Some v.
Proof.
  induction d as [|[k' v'] d IH]; simpl.
  - now rewrite String.eqb_refl.
  - destruct (String.eqb k k') eqn:E; simpl; rewrite E; auto.
Qed.

Lemma get_set_ne {V} k k' (v : V) d :
  k <> k' -> Dict.get k' (Dict.set k v d) = Dict.get k' d.
Proof.
  intros Hne. induction d as [|[k0 v0] d IH]; simpl.
  - destruct (String.eqb k' k) eqn:E; auto.
    apply String.eqb_eq in E. congruence.
  - destruct (String.eqb k k0) eqn:E; simpl.
    + apply String.eqb_eq in E. subst k0.
      destruct (String.eqb k' k) eqn:E'; auto.
      apply String.eqb_eq in E'. congruence.
    + now rewrite IH.
Qed.

Lemma keys_set_present {V} k (v : V) d :
  Dict.mem k d = true -> Dict.keys (Dict.set k v d) = Dict.keys d.
Proof.
  unfold Dict.mem, Dict.keys. induction d as [|[k' v'] d IH]; simpl.
  - discriminate.
  - destruct (String.eqb k k') eqn:E; simpl; auto.
    intros H. now rewrite IH.
Qed.

Lemma get_None_not_in {V} k (d : Dict.t V) :
  Dict.get k d = None <-> ~ In k (Dict.keys d).
Proof.
  unfold Dict.keys. induction d as [|[k' v'] d IH]; simpl.
  - tauto.
  - destruct (String.eqb k k') eqn:E.
    + apply String.eqb_eq in E. subst. split; [discriminate | tauto].
    + apply String.eqb_neq in E. rewrite IH. split.
      * intros H [H'|H']; [congruence | tauto].
      * tauto.
Qed.

Lemma set_absent {V} k (v : V) d :
  Dict.get k d = None -> Dict.set k v d = (d ++ [(k, v)])%list.
Proof.
  induction d as [|[k' v'] d IH]; simpl; auto.
  destruct (String.eqb k k'); [discriminate |].
  intros H. now rewrite IH.
Qed.

Lemma fold_set_fresh {V} (l acc : list (string * V)) :
  List.NoDup (map fst (acc ++ l)%list) ->
  fold_left (fun d kv => Dict.set (fst kv) (snd kv) d) l acc = (acc ++ l)%list.
Proof.
  revert acc. induction l as [|[k v] l IH]; intros acc H; simpl.
  - now rewrite app_nil_r.
  - rewrite set_absent.
    + rewrite IH; rewrite <- app_assoc; auto.
    + apply get_None_not_in. unfold Dict.keys.
      rewrite map_app in H. apply NoDup_remove_2 in H.
      intros Hin. apply H. apply in_or_app. now left.
Qed.

(** A list of pairs with distinct keys is its own dictionary. *)
Lemma of_pairs_NoDup {V} (l : list (string * V)) :
  List.NoDup (map fst l) -> Dict.of_pairs l = l.
Proof. intros H. unfold Dict.of_pairs. now rewrite fold_set_fresh. Qed.

Lemma NoDup_keys_combine {V} (order : list string) (vs : list V) :
  List.NoDup order -> List.NoDup (map fst (combine order vs)).
Proof.
  intros Hnd. revert vs. induction Hnd as [|k ks Hk Hnd IH]; intros [|v vs]; simpl;
    try constructor; auto.
  intros Hin. apply Hk. clear -Hin. revert vs Hin.
  induction ks as [|k' ks IH']; intros [|v' vs] Hin; simpl in *; try tauto.
  destruct Hin; eauto.
Qed.

Lemma get_combine {V} (ks : list string) (vs : list V) i k v :
  List.NoDup ks -> nth_error ks i = Some k -> nth_error vs i = Some v ->
  Dict.get k (combine ks vs) = Some v.
Proof.
  intros Hnd. revert vs i. induction Hnd as [|k0 ks Hk0 Hnd IH]; intros vs i Hk Hv.
  - destruct i; discriminate.
  - destruct vs as [|v0 vs]; [destruct i; discriminate|].
    destruct i as [|i]; simpl in *.
    + injection Hk as ->. injection Hv as ->. now rewrite String.eqb_refl.
    + destruct (String.eqb k k0) eqn:E.
      * apply String.eqb_eq in E. subst. exfalso. apply Hk0.
        eapply nth_error_In; eauto.
      * eauto.
Qed.

End DictFacts.

(** ** The examples of the docstrings

    A float printed by Python denotes the float nearest to the decimal
    shown, which is what [py_float] returns for it. *)

Example doctest_month_number_from_name :
  month_number_from_name "JaNuAry" = Ok 1.
Proof. reflexivity. Qed.

Example doctest_parse_nums :
  parse_nums "12" = py_float "12.0" /\ parse_nums "4%" = py_float "0.04".
Proof. vm_compute. split; reflexivity. Qed.

Example doctest_list_of_strings_2_floats :
  list_of_strings_2_floats ["2000"; "1000"; "500"]
  = mapM py_float ["2000.0"; "1000.0"; "500.0"] /\
  list_of_strings_2_floats ["-10.00%"; "40.00%"; "0.00%"]
  = mapM py_float ["-0.1"; "0.4"; "0.0"].
Proof. vm_compute. split; reflexivity. Qed.

Example doctest_parse_list_2_commands :
  forall f6000 f3000 f013,
    py_float "6000.0" = Ok f6000 -> py_float "3000.0" = Ok f3000 ->
    py_float "0.13" = Ok f013 ->
    parse_list_2_commands
      [["ALLOCATE"; "6000"; "3000"]; ["CHANGE"; "13.00%"; "MAY"]; ["BALANCE"; "MARCH"]]
      ["Gold"; "Equity"]
    = ([mkCommand "allocate" [("Gold", f6000); ("Equity", f3000)] 0;
        mkCommand "change" [("Gold", f013)] 5;
        mkCommand "balance" [] 3], None).
Proof. intros f6000 f3000 f013 [= <-] [= <-] [= <-]. vm_compute. reflexivity. Qed.

(** Half a year of commands through [main], with a rebalance in June. *)
Example main_half_year :
  fst (main [["ALLOCATE"; "6000"; "3000"; "1000"];
             ["SIP"; "2000"; "1000"; "500"];
             ["CHANGE"; "4.00%"; "10.00%"; "2.00%"; "JANUARY"];
             ["CHANGE"; "-10.00%"; "40.00%"; "0.00%"; "FEBRUARY"];
             ["CHANGE"; "12.50%"; "12.50%"; "12.50%"; "MARCH"];
             ["CHANGE"; "8.00%"; "-3.00%"; "7.00%"; "APRIL"];
             ["CHANGE"; "13.00%"; "21.00%"; "10.50%"; "MAY"];
             ["CHANGE"; "10.00%"; "8.00%"; "-5.00%"; "JUNE"];
             ["BALANCE"; "MARCH"];
             ["REBALANCE"]])
  = ["10593 7897 2272"; "23619 11809 3936"].
Proof. vm_compute. reflexivity. Qed.

(** ** The parser *)

Lemma parse_line_no_tokens order : parse_line [] order = Ok None.
Proof. reflexivity. Qed.

Lemma parse_line_single tok order :
  parse_line [tok] order = Ok (Some (mkCommand (lower tok) [] 0)).
Proof. reflexivity. Qed.

Lemma parse_line_yields line order c :
  parse_line line order = Ok (Some c) -> has_tokens line = true.
Proof. destruct line; [discriminate | reflexivity]. Qed.

Lemma parse_line_skips line order :
  parse_line line order = Ok None -> line = [].
Proof.
  destruct line as [|command [|tok rest]]; auto; [discriminate|].
  unfold parse_line. intros H. inv_bind. discriminate.
Qed.

(** What the generator yields: the commands of the lines that have tokens,
    in order, up to the first line that does not parse. *)
Lemma parse_list_2_commands_yields lines order :
  match parse_list_2_commands lines order with
  | (cs, None) =>
      Forall2 (fun line c => parse_line line order = Ok (Some c))
        (List.filter has_tokens lines) cs
  | (cs, Some e) =>
      exists pre bad post,
        lines = (pre ++ bad :: post)%list /\
        parse_line bad order = Err e /\
        Forall2 (fun line c => parse_line line order = Ok (Some c))
          (List.filter has_tokens pre) cs
  end.
Proof.
  induction lines as [|line lines IH]; simpl.
  - constructor.
  - destruct (parse_line line order) as [[c|]|e] eqn:E.
    + destruct (parse_list_2_commands lines order) as [cs [e|]].
      * destruct IH as (pre & bad & post & -> & Hbad & Hpre).
        exists (line :: pre), bad, post. split; [reflexivity|]. split; [assumption|].
        simpl. rewrite (parse_line_yields _ _ _ E). now constructor.
      * rewrite (parse_line_yields _ _ _ E). now constructor.
    + apply parse_line_skips in E. subst line. simpl.
      destruct (parse_list_2_commands lines order) as [cs [e|]]; auto.
      destruct IH as (pre & bad & post & -> & Hbad & Hpre).
      exists ([] :: pre), bad, post. auto.
    + exists [], line, lines. repeat split; auto.
Qed.

(** C6, as the code has it: the generator yields one command for each line
    that has at least one token, in input order, and nothing for a line
    without tokens; when a line fails to parse, the commands of the lines
    before it have been yielded.  A line of exactly one token yields the
    command named by that token in lower case, with no values and month 0. *)
Theorem parser_one_command_per_line_with_tokens :
  forall (lines : list (list string)) (order : list string),
    match parse_list_2_commands lines order with
    | (cs, None) =>
        Forall2 (fun line c => parse_line line order = Ok (Some c))
          (List.filter has_tokens lines) cs /\
        length cs = length (List.filter has_tokens lines)
    | (cs, Some e) =>
        exists pre bad post,
          lines = (pre ++ bad :: post)%list /\
          parse_line bad order = Err e /\
          Forall2 (fun line c => parse_line line order = Ok (Some c))
            (List.filter has_tokens pre) cs
    end /\
    parse_list_2_commands ([] :: lines) order = parse_list_2_commands lines order /\
    forall tok,
      parse_list_2_commands ([tok] :: lines) order =
      (mkCommand (lower tok) [] 0 :: fst (parse_list_2_commands lines order),
       snd (parse_list_2_commands lines order)).
Proof.
  intros lines order. split; [|split].
  - pose proof (parse_list_2_commands_yields lines order) as H.
    destruct (parse_list_2_commands lines order) as [cs [e|]]; auto.
    split; auto. symmetry. eapply Forall2_length; eauto.
  - reflexivity.
  - intros tok. simpl. now destruct (parse_list_2_commands lines order).
Qed.

(** C6 as stated fails: a line without tokens yields no command, so two
    input lines can give a single command. *)
Lemma parser_skips_line_without_tokens :
  parse_list_2_commands [[]; ["REBALANCE"]] ["Equity"; "Debt"]
  = ([mkCommand "rebalance" [] 0], None) /\
  length (fst (parse_list_2_commands [[]; ["REBALANCE"]] ["Equity"; "Debt"]))
  <> length [[]; ["REBALANCE"]].
Proof. split; [reflexivity | discriminate]. Qed.

(** *** Month names *)

Lemma MONTH_NUMBER_table :
  MONTH_NUMBER_ =
  [("january", 1); ("february", 2); ("march", 3); ("april", 4);
   ("may", 5); ("june", 6); ("july", 7); ("august", 8);
   ("september", 9); ("october", 10); ("november", 11); ("december", 12)].
Proof. reflexivity. Qed.

(** Looking a token up in [MONTH_NUMBER_] is finding its calendar index. *)
Lemma month_table_lookup tok :
  Dict.get (lower tok) MONTH_NUMBER_ = calendar_index tok.
Proof.
  rewrite MONTH_NUMBER_table. unfold calendar_index, calendar_month_name.
  cbn [tl position_from Dict.get].
  change (lower "January") with "january".
  change (lower "February") with "february".
  change (lower "March") with "march".
  change (lower "April") with "april".
  change (lower "May") with "may".
  change (lower "June") with "june".
  change (lower "July") with "july".
  change (lower "August") with "august".
  change (lower "September") with "september".
  change (lower "October") with "october".
  change (lower "November") with "november".
  change (lower "December") with "december".
  reflexivity.
Qed.

Lemma position_from_range i names tok m :
  position_from i names tok = Some m ->
  i <= m < i + Z.of_nat (length names) /\
  lower (nth (Z.to_nat (m - i)) names "") = lower tok.
Proof.
  revert i. induction names as [|n names IH]; intros i; simpl; [discriminate|].
  destruct (String.eqb (lower tok) (lower n)) eqn:E.
  - intros [= <-]. apply String.eqb_eq in E. rewrite Z.sub_diag. simpl.
    split; [lia | congruence].
  - intros H. apply IH in H. destruct H as [Hr Hn]. split; [lia|].
    replace (Z.to_nat (m - i)) with (S (Z.to_nat (m - (i + 1)))) by lia.
    exact Hn.
Qed.

Lemma calendar_index_range tok m :
  calendar_index tok = Some m ->
  1 <= m <= 12 /\ lower (nth (Z.to_nat m) calendar_month_name "") = lower tok.
Proof.
  unfold calendar_index. intros H. apply position_from_range in H.
  destruct H as [Hr Hn]. simpl length in Hr. split; [lia|].
  replace (Z.to_nat m) with (S (Z.to_nat (m - 1))) by lia. exact Hn.
Qed.

(** *** Value tokens *)

Lemma parse_nums_percent value :
  has_percent value = true ->
  parse_nums value =
  do f <- py_float (remove_percent value); Ok (Float64.div f hundred).
Proof.
  intros H. unfold parse_nums. rewrite H.
  destruct (py_float (remove_percent value)); reflexivity.
Qed.

Lemma parse_nums_plain value :
  has_percent value = false -> parse_nums value = py_float value.
Proof. intros H. unfold parse_nums. now rewrite H. Qed.

Lemma remove_percent_clean value : has_percent (remove_percent value) = false.
Proof.
  induction value as [|c s IH]; simpl; auto.
  destruct (Ascii.eqb c "%") eqn:E; simpl; auto. now rewrite E.
Qed.

(** C7: a line of two tokens or more.  The command takes the lower-cased
    first token as its name.  When the last token is a month name in any
    case, the month is its calendar index (between 1 and 12, January
    being 1) and the tokens between the first and the last are the value
    tokens; otherwise the month is 0 and every token after the first is a
    value token.  A value token with a percent sign is read without its
    percent signs and divided by 100, any other is read as a number; a
    token that cannot be read raises.  The values are paired with the asset
    names by position: with distinct asset names, the i-th name maps to
    the i-th value. *)
Theorem parse_line_with_arguments :
  forall (command tok : string) (rest order : list string),
    let remaining := tok :: rest in
    let last_token := List.last remaining "" in
    let value_tokens :=
      match calendar_index last_token with
      | Some _ => removelast remaining
      | None => remaining
      end in
    let month :=
      match calendar_index last_token with
      | Some m => m
      | None => 0
      end in
    parse_line (command :: remaining) order =
      (do values <- mapM parse_nums value_tokens;
       Ok (Some (mkCommand (lower command)
                   (Dict.of_pairs (combine order values)) month))) /\
    (forall m, calendar_index last_token = Some m ->
       1 <= m <= 12 /\
       lower (nth (Z.to_nat m) calendar_month_name "") = lower last_token) /\
    (forall value,
       parse_nums value =
       if has_percent value
       then do f <- py_float (remove_percent value); Ok (Float64.div f hundred)
       else py_float value) /\
    (forall values c i name v,
       mapM parse_nums value_tokens = Ok values ->
       parse_line (command :: remaining) order = Ok (Some c) ->
       List.NoDup order ->
       nth_error order i = Some name -> nth_error values i = Some v ->
       Dict.get name (cmd_values c) = Some v).
Proof.
  intros command tok rest order remaining last_token value_tokens month.
  assert (Hparse :
    parse_line (command :: remaining) order =
      (do values <- mapM parse_nums value_tokens;
       Ok (Some (mkCommand (lower command)
                   (Dict.of_pairs (combine order values)) month)))).
  { unfold parse_line, remaining at 1. fold remaining. fold last_token.
    unfold Dict.mem, month_number_from_name, list_of_strings_2_floats.
    subst value_tokens month.
    rewrite !month_table_lookup.
    destruct (calendar_index last_token) as [m|]; reflexivity. }
  split; [exact Hparse|]. split; [|split].
  - apply calendar_index_range.
  - intros value. destruct (has_percent value) eqn:E.
    + now apply parse_nums_percent.
    + now apply parse_nums_plain.
  - intros values c i name v Hvalues Hc Hnd Hname Hv.
    rewrite Hparse, Hvalues in Hc. simpl in Hc. injection Hc as <-. simpl.
    rewrite DictFacts.of_pairs_NoDup by (apply DictFacts.NoDup_keys_combine; exact Hnd).
    eapply DictFacts.get_combine; eauto.
Qed.

Lemma parse_line_with_arguments_example :
  calendar_index "JANUARY" = Some 1 /\
  lower (nth 1 calendar_month_name "") = lower "JANUARY" /\
  parse_line ["CHANGE"; "4.00%"; "10.00%"; "JANUARY"] ["Equity"; "Debt"; "Gold"]
  = Ok (Some (mkCommand "change"
                [("Equity", S754_finite false 5764607523034235 (-57));
                 ("Debt", S754_finite false 7205759403792794 (-56))] 1)) /\
  parse_nums "4.00%" = Ok (S754_finite false 5764607523034235 (-57)) /\
  Dict.get "Debt"
    [("Equity", S754_finite false 5764607523034235 (-57));
     ("Debt", S754_finite false 7205759403792794 (-56))]
  = Some (S754_finite false 7205759403792794 (-56)).
Proof.
  destruct (parse_line_with_arguments "CHANGE" "4.00%" ["10.00%"; "JANUARY"]
              ["Equity"; "Debt"; "Gold"]) as (Hparse & Hmonth & Hnums & Hget).
  assert (Hline :
    parse_line ["CHANGE"; "4.00%"; "10.00%"; "JANUARY"] ["Equity"; "Debt"; "Gold"]
    = Ok (Some (mkCommand "change"
                  [("Equity", S754_finite false 5764607523034235 (-57));
                   ("Debt", S754_finite false 7205759403792794 (-56))] 1))).
  { rewrite Hparse. vm_compute. reflexivity. }
  split; [reflexivity|]. split; [|split; [exact Hline|split]].
  - destruct (Hmonth 1) as [_ Hname]; [reflexivity | exact Hname].
  - rewrite Hnums. vm_compute. reflexivity.
  - apply (Hget [S754_finite false 5764607523034235 (-57);
                 S754_finite false 7205759403792794 (-56)]
             (mkCommand "change"
                [("Equity", S754_finite false 5764607523034235 (-57));
                 ("Debt", S754_finite false 7205759403792794 (-56))] 1)
             1%nat "Debt" (S754_finite false 7205759403792794 (-56))).
    + vm_compute. reflexivity.
    + exact Hline.
    + repeat constructor; simpl; intuition discriminate.
    + reflexivity.
    + reflexivity.
Defined.

(** ** The scenario of the specification *)

(** C1, as the code runs it, with assets Equity and Debt weighted 60 and
    40: after [ALLOCATE 6000 3000] Equity holds 6000 and Debt 3000;
    [CHANGE 10% MARCH] carries one rate, which the parser pairs with the
    first asset only, so after the zero contribution Equity grows by 10% to
    6600 and Debt stays at 3000; [BALANCE MARCH] prints [6600 3000]. *)
Theorem scenario_allocate_change_balance :
  let order := ["Equity"; "Debt"] in
  let go := run "John Doe" order [60; 40] in
  let l1 := ["ALLOCATE"; "6000"; "3000"] in
  let l2 := ["CHANGE"; "10%"; "MARCH"] in
  let l3 := ["BALANCE"; "MARCH"] in
  balances_after (go [l1]) "John Doe" = Some [6000; 3000] /\
  option_map sip (portfolio_after (go [l1]) "John Doe")
  = Some [("Equity", S754_zero false); ("Debt", S754_zero false)] /\
  parse_line l2 order
  = Ok (Some (mkCommand "change"
                [("Equity", S754_finite false 7205759403792794 (-56))] 3)) /\
  balances_after (go [l1; l2]) "John Doe" = Some [6600; 3000] /\
  month_after (go [l1; l2]) = Some 3 /\
  fst (go [l1; l2; l3]) = ["6600 3000"] /\
  balances_after (go [l1; l2; l3]) "John Doe" = Some [6600; 3000].
Proof. vm_compute. repeat split. Qed.

(** C1 as stated fails: Debt is not 3300 after the change and the balance
    line is not [6600 3300]. *)
Lemma scenario_debt_keeps_3000 :
  let go := run "John Doe" ["Equity"; "Debt"] [60; 40] in
  let l1 := ["ALLOCATE"; "6000"; "3000"] in
  let l2 := ["CHANGE"; "10%"; "MARCH"] in
  let l3 := ["BALANCE"; "MARCH"] in
  balances_after (go [l1; l2]) "John Doe" <> Some [6600; 3300] /\
  fst (go [l1; l2; l3]) <> ["6600 3300"].
Proof. vm_compute. split; discriminate. Qed.

(** ** The bank *)

Module BankFacts.

Lemma investor_Ok b name p :
  Bank.investor b name = Ok p <-> investors b !! name = Some p.
Proof.
  unfold Bank.investor. destruct (investors b !! name); split; congruence.
Qed.

Lemma investor_set b name p :
  Bank.investor (Bank.set_investor b name p) name = Ok p.
Proof. unfold Bank.investor, Bank.set_investor. simpl. now rewrite lookup_insert_eq. Qed.

Lemma record_Ok b month name l b' :
  Bank.record b month name l = Ok b' ->
  exists snapshots,
    log b !! month = Some snapshots /\
    b' = mkBank (initial_month b) (investors b)
           (<[month := <[name := l]> snapshots]> (log b)) (current_month b).
Proof.
  unfold Bank.record. destruct (log b !! month) as [snapshots|]; [|discriminate].
  intros [= <-]. eauto.
Qed.

(** Recording leaves the months of the log as they were. *)
Lemma record_months b month name l b' k :
  Bank.record b month name l = Ok b' ->
  is_Some (log b' !! k) <-> is_Some (log b !! k).
Proof.
  intros H. apply record_Ok in H. destruct H as (snapshots & Hs & ->). simpl.
  destruct (decide (month = k)) as [->|Hne].
  - rewrite lookup_insert_eq, Hs. split; eauto.
  - now rewrite lookup_insert_ne.
Qed.

Lemma balance_recorded b month name l b' :
  Bank.record b month name l = Ok b' -> Bank.balance b' name month = Ok l.
Proof.
  intros H. apply record_Ok in H. destruct H as (snapshots & Hs & ->).
  unfold Bank.balance. simpl. now rewrite !lookup_insert_eq.
Qed.

(** [change] with its repeated look-ups of the investor folded. *)
Lemma change_unfold b name rates month :
  Bank.change b name rates month =
  match investors b !! name with
  | None => Err (KeyError (KStr name))
  | Some p =>
      do p1 <- (if (month >=? Bank.SIP_MONTH)%Z then Portfolio.add_sip p else Ok p);
      do p2 <- Portfolio.change p1 rates;
      Bank.record
        (mkBank (initial_month b) (<[name := p2]> (investors b)) (log b) (Some month))
        month name (Portfolio.balance p2)
  end.
Proof.
  unfold Bank.change.
  destruct (month >=? Bank.SIP_MONTH)%Z.
  - unfold Bank.investor at 1. simpl.
    destruct (investors b !! name) as [p|]; [|reflexivity]. simpl.
    destruct (Portfolio.add_sip p) as [p1|e]; [|reflexivity]. simpl.
    rewrite investor_set. simpl.
    destruct (Portfolio.change p1 rates) as [p2|e]; [|reflexivity]. simpl.
    rewrite investor_set. simpl.
    unfold Bank.set_investor. simpl. now rewrite insert_insert_eq.
  - simpl. unfold Bank.investor at 1. simpl.
    destruct (investors b !! name) as [p|]; [|reflexivity]. simpl.
    destruct (Portfolio.change p rates) as [p2|e]; [|reflexivity]. simpl.
    now rewrite investor_set.
Qed.

(** [change], step by step. *)
Lemma change_Ok b name rates month b' :
  Bank.change b name rates month = Ok b' <->
  exists p p1 p2 snapshots,
    investors b !! name = Some p /\
    (if (month >=? Bank.SIP_MONTH)%Z then Portfolio.add_sip p = Ok p1 else p1 = p) /\
    Portfolio.change p1 rates = Ok p2 /\
    log b !! month = Some snapshots /\
    b' = mkBank (initial_month b) (<[name := p2]> (investors b))
           (<[month := <[name := Portfolio.balance p2]> snapshots]> (log b))
           (Some month).
Proof.
  rewrite change_unfold. split.
  - destruct (investors b !! name) as [p|]; [|discriminate].
    intros H. apply bind_Ok_inv in H. destruct H as (p1 & Hp1 & H).
    apply bind_Ok_inv in H. destruct H as (p2 & Hp2 & H).
    apply record_Ok in H. destruct H as (snapshots & Hs & ->). simpl in *.
    exists p, p1, p2, snapshots. repeat split; auto.
    destruct (month >=? Bank.SIP_MONTH)%Z; congruence.
  - intros (p & p1 & p2 & snapshots & Hp & Hsip & Hchange & Hs & ->).
    rewrite Hp.
    replace (if (month >=? Bank.SIP_MONTH)%Z then Portfolio.add_sip p else Ok p)
      with (Ok p1) by (destruct (month >=? Bank.SIP_MONTH)%Z; congruence).
    simpl. rewrite Hchange. simpl. unfold Bank.record. simpl. now rewrite Hs.
Qed.

Lemma rebalance_Ok_done b name out b' :
  Bank.rebalance b name = Ok (out, true, b') ->
  exists m p p' snapshots,
    current_month b = Some m /\ (m = 6 \/ m = 12) /\
    investors b !! name = Some p /\
    Portfolio.rebalance p = Ok p' /\
    log b !! m = Some snapshots /\
    out = [] /\
    b' = mkBank (initial_month b) (<[name := p']> (investors b))
           (<[m := <[name := Portfolio.balance p']> snapshots]> (log b))
           (Some m).
Proof.
  unfold Bank.rebalance. destruct (current_month b) as [m|] eqn:Hm; [|discriminate].
  destruct (negb (existsb (Z.eqb m) Bank.REBALANCE_MONTHS)) eqn:E; [discriminate|].
  intros H.
  apply bind_Ok_inv in H. destruct H as (p & Hp & H).
  apply bind_Ok_inv in H. destruct H as (p' & Hp' & H).
  rewrite investor_set in H. simpl in H.
  apply bind_Ok_inv in H. destruct H as (b1 & Hb1 & H).
  injection H as <- <-.
  apply investor_Ok in Hp.
  apply record_Ok in Hb1. destruct Hb1 as (snapshots & Hs & ->). simpl in *.
  exists m, p, p', snapshots. repeat split; auto; try (now rewrite Hm).
  apply negb_false_iff in E. simpl in E. rewrite orb_false_r in E.
  apply orb_true_iff in E. destruct E as [E|E]; apply Z.eqb_eq in E; auto.
Qed.

Lemma rebalance_rejects b name m :
  current_month b = Some m -> m <> 6 -> m <> 12 ->
  Bank.rebalance b name = Ok ([Bank.REBALANCE_ERROR_MSG], false, b).
Proof.
  intros Hm H6 H12. unfold Bank.rebalance. rewrite Hm. simpl.
  apply Z.eqb_neq in H6, H12. now rewrite H6, H12.
Qed.

Lemma rebalance_unset_month b name :
  current_month b = None -> Bank.rebalance b name = Err AttributeError.
Proof. intros Hm. unfold Bank.rebalance. now rewrite Hm. Qed.

(** The five branches of [dispatch] and its fall-through. *)
Lemma dispatch_cases b name c out b' :
  Bank.dispatch b name c = Ok (out, b') ->
  (cmd_name c = "allocate" /\ out = [] /\
     Bank.allocate b name (cmd_values c) = Ok b') \/
  (cmd_name c = "sip" /\ out = [] /\ Bank.sip b name (cmd_values c) = Ok b') \/
  (cmd_name c = "change" /\ out = [] /\
     Bank.change b name (cmd_values c) (cmd_month c) = Ok b') \/
  (cmd_name c = "balance" /\ b' = b /\
     exists l, Bank.balance b name (cmd_month c) = Ok l /\ out = [print_ints l]) \/
  (cmd_name c = "rebalance" /\
     exists out0 done, Bank.rebalance b name = Ok (out0, done, b')) \/
  (cmd_name c <> "change" /\ cmd_name c <> "rebalance" /\ out = [] /\ b' = b).
Proof.
  unfold Bank.dispatch.
  destruct (String.eqb_spec (cmd_name c) "allocate") as [E1|N1].
  { intros H. inv_bind. subst. auto. }
  destruct (String.eqb_spec (cmd_name c) "sip") as [E2|N2].
  { intros H. inv_bind. subst. auto. }
  destruct (String.eqb_spec (cmd_name c) "change") as [E3|N3].
  { intros H. inv_bind. subst. auto 6. }
  destruct (String.eqb_spec (cmd_name c) "balance") as [E4|N4].
  { intros H. inv_bind. subst. right; right; right; left. eauto. }
  destruct (String.eqb_spec (cmd_name c) "rebalance") as [E5|N5].
  { intros H. inv_bind. destruct x as [[out0 done] b0].
    right; right; right; right; left. split; auto.
    destruct done.
    - destruct (current_month b0); [|discriminate]. inv_bind. subst. eauto.
    - injection H as <- <-. eauto. }
  intros [= <- <-]. auto 10.
Qed.

Lemma rebalance_Ok_rejected b name out b' :
  Bank.rebalance b name = Ok (out, false, b') ->
  b' = b /\ out = [Bank.REBALANCE_ERROR_MSG].
Proof.
  unfold Bank.rebalance. destruct (current_month b) as [m|]; [|discriminate].
  destruct (negb (existsb (Z.eqb m) Bank.REBALANCE_MONTHS)).
  - intros [= <- <-]. auto.
  - intros H.
    apply bind_Ok_inv in H. destruct H as (p & Hp & H).
    apply bind_Ok_inv in H. destruct H as (p' & Hp' & H).
    apply bind_Ok_inv in H. destruct H as (p2 & Hp2 & H).
    apply bind_Ok_inv in H. destruct H as (b1 & Hb1 & H). discriminate.
Qed.

Lemma allocate_Ok b name values b' :
  Bank.allocate b name values = Ok b' ->
  log b' = log b /\ current_month b' = current_month b.
Proof.
  unfold Bank.allocate. intros H.
  apply bind_Ok_inv in H. destruct H as (p & Hp & H).
  apply bind_Ok_inv in H. destruct H as (p' & Hp' & H).
  injection H as <-. auto.
Qed.

Lemma sip_Ok b name values b' :
  Bank.sip b name values = Ok b' ->
  log b' = log b /\ current_month b' = current_month b.
Proof.
  unfold Bank.sip. intros H.
  apply bind_Ok_inv in H. destruct H as (p & Hp & H).
  injection H as <-. auto.
Qed.

Lemma insert_present_months (lg : gmap Z (gmap string (list Z))) m old new k :
  lg !! m = Some old -> is_Some (<[m := new]> lg !! k) <-> is_Some (lg !! k).
Proof.
  intros Hm. destruct (decide (m = k)) as [->|Hne].
  - rewrite lookup_insert_eq, Hm. split; eauto.
  - now rewrite lookup_insert_ne.
Qed.

(** No command adds or removes a month of the log. *)
Lemma dispatch_months b name c out b' k :
  Bank.dispatch b name c = Ok (out, b') ->
  is_Some (log b' !! k) <-> is_Some (log b !! k).
Proof.
  intros H. apply dispatch_cases in H.
  destruct H as [(_ & _ & H)|[(_ & _ & H)|[(_ & _ & H)|[(_ & -> & _)|[(_ & H)|H]]]]].
  - apply allocate_Ok in H. destruct H as [-> _]. tauto.
  - apply sip_Ok in H. destruct H as [-> _]. tauto.
  - apply change_Ok in H. destruct H as (p & p1 & p2 & sn & _ & _ & _ & Hs & ->).
    simpl. eapply insert_present_months; eauto.
  - tauto.
  - destruct H as (out0 & [|] & H).
    + apply rebalance_Ok_done in H.
      destruct H as (m & p & p' & sn & _ & _ & _ & _ & Hs & _ & ->).
      simpl. eapply insert_present_months; eauto.
    + apply rebalance_Ok_rejected in H. destruct H as [-> _]. tauto.
  - destruct H as (_ & _ & _ & ->). tauto.
Qed.

(** Only [change] assigns [current_month]. *)
Lemma dispatch_month_unset b name c out b' :
  cmd_name c <> "change" ->
  current_month b = None ->
  Bank.dispatch b name c = Ok (out, b') ->
  current_month b' = None.
Proof.
  intros Hc Hm H. apply dispatch_cases in H.
  destruct H as [(_ & _ & H)|[(_ & _ & H)|[(E & _)|[(_ & -> & _)|[(_ & H)|H]]]]].
  - apply allocate_Ok in H. destruct H as [_ ->]. exact Hm.
  - apply sip_Ok in H. destruct H as [_ ->]. exact Hm.
  - contradiction.
  - exact Hm.
  - destruct H as (out0 & done & H).
    rewrite (rebalance_unset_month _ _ Hm) in H. discriminate.
  - destruct H as (_ & _ & _ & ->). exact Hm.
Qed.

Lemma init_months investors_ : log_months_0_to_11 (Bank.init investors_).
Proof.
  intros k. unfold Bank.init. simpl.
  rewrite !lookup_insert_is_Some'.
  pose proof (lookup_empty_is_Some (M := gmap Z) (A := gmap string (list Z)) k) as Hempty.
  cbn [Z.of_nat Pos.of_succ_nat Pos.succ].
  split; [intuition lia | intros Hk].
  assert (Hcases : k = 0 \/ k = 1 \/ k = 2 \/ k = 3 \/ k = 4 \/ k = 5 \/ k = 6 \/
                   k = 7 \/ k = 8 \/ k = 9 \/ k = 10 \/ k = 11) by lia.
  intuition auto.
Qed.

Lemma run_commands_months b name cs out b' :
  Bank.run_commands b name cs = (out, Ok b') ->
  log_months_0_to_11 b -> log_months_0_to_11 b'.
Proof.
  revert b out. induction cs as [|c cs IH]; intros b out; simpl.
  - intros [= <- <-]. auto.
  - destruct (Bank.dispatch b name c) as [[out1 b1]|e] eqn:E; [|discriminate].
    destruct (Bank.run_commands b1 name cs) as [out2 r] eqn:E2.
    intros [= <- ->] Hb. eapply IH; eauto.
    intros k. rewrite (dispatch_months _ _ _ _ _ k E). apply Hb.
Qed.

Lemma run_commands_app b name cs1 cs2 :
  Bank.run_commands b name (cs1 ++ cs2) =
  match Bank.run_commands b name cs1 with
  | (out1, Ok b1) =>
      ((out1 ++ fst (Bank.run_commands b1 name cs2))%list,
       snd (Bank.run_commands b1 name cs2))
  | (out1, Err e) => (out1, Err e)
  end.
Proof.
  revert b. induction cs1 as [|c cs1 IH]; intros b; simpl.
  - now destruct (Bank.run_commands b name cs2).
  - destruct (Bank.dispatch b name c) as [[out b1]|e]; [|reflexivity].
    rewrite IH. destruct (Bank.run_commands b1 name cs1) as [out1 [b2|e]].
    + now rewrite app_assoc.
    + reflexivity.
Qed.

Lemma run_commands_month_unset b name cs out b' :
  Forall (fun c => cmd_name c <> "change") cs ->
  current_month b = None ->
  Bank.run_commands b name cs = (out, Ok b') ->
  current_month b' = None.
Proof.
  intros Hcs. revert b out. induction Hcs as [|c cs Hc Hcs IH]; intros b out Hm; simpl.
  - intros [= <- <-]. exact Hm.
  - destruct (Bank.dispatch b name c) as [[out1 b1]|e] eqn:E; [|discriminate].
    destruct (Bank.run_commands b1 name cs) as [out2 r] eqn:E2.
    intros [= <- ->]. apply (IH b1 out2); auto. eapply dispatch_month_unset; eauto.
Qed.

End BankFacts.

(** C2: a [change] for month [m] that completes has set [current_month] to
    [m]; from month 2 on it has added the stored contribution of the
    portfolio to it once (one [allocate] of [sip]) and applied the rates to
    the result; before month 2 it has applied the rates to the portfolio
    as it was, without the contribution.  The balances recorded for [m]
    are those of the resulting portfolio. *)
Theorem change_adds_contribution_once_from_month_2 :
  forall (b : MoneyBank) (name : string) (rates : Dict.t float) (m : Z)
         (b' : MoneyBank),
    Bank.change b name rates m = Ok b' ->
    current_month b' = Some m /\
    exists p p1 p2,
      investors b !! name = Some p /\
      (2 <= m -> Portfolio.allocate p (sip p) = Ok p1) /\
      (m < 2 -> p1 = p) /\
      Portfolio.change p1 rates = Ok p2 /\
      investors b' = <[name := p2]> (investors b) /\
      Bank.balance b' name m = Ok (Portfolio.balance p2).
Proof.
  intros b name rates m b' H.
  apply BankFacts.change_Ok in H.
  destruct H as (p & p1 & p2 & snapshots & Hp & Hsip & Hchange & Hs & ->).
  split; [reflexivity|].
  exists p, p1, p2. unfold Bank.SIP_MONTH in Hsip.
  repeat split; auto.
  - intros Hm. destruct (Z.geb_spec m 2) as [_|Hlt]; [exact Hsip | lia].
  - intros Hm. destruct (Z.geb_spec m 2) as [Hge|_]; [lia | exact Hsip].
  - unfold Bank.balance. simpl. now rewrite !lookup_insert_eq.
Qed.

Lemma change_adds_contribution_once_example :
  Bank.change example_bank "John Doe" example_rates 3 = Ok example_bank_after_change /\
  current_month example_bank_after_change = Some 3 /\
  Bank.balance example_bank_after_change "John Doe" 3 = Ok [6710; 3200].
Proof.
  assert (H : Bank.change example_bank "John Doe" example_rates 3
              = Ok example_bank_after_change) by (vm_compute; reflexivity).
  split; [exact H|].
  destruct (change_adds_contribution_once_from_month_2 _ _ _ _ _ H)
    as (Hm & p & p1 & p2 & Hp & Hsip & _ & Hchange & _ & Hbal).
  split; [exact Hm|].
  vm_compute. reflexivity.
Defined.

(** C3: a [rebalance] met while [current_month] holds a month other than 6
    and 12 prints the one line [CANNOT_REBALANCE] and leaves the bank as it
    was, with every portfolio and the whole log; the run goes on with the
    commands that follow. *)
Theorem rebalance_outside_6_and_12_is_rejected :
  forall (b : MoneyBank) (name : string) (m : Z),
    current_month b = Some m -> m <> 6 -> m <> 12 ->
    Bank.rebalance b name = Ok (["CANNOT_REBALANCE"], false, b) /\
    forall (c : Command) (cs : list Command),
      cmd_name c = "rebalance" ->
      Bank.dispatch b name c = Ok (["CANNOT_REBALANCE"], b) /\
      Bank.run_commands b name (c :: cs) =
      ("CANNOT_REBALANCE" :: fst (Bank.run_commands b name cs),
       snd (Bank.run_commands b name cs)).
Proof.
  intros b name m Hm H6 H12.
  pose proof (BankFacts.rebalance_rejects b name m Hm H6 H12) as Hr.
  split; [exact Hr|].
  intros c cs Hc.
  assert (Hd : Bank.dispatch b name c = Ok (["CANNOT_REBALANCE"], b)).
  { unfold Bank.dispatch. rewrite Hc. simpl. now rewrite Hr. }
  split; [exact Hd|].
  simpl. rewrite Hd. now destruct (Bank.run_commands b name cs).
Qed.

Lemma rebalance_outside_6_and_12_example :
  current_month (example_bank_in_month 3) = Some 3 /\
  Bank.rebalance (example_bank_in_month 3) "John Doe"
  = Ok (["CANNOT_REBALANCE"], false, example_bank_in_month 3) /\
  fst (Bank.run_commands (example_bank_in_month 3) "John Doe"
         [mkCommand "rebalance" [] 0; mkCommand "balance" [] 0])
  = ["CANNOT_REBALANCE"].
Proof.
  destruct (rebalance_outside_6_and_12_is_rejected (example_bank_in_month 3)
              "John Doe" 3) as [Hr Hrun]; [reflexivity | lia | lia |].
  split; [reflexivity|]. split; [exact Hr|].
  destruct (Hrun (mkCommand "rebalance" [] 0) [mkCommand "balance" [] 0]) as [_ ->];
    [reflexivity|].
  vm_compute. reflexivity.
Defined.

(** C9: the log of a new bank has the months 0 to 11 and no other, and no
    run of commands changes that.  With such a log a [change] for month 12
    never completes, and raises [KeyError] on 12 once the contribution and
    the rates have been applied; a [rebalance] with [current_month] 12
    never completes either, and raises [KeyError] on 12 once the portfolio
    has been rebalanced. *)
Theorem december_is_not_in_the_log :
  forall (investors_ : list InvestorPortfolio) (name : string)
         (cs : list Command) (out : list string) (b : MoneyBank),
    Bank.run_commands (Bank.init investors_) name cs = (out, Ok b) ->
    log_months_0_to_11 (Bank.init investors_) /\
    log_months_0_to_11 b /\
    (forall rates,
        (exists e, Bank.change b name rates 12 = Err e) /\
        forall p p1 p2,
          investors b !! name = Some p ->
          Portfolio.add_sip p = Ok p1 ->
          Portfolio.change p1 rates = Ok p2 ->
          Bank.change b name rates 12 = Err (KeyError (KInt 12))) /\
    (forall b12,
        log_months_0_to_11 b12 -> current_month b12 = Some 12 ->
        (exists e, Bank.rebalance b12 name = Err e) /\
        forall p p',
          investors b12 !! name = Some p ->
          Portfolio.rebalance p = Ok p' ->
          Bank.rebalance b12 name = Err (KeyError (KInt 12))).
Proof.
  intros investors_ name cs out b Hrun.
  pose proof (BankFacts.init_months investors_) as Hinit.
  pose proof (BankFacts.run_commands_months _ _ _ _ _ Hrun Hinit) as Hb.
  assert (Hnone : forall b0, log_months_0_to_11 b0 -> log b0 !! 12 = None).
  { intros b0 H0. destruct (log b0 !! 12) eqn:E; auto.
    assert (is_Some (log b0 !! 12)) as Hs by eauto.
    apply H0 in Hs. lia. }
  split; [exact Hinit|]. split; [exact Hb|]. split.
  - intros rates.
    assert (Hgen : forall p p1 p2,
               investors b !! name = Some p ->
               Portfolio.add_sip p = Ok p1 ->
               Portfolio.change p1 rates = Ok p2 ->
               Bank.change b name rates 12 = Err (KeyError (KInt 12))).
    { intros p p1 p2 Hp Hp1 Hp2. rewrite BankFacts.change_unfold, Hp. simpl.
      rewrite Hp1. simpl. rewrite Hp2. simpl.
      unfold Bank.record. simpl. now rewrite (Hnone b Hb). }
    split; [|exact Hgen].
    rewrite BankFacts.change_unfold.
    destruct (investors b !! name) as [p|] eqn:Hp; [|eauto]. simpl.
    destruct (Portfolio.add_sip p) as [p1|e] eqn:Hp1; [|eauto]. simpl.
    destruct (Portfolio.change p1 rates) as [p2|e] eqn:Hp2; [|eauto]. simpl.
    unfold Bank.record. simpl. rewrite (Hnone b Hb). eauto.
  - intros b12 Hlog Hm.
    assert (Hgen : forall p p',
               investors b12 !! name = Some p ->
               Portfolio.rebalance p = Ok p' ->
               Bank.rebalance b12 name = Err (KeyError (KInt 12))).
    { intros p p' Hp Hp'. unfold Bank.rebalance. rewrite Hm. simpl.
      unfold Bank.investor at 1. rewrite Hp. simpl. rewrite Hp'. simpl.
      rewrite BankFacts.investor_set. simpl.
      unfold Bank.record. simpl. now rewrite (Hnone b12 Hlog). }
    split; [|exact Hgen].
    unfold Bank.rebalance. rewrite Hm. simpl.
    unfold Bank.investor at 1.
    destruct (investors b12 !! name) as [p|] eqn:Hp; [|eauto]. simpl.
    destruct (Portfolio.rebalance p) as [p'|e] eqn:Hp'; [|eauto]. simpl.
    rewrite BankFacts.investor_set. simpl.
    unfold Bank.record. simpl. rewrite (Hnone b12 Hlog). eauto.
Qed.

Lemma december_is_not_in_the_log_example :
  Bank.run_commands (Bank.init [example_portfolio]) "John Doe" [] = ([], Ok example_bank) /\
  Bank.change example_bank "John Doe" example_rates 12 = Err (KeyError (KInt 12)) /\
  Bank.change example_bank "John Doe" example_rates 11 <> Err (KeyError (KInt 11)) /\
  Bank.rebalance (example_bank_in_month 12) "John Doe" = Err (KeyError (KInt 12)) /\
  fst (main [["CHANGE"; "1%"; "DECEMBER"]]) = [] /\
  snd (main [["CHANGE"; "1%"; "DECEMBER"]]) = Err (KeyError (KInt 12)).
Proof.
  assert (Hrun : Bank.run_commands (Bank.init [example_portfolio]) "John Doe" []
                 = ([], Ok example_bank)) by reflexivity.
  destruct (december_is_not_in_the_log _ _ _ _ _ Hrun)
    as (Hinit & _ & Hchange & Hrebalance).
  split; [exact Hrun|]. split; [|split; [|split; [|split]]].
  - destruct (Hchange example_rates) as [_ H].
    apply (H example_portfolio
             (match Portfolio.add_sip example_portfolio with
              | Ok p => p | Err _ => example_portfolio end)
             (match Bank.investor example_bank_after_change "John Doe" with
              | Ok p => p | Err _ => example_portfolio end));
      vm_compute; reflexivity.
  - vm_compute. discriminate.
  - destruct (Hrebalance (example_bank_in_month 12)) as [_ H];
      [exact Hinit | reflexivity |].
    apply (H example_portfolio
             (match Portfolio.rebalance example_portfolio with
              | Ok p => p | Err _ => example_portfolio end));
      vm_compute; reflexivity.
  - vm_compute. reflexivity.
  - vm_compute. reflexivity.
Defined.

(** C10: a new bank has no [current_month], and only [change] assigns it.
    A [rebalance] met before any [change] therefore raises
    [AttributeError] and prints nothing: the run ends there, unless a
    command before it has already raised. *)
Theorem rebalance_before_any_change_raises :
  forall (investors_ : list InvestorPortfolio) (name : string)
         (cs1 : list Command) (c : Command) (cs2 : list Command),
    Forall (fun c => cmd_name c <> "change") cs1 ->
    cmd_name c = "rebalance" ->
    current_month (Bank.init investors_) = None /\
    Bank.rebalance (Bank.init investors_) name = Err AttributeError /\
    Bank.run_commands (Bank.init investors_) name (cs1 ++ c :: cs2) =
    match Bank.run_commands (Bank.init investors_) name cs1 with
    | (out1, Ok _) => (out1, Err AttributeError)
    | (out1, Err e) => (out1, Err e)
    end.
Proof.
  intros investors_ name cs1 c cs2 Hcs1 Hc.
  split; [reflexivity|]. split; [reflexivity|].
  rewrite BankFacts.run_commands_app.
  destruct (Bank.run_commands (Bank.init investors_) name cs1) as [out1 [b1|e]] eqn:E;
    [|reflexivity].
  assert (Hm : current_month b1 = None).
  { exact (BankFacts.run_commands_month_unset (Bank.init investors_) name cs1
             out1 b1 Hcs1 eq_refl E). }
  simpl. unfold Bank.dispatch. rewrite Hc. simpl.
  rewrite (BankFacts.rebalance_unset_month _ _ Hm). simpl.
  now rewrite app_nil_r.
Qed.

Lemma rebalance_before_any_change_example :
  Bank.run_commands (Bank.init [example_portfolio]) "John Doe"
    ([mkCommand "allocate" [] 0] ++ mkCommand "rebalance" [] 0 :: [])
  = ([], Err AttributeError) /\
  main [["REBALANCE"]] = ([], Err AttributeError).
Proof.
  destruct (rebalance_before_any_change_raises [example_portfolio] "John Doe"
              [mkCommand "allocate" [] 0] (mkCommand "rebalance" [] 0) [])
    as (_ & _ & H).
  - repeat constructor. discriminate.
  - reflexivity.
  - split; [rewrite H|]; vm_compute; reflexivity.
Defined.

(** ** Construction of a portfolio *)

Lemma fold_add_shift (l : list Z) (a : Z) :
  fold_left Z.add l a = a + fold_left Z.add l 0.
Proof.
  revert a. induction l as [|x l IH]; intros a; simpl; [lia|].
  rewrite (IH (a + x)), (IH (0 + x)). lia.
Qed.

Lemma sum_Z_cons (x : Z) (l : list Z) : sum_Z (x :: l) = x + sum_Z l.
Proof. unfold sum_Z. simpl. now rewrite fold_add_shift. Qed.

Lemma sum_Z_nil : sum_Z [] = 0.
Proof. reflexivity. Qed.

Module PortfolioFacts.

Lemma init_Ok name assets_ :
  sum_Z (map AssetOps.weight (Dict.values assets_)) = 100 ->
  exists p, Portfolio.init name assets_ = Ok p /\ pf_name p = name /\ assets p = assets_.
Proof.
  intros H. unfold Portfolio.init. rewrite H. simpl. eauto.
Qed.

Lemma init_Err name assets_ :
  sum_Z (map AssetOps.weight (Dict.values assets_)) <> 100 ->
  Portfolio.init name assets_ = Err ValueError.
Proof.
  intros H. unfold Portfolio.init. apply Z.eqb_neq in H. now rewrite H.
Qed.

(** The assets that [main] builds from names and weights in range. *)
Lemma assets_of_weights (order : list string) (ws : list Z) :
  Forall (fun w => 0 <= w <= 100) ws ->
  mapM (fun nw => AssetOps.init (fst nw) (PyInt 0) (snd nw)) (combine order ws)
  = Ok (map (fun nw => mkAsset (fst nw) 0 (snd nw)) (combine order ws)).
Proof.
  intros Hws. revert order. induction Hws as [|w ws Hw Hws IH]; intros [|k order];
    simpl; auto.
  rewrite IH. unfold AssetOps.init, AssetOps.set_allocation, AssetOps.set_weight.
  simpl.
  destruct (Z.ltb_spec w 0) as [?|_]; [lia|].
  destruct (Z.gtb_spec w 100) as [?|_]; [lia|]. reflexivity.
Qed.

Lemma weights_of_built_assets (order : list string) (ws : list Z) :
  length ws = length order ->
  map AssetOps.weight
    (Dict.values
       (combine order (map (fun nw => mkAsset (fst nw) 0 (snd nw)) (combine order ws))))
  = ws.
Proof.
  revert ws. induction order as [|k order IH]; intros [|w ws] Hlen; simpl in *;
    try discriminate; auto.
  f_equal. apply IH. lia.
Qed.

End PortfolioFacts.

(** C5: for assets whose weights lie between 0 and 100, the constructor of
    a portfolio returns the portfolio when the weights sum to 100 and
    raises [ValueError] otherwise; in the program the exception comes
    before the bank exists, so nothing is printed and no command runs. *)
Theorem portfolio_weights_must_sum_to_100 :
  forall (name : string) (assets_ : Dict.t Asset),
    Forall (fun a => 0 <= AssetOps.weight a <= 100) (Dict.values assets_) ->
    (sum_Z (map AssetOps.weight (Dict.values assets_)) = 100 ->
     exists p, Portfolio.init name assets_ = Ok p /\
               pf_name p = name /\ assets p = assets_) /\
    (sum_Z (map AssetOps.weight (Dict.values assets_)) <> 100 ->
     Portfolio.init name assets_ = Err ValueError) /\
    (forall (order : list string) (ws : list Z) (lines : list (list string)),
        List.NoDup order -> length ws = length order ->
        Forall (fun w => 0 <= w <= 100) ws ->
        sum_Z ws <> 100 ->
        run name order ws lines = ([], Err ValueError)).
Proof.
  intros name assets_ Hrange. split; [|split].
  - apply PortfolioFacts.init_Ok.
  - apply PortfolioFacts.init_Err.
  - intros order ws lines Hnd Hlen Hws Hsum. unfold run.
    rewrite (PortfolioFacts.assets_of_weights order ws Hws). simpl.
    rewrite DictFacts.of_pairs_NoDup
      by (apply DictFacts.NoDup_keys_combine; exact Hnd).
    rewrite PortfolioFacts.init_Err; [reflexivity|].
    now rewrite PortfolioFacts.weights_of_built_assets.
Qed.

Lemma portfolio_weights_example :
  (exists p, Portfolio.init "John Doe" (assets example_portfolio) = Ok p /\
             pf_name p = "John Doe" /\ assets p = assets example_portfolio) /\
  run "John Doe" ["Equity"; "Debt"; "Gold"] [60; 30; 20] [["BALANCE"; "MARCH"]]
  = ([], Err ValueError).
Proof.
  assert (Hrange : Forall (fun a => 0 <= AssetOps.weight a <= 100)
                     (Dict.values (assets example_portfolio))).
  { repeat constructor; simpl; lia. }
  destruct (portfolio_weights_must_sum_to_100 "John Doe" (assets example_portfolio)
              Hrange) as (Hok & _ & Hrun).
  split.
  - apply Hok. reflexivity.
  - apply Hrun.
    + repeat constructor; simpl; intuition discriminate.
    + reflexivity.
    + repeat constructor; lia.
    + vm_compute. discriminate.
Defined.

(** ** Rounding of allocations *)

Module RoundingFacts.

Lemma truncate_inject_Z (z : Z) : truncate (inject_Z z) = z.
Proof.
  unfold truncate. destruct (Qle_bool 0 (inject_Z z)).
  - apply Qfloor_Z.
  - apply Qceiling_Z.
Qed.

Lemma truncate_opp_inject_Z (z : Z) : truncate (- inject_Z z) = - z.
Proof.
  change (- inject_Z z)%Q with (inject_Z (- z)). apply truncate_inject_Z.
Qed.

Lemma truncate_pos_fraction (m d : positive) :
  truncate (Zpos m # d) = Zpos m / Zpos d.
Proof. reflexivity. Qed.

Lemma truncate_neg_fraction (m d : positive) :
  truncate (- (Zpos m # d)) = - (Zpos m / Zpos d).
Proof.
  unfold truncate, Qle_bool, Qceiling, Qfloor, Qopp. simpl.
  now rewrite Z.opp_involutive.
Qed.

Lemma pow2_pos (e : Z) : 0 <= e -> 0 < 2 ^ e.
Proof. intros H. apply Z.pow_pos_nonneg; lia. Qed.

(** [int] of a float is its value truncated towards zero. *)
Lemma float_to_int_truncates (f : float) (n : Z) :
  float_to_int f = Ok n ->
  Float64.is_finite f = true /\ n = truncate (Float64.to_Q f).
Proof.
  destruct f as [s|s| |s m e]; simpl; try discriminate.
  - intros [= <-]. auto.
  - intros [= <-]. split; [reflexivity|].
    destruct (Z.leb_spec 0 e) as [He|He].
    + rewrite Z.shiftl_mul_pow2 by lia.
      destruct s; [now rewrite truncate_opp_inject_Z | now rewrite truncate_inject_Z].
    + rewrite Z.shiftr_div_pow2 by lia.
      pose proof (pow2_pos (- e) ltac:(lia)) as Hp.
      destruct (2 ^ (- e)) as [|d|d] eqn:Ed; try lia. simpl Z.to_pos.
      destruct s; [now rewrite truncate_neg_fraction | now rewrite truncate_pos_fraction].
Qed.

Lemma set_allocation_Ok a v a' :
  AssetOps.set_allocation a v = Ok a' ->
  py_int v = Ok (AssetOps.allocation a') /\
  asset_name a' = asset_name a /\ AssetOps.weight a' = AssetOps.weight a.
Proof.
  unfold AssetOps.set_allocation, bank_rounding_system. intros H.
  apply bind_Ok_inv in H. destruct H as (n & Hn & [= <-]). auto.
Qed.

End RoundingFacts.

(** C8: every store into an allocation goes through [int].  The setter
    keeps [int] of the amount it is given, which for a float is its value
    truncated towards zero; the constructor of an asset, the addition of
    an amount, the rate change and the rebalance each hand the amount
    they compute to the setter.  The stored allocation is an integer by
    its type. *)
Theorem allocations_are_stored_truncated :
  (forall (f : float) (n : Z),
      py_int (PyFloat f) = Ok n ->
      Float64.is_finite f = true /\ n = truncate (Float64.to_Q f)) /\
  (forall (a : Asset) (v : num) (a' : Asset),
      AssetOps.set_allocation a v = Ok a' ->
      py_int v = Ok (AssetOps.allocation a')) /\
  (forall (name : string) (v : num) (w : Z) (a : Asset),
      AssetOps.init name v w = Ok a ->
      py_int v = Ok (AssetOps.allocation a)) /\
  (forall (assets_ : Dict.t Asset) (name : string) (value : float)
          (assets' : Dict.t Asset),
      Portfolio.allocate_one assets_ name value = Ok assets' ->
      exists a x a',
        Dict.get name assets_ = Some a /\
        py_add (PyInt (AssetOps.allocation a)) (PyFloat value) = Ok x /\
        py_int x = Ok (AssetOps.allocation a') /\
        Dict.get name assets' = Some a') /\
  (forall (assets_ : Dict.t Asset) (name : string) (rate : float)
          (assets' : Dict.t Asset),
      Portfolio.change_one assets_ name rate = Ok assets' ->
      exists a f x a',
        Dict.get name assets_ = Some a /\
        py_add (PyInt 1) (PyFloat rate) = Ok f /\
        py_mul (PyInt (AssetOps.allocation a)) f = Ok x /\
        py_int x = Ok (AssetOps.allocation a') /\
        Dict.get name assets' = Some a') /\
  (forall (total : Z) (a a' : Asset),
      Portfolio.rebalance_one total a = Ok a' ->
      exists x,
        py_truediv (PyInt (total * AssetOps.weight a)) (PyInt 100) = Ok x /\
        py_int x = Ok (AssetOps.allocation a')).
Proof.
  split; [|split; [|split; [|split; [|split]]]].
  - intros f n H. now apply RoundingFacts.float_to_int_truncates.
  - intros a v a' H. now apply RoundingFacts.set_allocation_Ok in H.
  - intros name v w a H. unfold AssetOps.init in H.
    apply bind_Ok_inv in H. destruct H as (a0 & Ha0 & H).
    apply RoundingFacts.set_allocation_Ok in Ha0. destruct Ha0 as (Hv & _ & _).
    unfold AssetOps.set_weight in H.
    destruct ((w <? 0)%Z || (w >? 100)%Z)%bool; [discriminate|].
    injection H as <-. exact Hv.
  - intros assets_ name value assets' H. unfold Portfolio.allocate_one in H.
    destruct (Dict.get name assets_) as [a|] eqn:Ha; [|discriminate].
    apply bind_Ok_inv in H. destruct H as (x & Hx & H).
    apply bind_Ok_inv in H. destruct H as (a' & Ha' & [= <-]).
    apply RoundingFacts.set_allocation_Ok in Ha'. destruct Ha' as (Hv & _ & _).
    exists a, x, a'. repeat split; auto. apply DictFacts.get_set_eq.
  - intros assets_ name rate assets' H. unfold Portfolio.change_one in H.
    destruct (Dict.get name assets_) as [a|] eqn:Ha; [|discriminate].
    apply bind_Ok_inv in H. destruct H as (a' & Ha' & [= <-]).
    unfold AssetOps.monthly_rate_of_change in Ha'.
    apply bind_Ok_inv in Ha'. destruct Ha' as (f & Hf & Ha').
    apply bind_Ok_inv in Ha'. destruct Ha' as (x & Hx & Ha').
    apply RoundingFacts.set_allocation_Ok in Ha'. destruct Ha' as (Hv & _ & _).
    exists a, f, x, a'. repeat split; auto. apply DictFacts.get_set_eq.
  - intros total a a' H. unfold Portfolio.rebalance_one in H. simpl in H.
    apply bind_Ok_inv in H. destruct H as (x & Hx & H).
    apply RoundingFacts.set_allocation_Ok in H. destruct H as (Hv & _ & _).
    eauto.
Qed.

Lemma allocations_are_stored_truncated_example :
  py_int (PyFloat (S754_finite true 7256776743321601 (-40))) = Ok (-6600) /\
  truncate (Float64.to_Q (S754_finite true 7256776743321601 (-40))) = -6600 /\
  option_map AssetOps.allocation
    (match Portfolio.change_one (assets example_portfolio) "Equity"
             (S754_finite false 7205759403792794 (-56)) with
     | Ok d => Dict.get "Equity" d
     | Err _ => None
     end) = Some 6600.
Proof.
  destruct allocations_are_stored_truncated as (Hint & _ & _ & _ & Hchange & _).
  assert (H : py_int (PyFloat (S754_finite true 7256776743321601 (-40))) = Ok (-6600))
    by reflexivity.
  split; [exact H|]. split.
  - destruct (Hint _ _ H) as [_ Ht]. symmetry. exact Ht.
  - vm_compute. reflexivity.
Defined.

(** ** Rebalancing

    [total * weight / 100] is a float division; the lemmas below follow
    [SFdiv] through its shift and its rounding to show that, for
    numerators below [100 * 2^46], truncating the rounded quotient gives the
    truncated exact quotient. *)

Module DivisionFacts.

(** *** Binary digits *)

Lemma digits2_pos_size (p : positive) : digits2_pos p = Pos.size p.
Proof. induction p as [p IH|p IH|]; simpl; congruence. Qed.

Lemma Zdigits2_bounds (p : positive) :
  2 ^ (Zdigits2 (Zpos p) - 1) <= Zpos p < 2 ^ Zdigits2 (Zpos p).
Proof.
  simpl. rewrite digits2_pos_size.
  pose proof (Pos.size_gt p) as Hgt. pose proof (Pos.size_le p) as Hle.
  apply Pos2Z.pos_lt_pos in Hgt. apply Pos2Z.pos_le_pos in Hle.
  rewrite Pos2Z.inj_pow in Hgt, Hle.
  split; [|exact Hgt].
  replace (2 ^ Zpos (Pos.size p)) with (2 * 2 ^ (Zpos (Pos.size p) - 1)) in Hle.
  - lia.
  - rewrite <- Z.pow_succ_r by lia. f_equal. lia.
Qed.

Lemma Zdigits2_unique (n d : Z) :
  2 ^ (d - 1) <= n < 2 ^ d -> 1 <= d -> Zdigits2 n = d.
Proof.
  intros [Hlo Hhi] Hd.
  assert (0 < n) as Hn by (pose proof (Z.pow_pos_nonneg 2 (d - 1)); lia).
  destruct n as [|p|p]; try lia.
  pose proof (Zdigits2_bounds p) as [Hlo' Hhi'].
  set (d' := Zdigits2 (Zpos p)) in *.
  assert (1 <= d') by (unfold d'; simpl; lia).
  destruct (Z.lt_trichotomy d d') as [Hlt|[Heq|Hgt]]; auto.
  - assert (2 ^ d <= 2 ^ (d' - 1)) by (apply Z.pow_le_mono_r; lia). lia.
  - assert (2 ^ d' <= 2 ^ (d - 1)) by (apply Z.pow_le_mono_r; lia). lia.
Qed.

(** *** Shifting and rounding a mantissa *)

Lemma fexp_normal (x : Z) : -1021 <= x -> fexp 53 1024 x = x - 53.
Proof. intros H. unfold fexp, emin. lia. Qed.

Lemma shr_m_of_loc (m : Z) (l : location) : shr_m (shr_record_of_loc m l) = m.
Proof. destruct l as [|[| |]]; reflexivity. Qed.

Lemma shr_m_shr_1 (r : shr_record) : 0 <= shr_m r -> shr_m (shr_1 r) = shr_m r / 2.
Proof.
  destruct r as [m r s]. simpl. intros Hm.
  destruct m as [|[p|p|]|p]; try lia; simpl shr_m.
  - reflexivity.
  - rewrite Pos2Z.inj_xI. apply Z.div_unique with (r := 1); lia.
  - rewrite Pos2Z.inj_xO. apply Z.div_unique with (r := 0); lia.
  - reflexivity.
Qed.

Lemma round_nearest_even_enclosure (m : Z) (l : location) :
  m <= round_nearest_even m l <= m + 1.
Proof.
  destruct l as [|[| |]]; simpl; try lia.
  destruct (Z.even m); lia.
Qed.

Lemma shr_fexp_53 (m e : Z) (l : location) :
  2 ^ 52 <= m < 2 ^ 53 -> -1000 <= e ->
  shr_fexp 53 1024 m e l = (shr_record_of_loc m l, e).
Proof.
  intros Hm He. unfold shr_fexp.
  rewrite (Zdigits2_unique m 53) by (simpl; lia).
  rewrite fexp_normal by lia.
  replace (53 + e - 53 - e) with 0 by lia. reflexivity.
Qed.

Lemma shr_fexp_54 (m e : Z) (l : location) :
  2 ^ 53 <= m < 2 ^ 54 -> -1000 <= e ->
  shr_fexp 53 1024 m e l = (shr_1 (shr_record_of_loc m l), e + 1).
Proof.
  intros Hm He. unfold shr_fexp.
  rewrite (Zdigits2_unique m 54) by (simpl; lia).
  rewrite fexp_normal by lia.
  replace (54 + e - 53 - e) with 1 by lia. reflexivity.
Qed.

(** The second shift of [binary_round_aux]: a rounded mantissa of 53 bits
    stays, the mantissa [2^53] loses its last bit. *)
Lemma renormalize (s : bool) (q e : Z) :
  2 ^ 52 <= q <= 2 ^ 53 -> -1000 <= e <= 960 ->
  exists m e',
    (let '(mrs, e'') := shr_fexp 53 1024 q e loc_Exact in
     match shr_m mrs with
     | Z0 => S754_zero s
     | Zpos m => if (e'' <=? 1024 - 53)%Z then S754_finite s m e'' else S754_infinity s
     | Zneg _ => S754_nan
     end) = S754_finite s m e' /\
    ((e' = e /\ Zpos m = q) \/ (e' = e + 1 /\ 2 * Zpos m = q)).
Proof.
  intros Hq He.
  destruct (Z.eq_dec q (2 ^ 53)) as [->|Hne].
  - rewrite shr_fexp_54 by (simpl; lia). simpl shr_m.
    destruct (Z.leb_spec (e + 1) (1024 - 53)) as [_|?]; [|lia].
    eexists _, _. split; [reflexivity|]. right. split; reflexivity.
  - rewrite shr_fexp_53 by lia. simpl shr_m.
    destruct q as [|m|m]; try (simpl in Hq; lia).
    destruct (Z.leb_spec e (1024 - 53)) as [_|?]; [|lia].
    eexists _, _. split; [reflexivity|]. left. split; reflexivity.
Qed.

(** What [binary_round_aux] returns for a quotient of 53 or 54 bits: the
    mantissa cut to 53 bits and then rounded by at most one unit. *)
Lemma binary_round_aux_enclosure (s : bool) (mz ez : Z) (lz : location) :
  2 ^ 52 <= mz < 2 ^ 54 -> -1000 <= ez <= 900 ->
  exists m e t q,
    binary_round_aux 53 1024 s mz ez lz = S754_finite s m e /\
    (t = 0 \/ t = 1) /\ (mz < 2 ^ 53 -> t = 0) /\
    mz / 2 ^ t <= q <= mz / 2 ^ t + 1 /\
    ((e = ez + t /\ Zpos m = q) \/ (e = ez + t + 1 /\ 2 * Zpos m = q)).
Proof.
  intros Hmz Hez. unfold binary_round_aux.
  destruct (Z.lt_ge_cases mz (2 ^ 53)) as [Hlt|Hge].
  - rewrite shr_fexp_53 by lia.
    set (q := round_nearest_even _ _).
    assert (Hq : mz <= q <= mz + 1).
    { subst q. rewrite shr_m_of_loc. apply round_nearest_even_enclosure. }
    destruct (renormalize s q ez) as (m & e & Hr & Hme); [lia | lia |].
    exists m, e, 0, q. rewrite Z.add_0_r, Z.pow_0_r, Z.div_1_r.
    repeat split; auto; lia.
  - rewrite shr_fexp_54 by lia.
    set (q := round_nearest_even _ _).
    assert (Hhalf : shr_m (shr_1 (shr_record_of_loc mz lz)) = mz / 2).
    { rewrite shr_m_shr_1; rewrite shr_m_of_loc; [reflexivity | lia]. }
    assert (Hq : mz / 2 <= q <= mz / 2 + 1).
    { subst q. rewrite Hhalf. apply round_nearest_even_enclosure. }
    assert (Hrange : 2 ^ 52 <= mz / 2 < 2 ^ 53).
    { split.
      - apply Z.div_le_lower_bound; [lia|]. change (2 * 2 ^ 52) with (2 ^ 53). lia.
      - apply Z.div_lt_upper_bound; [lia|]. change (2 * 2 ^ 53) with (2 ^ 54). lia. }
    destruct (renormalize s q (ez + 1)) as (m & e & Hr & Hme); [lia | lia |].
    exists m, e, 1, q. rewrite Z.pow_1_r.
    repeat split; auto; lia.
Qed.

(** Cutting [a * 2^u / 100], rounded up by at most one, back to an
    integer gives [a / 100] as soon as [2^u] exceeds 100. *)
Lemma quotient_survives_rounding (a u q : Z) :
  0 < a -> 7 <= u ->
  a * 2 ^ u / 100 <= q <= a * 2 ^ u / 100 + 1 ->
  q / 2 ^ u = a / 100.
Proof.
  intros Ha Hu Hq.
  assert (HP : 128 <= 2 ^ u).
  { change 128 with (2 ^ 7). apply Z.pow_le_mono_r; lia. }
  set (P := 2 ^ u) in *.
  pose proof (Z.div_mod a 100 ltac:(lia)) as Hdm.
  pose proof (Z.mod_pos_bound a 100 ltac:(lia)) as Hr.
  set (Q := a / 100) in *. set (r := a mod 100) in *.
  assert (Hlo : Q * P <= a * P / 100).
  { apply Z.div_le_lower_bound; [lia | nia]. }
  assert (Hhi : a * P / 100 < (Q + 1) * P - 1).
  { apply Z.div_lt_upper_bound; [lia | nia]. }
  symmetry. apply Z.div_unique with (r := q - Q * P); [left; nia | lia].
Qed.

(** The quotient and remainder that [SFdiv] rounds, for a numerator of at
    most 53 bits and the denominator 100. *)
Lemma div_core_by_100 (a : positive) :
  let d := Zdigits2 (Zpos a) in
  d <= 53 ->
  SFdiv_core_binary 53 1024 (Zpos a) 0 100 0 =
  (Zpos a * 2 ^ (60 - d) / 100, d - 60,
   new_location 100 ((Zpos a * 2 ^ (60 - d)) mod 100)).
Proof.
  intros d Hd. unfold SFdiv_core_binary. fold d.
  assert (1 <= d) by (unfold d; simpl; lia).
  change (Zdigits2 100) with 7.
  rewrite fexp_normal by lia.
  replace (Z.min (d + 0 - (7 + 0) - 53) (0 - 0)) with (d - 60) by lia.
  replace (0 - 0 - (d - 60)) with (60 - d) by lia.
  destruct (60 - d) as [|k|k] eqn:Ek; try lia.
  rewrite Z.shiftl_mul_pow2 by lia.
  unfold Z.div, Z.modulo.
  now destruct (Z.div_eucl (Zpos a * 2 ^ Zpos k) 100).
Qed.

(** Below [100 * 2^46] the rounded quotient by 100 has the integer part of
    the exact one. *)
Lemma of_ratio_100 (s : bool) (a : positive) :
  Zpos a < 100 * 2 ^ 46 ->
  exists m e,
    Float64.of_ratio s a 100 = S754_finite s m e /\
    e < 0 /\ Zpos m / 2 ^ (- e) = Zpos a / 100.
Proof.
  intros Ha.
  pose proof (Zdigits2_bounds a) as [Hlo Hhi].
  set (d := Zdigits2 (Zpos a)) in *.
  assert (Hd1 : 1 <= d) by (unfold d; simpl; lia).
  assert (Hd : d <= 53).
  { destruct (Z.le_gt_cases d 53) as [|Hgt]; auto.
    assert (2 ^ 53 <= 2 ^ (d - 1)) by (apply Z.pow_le_mono_r; lia). lia. }
  unfold Float64.of_ratio, Float64.prec, Float64.emax.
  rewrite div_core_by_100 by exact Hd. fold d.
  set (k := 60 - d).
  assert (Hk : 7 <= k <= 59) by lia.
  assert (Hpow : 2 ^ 59 <= Zpos a * 2 ^ k < 2 ^ 60).
  { replace (2 ^ 59) with (2 ^ (d - 1) * 2 ^ k)
      by (rewrite <- Z.pow_add_r by lia; f_equal; lia).
    replace (2 ^ 60) with (2 ^ d * 2 ^ k)
      by (rewrite <- Z.pow_add_r by lia; f_equal; lia).
    assert (0 < 2 ^ k) by (apply Z.pow_pos_nonneg; lia). nia. }
  set (mz := Zpos a * 2 ^ k / 100).
  assert (Hmz : 2 ^ 52 <= mz < 2 ^ 54).
  { unfold mz. split.
    - apply Z.div_le_lower_bound; lia.
    - apply Z.div_lt_upper_bound; lia. }
  destruct (binary_round_aux_enclosure s mz (d - 60)
              (new_location 100 ((Zpos a * 2 ^ k) mod 100)))
    as (m & e & t & q & Hr & Ht & Ht0 & Hq & Hme); [exact Hmz | lia |].
  exists m, e. split; [exact Hr|].
  set (u := k - t).
  assert (Hu : 7 <= u).
  { destruct Ht as [->| ->]; [lia|].
    assert (k <> 7); [|lia]. intros Hk7.
    assert (mz < 2 ^ 53); [|lia].
    unfold mz. rewrite Hk7. apply Z.div_lt_upper_bound; lia. }
  assert (Hcut : mz / 2 ^ t = Zpos a * 2 ^ u / 100).
  { unfold mz. rewrite Z.div_div by (try apply Z.pow_pos_nonneg; lia).
    rewrite (Z.mul_comm 100), <- Z.div_div by (try apply Z.pow_pos_nonneg; lia).
    f_equal. replace k with (u + t) by lia.
    rewrite Z.pow_add_r, Z.mul_assoc by lia.
    apply Z.div_mul. apply Z.pow_nonzero; lia. }
  rewrite Hcut in Hq.
  pose proof (quotient_survives_rounding (Zpos a) u q ltac:(lia) Hu Hq) as Hfin.
  destruct Hme as [[-> Hm]|[-> Hm]].
  - split; [lia|]. rewrite Hm. replace (- (d - 60 + t)) with u by lia. exact Hfin.
  - split; [lia|]. rewrite <- Hfin, <- Hm.
    replace (2 ^ u) with (2 * 2 ^ (- (d - 60 + t + 1))).
    + rewrite Z.div_mul_cancel_l; try lia; apply Z.pow_nonzero; lia.
    + rewrite <- Z.pow_succ_r by lia. f_equal. lia.
Qed.

(** [int(a / 100)] on integers of magnitude below [100 * 2^46] is the
    quotient truncated towards zero. *)
Lemma int_truediv_100 (a : Z) :
  Z.abs a < 100 * 2 ^ 46 ->
  exists f, int_truediv a 100 = Ok f /\ float_to_int f = Ok (Z.quot a 100).
Proof.
  intros Ha. unfold int_truediv.
  destruct a as [|p|p].
  - eexists. split; reflexivity.
  - destruct (of_ratio_100 false p Ha) as (m & e & Hf & He & Hv).
    change (Float64.of_ratio _ _ _) with (Float64.of_ratio false p 100). rewrite Hf.
    cbn [Float64.is_finite]. eexists. split; [reflexivity|]. cbn [float_to_int].
    destruct (Z.leb_spec 0 e) as [?|_]; [lia|].
    rewrite Z.shiftr_div_pow2 by lia. rewrite Hv.
    now rewrite Z.quot_div_nonneg by lia.
  - destruct (of_ratio_100 true p Ha) as (m & e & Hf & He & Hv).
    change (Float64.of_ratio _ _ _) with (Float64.of_ratio true p 100). rewrite Hf.
    cbn [Float64.is_finite]. eexists. split; [reflexivity|]. cbn [float_to_int].
    destruct (Z.leb_spec 0 e) as [?|_]; [lia|].
    rewrite Z.shiftr_div_pow2 by lia. rewrite Hv.
    change (Zneg p) with (- Zpos p). rewrite Z.quot_opp_l by lia.
    now rewrite Z.quot_div_nonneg by lia.
Qed.

End DivisionFacts.

Module RebalanceFacts.

Lemma truncate_hundredths (z : Z) : truncate (z # 100) = Z.quot z 100.
Proof.
  unfold truncate, Qle_bool, Qceiling, Qfloor. simpl.
  rewrite Z.mul_1_r. change (0 * 100) with 0.
  destruct (Z.leb_spec 0 z) as [Hz|Hz].
  - now rewrite Z.quot_div_nonneg by lia.
  - rewrite <- (Z.opp_involutive z) at 2.
    rewrite Z.quot_opp_l by lia. now rewrite Z.quot_div_nonneg by lia.
Qed.

Section BelowTwoPow46.

Variable total : Z.
Hypothesis total_small : Z.abs total < 2 ^ 46.

(** One asset of a rebalance. *)
Lemma rebalance_one_exact (a : Asset) :
  0 <= AssetOps.weight a <= 100 ->
  Portfolio.rebalance_one total a =
  Ok (mkAsset (asset_name a) (Z.quot (total * AssetOps.weight a) 100)
        (AssetOps.weight a)).
Proof.
  intros Hw. unfold Portfolio.rebalance_one.
  destruct (DivisionFacts.int_truediv_100 (total * AssetOps.weight a))
    as (f & Hf & Hint); [nia|].
  cbn [py_mul py_truediv bind]. rewrite Hf. cbn [bind].
  unfold AssetOps.set_allocation, bank_rounding_system. cbn [py_int].
  now rewrite Hint.
Qed.

Lemma rebalance_all_exact (d : Dict.t Asset) :
  Forall (fun a => 0 <= AssetOps.weight a <= 100) (Dict.values d) ->
  mapM (fun kv => do a' <- Portfolio.rebalance_one total (snd kv); Ok (fst kv, a')) d
  = Ok (map (fun kv =>
               (fst kv,
                mkAsset (asset_name (snd kv))
                  (Z.quot (total * AssetOps.weight (snd kv)) 100)
                  (AssetOps.weight (snd kv)))) d).
Proof.
  induction d as [|[k a] d IH]; simpl; intros Hw; [reflexivity|].
  inversion Hw as [|? ? Ha Hd]; subst.
  rewrite rebalance_one_exact by assumption. simpl.
  now rewrite IH.
Qed.

End BelowTwoPow46.

(** Truncating each share loses less than one unit per asset. *)
Lemma shares_sum (total : Z) (ws : list Z) :
  Z.abs (100 * sum_Z (map (fun w => Z.quot (total * w) 100) ws) - total * sum_Z ws)
  <= 99 * Z.of_nat (length ws).
Proof.
  induction ws as [|w ws IH].
  - simpl. rewrite sum_Z_nil. lia.
  - simpl map. rewrite !sum_Z_cons. simpl length.
    pose proof (Z.quot_rem' (total * w) 100) as Hqr.
    pose proof (Z.rem_bound_abs (total * w) 100 ltac:(lia)) as Hrem.
    lia.
Qed.

End RebalanceFacts.

(** C4, within the range where the float quotient is exact enough: for a
    portfolio whose weights lie between 0 and 100 and sum to 100, and
    whose total allocation is below [2^46] in magnitude, [rebalance]
    succeeds and gives each asset the share [total * weight / 100] truncated
    towards zero, the total being the sum of the allocations before any
    of them changes; the new allocations sum to the old total within the
    number of assets. *)
Theorem rebalance_truncates_shares_below_2_46 :
  forall (p : InvestorPortfolio),
    let total := sum_Z (Portfolio.balance p) in
    Forall (fun a => 0 <= AssetOps.weight a <= 100) (Dict.values (assets p)) ->
    sum_Z (map AssetOps.weight (Dict.values (assets p))) = 100 ->
    Z.abs total < 2 ^ 46 ->
    exists p',
      Portfolio.rebalance p = Ok p' /\
      assets p' =
        map (fun kv =>
               (fst kv,
                mkAsset (asset_name (snd kv))
                  (truncate (total * AssetOps.weight (snd kv) # 100))
                  (AssetOps.weight (snd kv)))) (assets p) /\
      Z.abs (sum_Z (Portfolio.balance p') - total) <= Z.of_nat (length (assets p)).
Proof.
  intros p total Hw Hsum Ht.
  unfold Portfolio.rebalance. fold (Portfolio.balance p). fold total.
  rewrite (RebalanceFacts.rebalance_all_exact total Ht) by assumption.
  eexists. split; [reflexivity|]. simpl assets. split.
  - apply map_ext. intros [k a]. simpl.
    now rewrite RebalanceFacts.truncate_hundredths.
  - unfold Portfolio.balance at 1. simpl assets. unfold Dict.values.
    rewrite !map_map. simpl.
    pose proof (RebalanceFacts.shares_sum total
                  (map AssetOps.weight (Dict.values (assets p)))) as Hs.
    rewrite Hsum in Hs. unfold Dict.values in Hs.
    rewrite !map_map, !length_map in Hs. simpl in Hs.
    unfold AssetOps.weight in *. lia.
Qed.

Lemma rebalance_truncates_shares_example :
  Z.abs (sum_Z (Portfolio.balance example_portfolio)) < 2 ^ 46 /\
  option_map Portfolio.balance
    (match Portfolio.rebalance example_portfolio with
     | Ok p => Some p
     | Err _ => None
     end) = Some [5400; 3600].
Proof.
  split; [reflexivity|].
  destruct (rebalance_truncates_shares_below_2_46 example_portfolio)
    as (p' & Hp' & Hassets & _).
  - repeat constructor; simpl; lia.
  - reflexivity.
  - reflexivity.
  - rewrite Hp'. simpl. unfold Portfolio.balance. rewrite Hassets.
    vm_compute. reflexivity.
Defined.

(** C4 as stated fails on large totals: with Equity at [2^57] and weights
    60, 30 and 10 the quotients are rounded floats, the share of Equity
    is not the exact share truncated, and the three shares sum to 4 less
    than the total, more than the number of assets. *)
Lemma rebalance_drifts_on_large_total :
  sum_Z (map AssetOps.weight (Dict.values (assets example_large_portfolio))) = 100 /\
  exists p',
    Portfolio.rebalance example_large_portfolio = Ok p' /\
    Portfolio.balance p'
    = [86469112845513520; 43234556422756760; 14411518807585588] /\
    truncate (2 ^ 57 * 60 # 100) = 86469112845513523 /\
    ~ (Z.abs (sum_Z (Portfolio.balance p')
              - sum_Z (Portfolio.balance example_large_portfolio))
       <= Z.of_nat (length (assets example_large_portfolio))) /\
    fst (main [["ALLOCATE"; "144115188075855872"; "0"; "0"];
               ["CHANGE"; "0%"; "0%"; "0%"; "JUNE"]; ["REBALANCE"]])
    = ["86469112845513520 43234556422756760 14411518807585588"].
Proof.
  split; [reflexivity|].
  exists (match Portfolio.rebalance example_large_portfolio with
          | Ok p => p
          | Err _ => example_large_portfolio
          end).
  split; [vm_compute; reflexivity|].
  split; [vm_compute; reflexivity|].
  split; [vm_compute; reflexivity|].
  split; [|vm_compute; reflexivity].
  vm_compute. intros H. apply H. reflexivity.
Qed.

(** ** Exact float arithmetic on integers

    Integers of at most 53 bits are floats, and sums and products of
    them that stay within 53 bits are computed without rounding. *)

Module ExactFacts.

Import DivisionFacts.

Lemma shr_1_double (m : Z) :
  0 <= m ->
  shr_1 (Build_shr_record (2 * m) false false) = Build_shr_record m false false.
Proof.
  intros Hm. destruct m as [|p|p]; try lia; reflexivity.
Qed.

(** Shifting out zero bits loses nothing. *)
Lemma shr_exact (p : positive) :
  forall M, 0 <= M ->
    SpecFloat.iter_pos shr_1 p (Build_shr_record (M * 2 ^ Zpos p) false false)
    = Build_shr_record M false false.
Proof.
  induction p as [p IH|p IH|]; intros M HM; cbn [SpecFloat.iter_pos].
  - pose proof (RoundingFacts.pow2_pos (Zpos p) ltac:(lia)) as Hp.
    replace (M * 2 ^ Zpos p~1) with (2 * ((M * 2 ^ Zpos p) * 2 ^ Zpos p)).
    + rewrite shr_1_double by nia. rewrite IH by nia. now apply IH.
    + replace (Zpos p~1) with (Zpos p + Zpos p + 1) by lia.
      rewrite !Z.pow_add_r by lia. change (2 ^ 1) with 2. ring.
  - pose proof (RoundingFacts.pow2_pos (Zpos p) ltac:(lia)) as Hp.
    replace (M * 2 ^ Zpos p~0) with ((M * 2 ^ Zpos p) * 2 ^ Zpos p).
    + rewrite IH by nia. now apply IH.
    + replace (Zpos p~0) with (Zpos p + Zpos p) by lia.
      rewrite Z.pow_add_r by lia. ring.
  - change (2 ^ 1) with 2. rewrite Z.mul_comm. now apply shr_1_double.
Qed.

Lemma Zdigits2_shift (N k : Z) :
  0 < N -> 0 <= k -> Zdigits2 (N * 2 ^ k) = Zdigits2 N + k.
Proof.
  intros HN Hk. destruct N as [|p|p]; try lia.
  pose proof (Zdigits2_bounds p) as [Hlo Hhi].
  set (d := Zdigits2 (Zpos p)) in *.
  assert (1 <= d) by (unfold d; simpl; lia).
  pose proof (RoundingFacts.pow2_pos k Hk) as Hp.
  apply Zdigits2_unique; [|lia].
  replace (d + k - 1) with (d - 1 + k) by lia.
  rewrite !Z.pow_add_r by lia. nia.
Qed.

(** A mantissa of 53 bits followed by zero bits rounds to itself. *)
Lemma round_aux_exact (s : bool) (M e n : Z) :
  2 ^ 52 <= M < 2 ^ 53 -> 0 <= n -> -1000 <= e <= 971 ->
  binary_round_aux 53 1024 s (M * 2 ^ n) (e - n) loc_Exact
  = S754_finite s (Z.to_pos M) e.
Proof.
  intros HM Hn He. unfold binary_round_aux.
  assert (Hfirst : shr_fexp 53 1024 (M * 2 ^ n) (e - n) loc_Exact
                   = (Build_shr_record M false false, e)).
  { unfold shr_fexp. rewrite Zdigits2_shift by lia.
    rewrite (Zdigits2_unique M 53) by (simpl; lia).
    rewrite fexp_normal by lia.
    replace (53 + n + (e - n) - 53 - (e - n)) with n by lia.
    destruct n as [|p|p]; try lia.
    - simpl shr. rewrite Z.pow_0_r, Z.mul_1_r, Z.sub_0_r. reflexivity.
    - unfold shr. simpl shr_record_of_loc. rewrite shr_exact by lia.
      f_equal. lia. }
  rewrite Hfirst. simpl shr_m. simpl loc_of_shr_record. simpl round_nearest_even.
  rewrite shr_fexp_53 by lia. simpl shr_m.
  destruct M as [|m|m]; try (simpl in HM; lia).
  destruct (Z.leb_spec e (1024 - 53)) as [_|?]; [reflexivity | lia].
Qed.

Lemma iter_xO (m p : positive) : Zpos (Pos.iter xO m p) = Zpos m * 2 ^ Zpos p.
Proof.
  revert m. induction p as [|p IH] using Pos.peano_ind; intros m.
  - simpl Pos.iter. change (2 ^ 1) with 2. lia.
  - rewrite Pos.iter_succ, Pos2Z.inj_succ, Z.pow_succ_r by lia.
    replace (Zpos (Pos.iter xO m p)~0) with (2 * Zpos (Pos.iter xO m p)) by lia.
    rewrite IH. ring.
Qed.

(** The float of a non-zero integer of at most 53 bits, given with [k]
    extra zero bits at exponent [- k]: the mantissa is the integer scaled
    to 53 bits. *)
Lemma binary_round_int (s : bool) (N k : Z) :
  0 < N < 2 ^ 53 -> 0 <= k <= 900 ->
  binary_round 53 1024 s (Z.to_pos (N * 2 ^ k)) (- k)
  = S754_finite s (Z.to_pos (N * 2 ^ (53 - Zdigits2 N))) (Zdigits2 N - 53).
Proof.
  intros HN Hk.
  pose proof (RoundingFacts.pow2_pos k ltac:(lia)) as Hp.
  destruct N as [|p|p]; try lia.
  pose proof (Zdigits2_bounds p) as [Hlo Hhi].
  set (N := Zpos p) in *. set (d := Zdigits2 N) in *.
  assert (Hd1 : 1 <= d) by (unfold d; simpl; lia).
  assert (Hd : d <= 53).
  { destruct (Z.le_gt_cases d 53) as [|Hgt]; auto.
    assert (2 ^ 53 <= 2 ^ (d - 1)) by (apply Z.pow_le_mono_r; lia). lia. }
  set (M := N * 2 ^ (53 - d)).
  assert (HM : 2 ^ 52 <= M < 2 ^ 53).
  { unfold M.
    pose proof (RoundingFacts.pow2_pos (53 - d) ltac:(lia)) as Hq.
    replace (2 ^ 52) with (2 ^ (d - 1) * 2 ^ (53 - d))
      by (rewrite <- Z.pow_add_r by lia; f_equal; lia).
    replace (2 ^ 53) with (2 ^ d * 2 ^ (53 - d))
      by (rewrite <- Z.pow_add_r by lia; f_equal; lia).
    nia. }
  unfold binary_round.
  destruct (N * 2 ^ k) as [|mx|mx] eqn:Emx; try nia. simpl Z.to_pos.
  change (Zpos (digits2_pos mx)) with (Zdigits2 (Zpos mx)).
  rewrite <- Emx, Zdigits2_shift by lia. fold d.
  rewrite fexp_normal by lia.
  unfold shl_align.
  replace (d + k + - k - 53 - - k) with (d + k - 53) by lia.
  destruct (d + k - 53) as [|q|q] eqn:Eq.
  - replace (- k) with (d - 53 - 0) by lia.
    rewrite <- Emx. replace (N * 2 ^ k) with (M * 2 ^ 0).
    + apply round_aux_exact; lia.
    + unfold M. replace (53 - d) with k by lia. ring.
  - replace (- k) with (d - 53 - Zpos q) by lia.
    rewrite <- Emx. replace (N * 2 ^ k) with (M * 2 ^ Zpos q).
    + apply round_aux_exact; lia.
    + unfold M. rewrite <- Z.mul_assoc, <- Z.pow_add_r by lia. do 2 f_equal. lia.
  - rewrite iter_xO, <- Emx.
    replace (N * 2 ^ k * 2 ^ Zpos q) with (M * 2 ^ 0).
    + replace (d + k + - k - 53) with (d - 53 - 0) by lia.
      apply round_aux_exact; lia.
    + unfold M. rewrite Z.pow_0_r, Z.mul_1_r.
      rewrite <- Z.mul_assoc, <- Z.pow_add_r by lia. do 2 f_equal. lia.
Qed.

Lemma digits_le_53 (N : Z) : 0 < N < 2 ^ 53 -> 1 <= Zdigits2 N <= 53.
Proof.
  intros HN. destruct N as [|p|p]; try lia.
  pose proof (Zdigits2_bounds p) as [Hlo Hhi].
  set (d := Zdigits2 (Zpos p)) in *.
  assert (1 <= d) by (unfold d; simpl; lia).
  split; [lia|].
  destruct (Z.le_gt_cases d 53) as [|Hgt]; auto.
  assert (2 ^ 53 <= 2 ^ (d - 1)) by (apply Z.pow_le_mono_r; lia). lia.
Qed.

Lemma normal_mantissa (N : Z) :
  0 < N < 2 ^ 53 -> 2 ^ 52 <= N * 2 ^ (53 - Zdigits2 N) < 2 ^ 53.
Proof.
  intros HN. pose proof (digits_le_53 N HN) as Hd.
  destruct N as [|p|p]; try lia.
  pose proof (Zdigits2_bounds p) as [Hlo Hhi].
  set (d := Zdigits2 (Zpos p)) in *.
  pose proof (RoundingFacts.pow2_pos (53 - d) ltac:(lia)) as Hq.
  replace (2 ^ 52) with (2 ^ (d - 1) * 2 ^ (53 - d))
    by (rewrite <- Z.pow_add_r by lia; f_equal; lia).
  replace (2 ^ 53) with (2 ^ d * 2 ^ (53 - d))
    by (rewrite <- Z.pow_add_r by lia; f_equal; lia).
  nia.
Qed.

(** [float(n)] for a non-zero integer of at most 53 bits. *)
Lemma of_Z_normal (N : Z) :
  N <> 0 -> Z.abs N < 2 ^ 53 ->
  Float64.of_Z N
  = S754_finite (N <? 0)%Z
      (Z.to_pos (Z.abs N * 2 ^ (53 - Zdigits2 N))) (Zdigits2 N - 53).
Proof.
  intros HN Hb. unfold Float64.of_Z, Float64.prec, Float64.emax, binary_normalize.
  destruct N as [|p|p]; try lia.
  - pose proof (binary_round_int false (Zpos p) 0 ltac:(lia) ltac:(lia)) as H.
    rewrite Z.pow_0_r, Z.mul_1_r in H. exact H.
  - pose proof (binary_round_int true (Zpos p) 0 ltac:(lia) ltac:(lia)) as H.
    rewrite Z.pow_0_r, Z.mul_1_r in H. exact H.
Qed.

Lemma of_Z_finite (N : Z) :
  Z.abs N < 2 ^ 53 -> Float64.is_finite (Float64.of_Z N) = true.
Proof.
  intros Hb. destruct (Z.eq_dec N 0) as [->|HN]; [reflexivity|].
  now rewrite of_Z_normal.
Qed.

(** [int(float(n)) = n] up to 53 bits. *)
Lemma float_to_int_of_Z (N : Z) :
  Z.abs N < 2 ^ 53 -> float_to_int (Float64.of_Z N) = Ok N.
Proof.
  intros Hb. destruct (Z.eq_dec N 0) as [->|HN]; [reflexivity|].
  rewrite of_Z_normal by assumption. cbn [float_to_int].
  assert (Hd : 1 <= Zdigits2 N <= 53).
  { destruct N as [|p|p]; try lia; apply (digits_le_53 (Zpos p)); lia. }
  set (d := Zdigits2 N) in *.
  pose proof (RoundingFacts.pow2_pos (53 - d) ltac:(lia)) as Hq.
  rewrite Z2Pos.id by nia.
  assert (Hv : (if (0 <=? d - 53)%Z
                then Z.shiftl (Z.abs N * 2 ^ (53 - d)) (d - 53)
                else Z.shiftr (Z.abs N * 2 ^ (53 - d)) (- (d - 53))) = Z.abs N).
  { destruct (Z.leb_spec 0 (d - 53)).
    - replace (d - 53) with 0 by lia. replace (53 - d) with 0 by lia.
      rewrite Z.shiftl_0_r, Z.pow_0_r. lia.
    - rewrite Z.shiftr_div_pow2 by lia. replace (- (d - 53)) with (53 - d) by lia.
      apply Z.div_mul. lia. }
  rewrite Hv. f_equal. destruct (Z.ltb_spec N 0); lia.
Qed.

Lemma shl_align_fst (m : positive) (e e' : Z) :
  e' <= e -> Zpos (fst (shl_align m e e')) = Zpos m * 2 ^ (e - e').
Proof.
  intros He. unfold shl_align.
  destruct (e' - e) as [|q|q] eqn:Eq; try lia; simpl fst.
  - replace (e - e') with 0 by lia. rewrite Z.pow_0_r. lia.
  - rewrite iter_xO. do 2 f_equal. lia.
Qed.

(** Adding two integers of at most 53 bits as floats is exact when the
    sum has at most 53 bits. *)
Lemma add_of_Z (a v : Z) :
  Z.abs a < 2 ^ 53 -> Z.abs v < 2 ^ 53 -> Z.abs (a + v) < 2 ^ 53 ->
  Float64.add (Float64.of_Z a) (Float64.of_Z v) = Float64.of_Z (a + v).
Proof.
  intros Ha Hv Hs.
  destruct (Z.eq_dec a 0) as [->|Ha0].
  { destruct (Z.eq_dec v 0) as [->|Hv0]; [reflexivity|].
    rewrite Z.add_0_l, (of_Z_normal v) by assumption. reflexivity. }
  destruct (Z.eq_dec v 0) as [->|Hv0].
  { rewrite Z.add_0_r, (of_Z_normal a) by assumption. reflexivity. }
  rewrite (of_Z_normal a), (of_Z_normal v) by assumption.
  assert (Hda : 1 <= Zdigits2 a <= 53).
  { destruct a as [|p|p]; try lia; apply (digits_le_53 (Zpos p)); lia. }
  assert (Hdv : 1 <= Zdigits2 v <= 53).
  { destruct v as [|p|p]; try lia; apply (digits_le_53 (Zpos p)); lia. }
  set (da := Zdigits2 a) in *. set (dv := Zdigits2 v) in *.
  pose proof (RoundingFacts.pow2_pos (53 - da) ltac:(lia)) as Hqa.
  pose proof (RoundingFacts.pow2_pos (53 - dv) ltac:(lia)) as Hqv.
  unfold Float64.add, Float64.prec, Float64.emax, SFadd.
  set (ez := Z.min (da - 53) (dv - 53)).
  rewrite !shl_align_fst by lia.
  rewrite !Z2Pos.id by nia.
  set (k := - ez).
  assert (Hk : 0 <= k <= 52) by lia.
  pose proof (RoundingFacts.pow2_pos k ltac:(lia)) as Hpk.
  assert (Hsa : cond_Zopp (a <? 0)%Z (Z.abs a * 2 ^ (53 - da) * 2 ^ (da - 53 - ez))
                = a * 2 ^ k).
  { rewrite <- Z.mul_assoc, <- Z.pow_add_r by lia.
    replace (53 - da + (da - 53 - ez)) with k by lia.
    unfold cond_Zopp. destruct (Z.ltb_spec a 0); nia. }
  assert (Hsv : cond_Zopp (v <? 0)%Z (Z.abs v * 2 ^ (53 - dv) * 2 ^ (dv - 53 - ez))
                = v * 2 ^ k).
  { rewrite <- Z.mul_assoc, <- Z.pow_add_r by lia.
    replace (53 - dv + (dv - 53 - ez)) with k by lia.
    unfold cond_Zopp. destruct (Z.ltb_spec v 0); nia. }
  rewrite Hsa, Hsv, <- Z.mul_add_distr_r.
  replace ez with (- k) by lia.
  destruct (Z.eq_dec (a + v) 0) as [H0|H0].
  { rewrite H0. reflexivity. }
  rewrite (of_Z_normal (a + v)) by assumption.
  unfold binary_normalize.
  destruct ((a + v) * 2 ^ k) as [|mx|mx] eqn:Emx; try nia.
  - assert (0 < a + v) by nia.
    pose proof (binary_round_int false (a + v) k ltac:(lia) ltac:(lia)) as H1.
    rewrite Emx in H1. simpl Z.to_pos in H1. rewrite H1.
    destruct (Z.ltb_spec (a + v) 0); [lia|].
    rewrite Z.abs_eq by lia. reflexivity.
  - assert (a + v < 0) by nia.
    pose proof (binary_round_int true (- (a + v)) k ltac:(lia) ltac:(lia)) as H1.
    replace (- (a + v) * 2 ^ k) with (Zpos mx) in H1 by lia.
    simpl Z.to_pos in H1. rewrite H1.
    destruct (Z.ltb_spec (a + v) 0); [|lia].
    rewrite Z.abs_neq by lia.
    replace (Zdigits2 (- (a + v))) with (Zdigits2 (a + v))
      by (destruct (a + v); reflexivity).
    reflexivity.
Qed.

(** Multiplying an integer of at most 53 bits by the float 1.0 is exact. *)
Lemma mul_of_Z_one (a : Z) :
  Z.abs a < 2 ^ 53 ->
  Float64.mul (Float64.of_Z a) (Float64.of_Z 1) = Float64.of_Z a.
Proof.
  intros Ha.
  destruct (Z.eq_dec a 0) as [->|Ha0]; [reflexivity|].
  rewrite (of_Z_normal a) by assumption.
  change (Float64.of_Z 1) with (S754_finite false 4503599627370496 (-52)).
  assert (Hd : 1 <= Zdigits2 a <= 53).
  { destruct a as [|p|p]; try lia; apply (digits_le_53 (Zpos p)); lia. }
  assert (HM : 2 ^ 52 <= Z.abs a * 2 ^ (53 - Zdigits2 a) < 2 ^ 53).
  { replace (Zdigits2 a) with (Zdigits2 (Z.abs a)) by (destruct a; reflexivity).
    apply normal_mantissa. lia. }
  set (M := Z.abs a * 2 ^ (53 - Zdigits2 a)) in *.
  unfold Float64.mul, Float64.prec, Float64.emax, SFmul.
  rewrite xorb_false_r, Pos2Z.inj_mul, Z2Pos.id by lia.
  change (Zpos 4503599627370496) with (2 ^ 52).
  replace (Zdigits2 a - 53 + -52) with (Zdigits2 a - 53 - 52) by lia.
  apply round_aux_exact; lia.
Qed.

End ExactFacts.

(** ** Reading the command file *)

Module TokenFacts.

Lemma split_tokens (s : string) : Forall (fun t => is_token t = true) (py_split s).
Proof.
  induction s as [|c s IH]; simpl; [constructor|].
  destruct (py_isspace c) eqn:Ec; [exact IH|].
  assert (Hone : is_token (String c "") = true).
  { unfold is_token. simpl. now rewrite Ec. }
  destruct s as [|c' s']; [repeat constructor; exact Hone|].
  destruct (py_isspace c') eqn:Ec'; [constructor; [exact Hone | exact IH]|].
  destruct (py_split (String c' s')) as [|t ts]; [repeat constructor; exact Hone|].
  inversion IH as [|? ? Ht Hts]; subst. constructor; [|exact Hts].
  unfold is_token in *. simpl. rewrite Ec. simpl.
  now apply andb_true_iff in Ht.
Qed.

Lemma split_lstrip (s : string) : py_split (py_lstrip s) = py_split s.
Proof.
  induction s as [|c s IH]; [reflexivity|].
  simpl py_lstrip. destruct (py_isspace c) eqn:Ec; [|reflexivity].
  rewrite IH. simpl. now rewrite Ec.
Qed.

Lemma rstrip_empty_split (s : string) : py_rstrip s = "" -> py_split s = [].
Proof.
  induction s as [|c s IH]; [reflexivity|]. simpl.
  destruct (py_rstrip s) eqn:Er; [|discriminate].
  destruct (py_isspace c); [auto | discriminate].
Qed.

Lemma rstrip_head (s : string) c r :
  py_rstrip s = String c r -> exists s', s = String c s'.
Proof.
  destruct s as [|c0 s]; [discriminate|]. simpl.
  destruct (py_rstrip s); [destruct (py_isspace c0)|]; intros [= <- _]; eauto.
Qed.

Lemma split_cons (c c' : ascii) (s : string) :
  py_split (String c (String c' s)) =
  if py_isspace c then py_split (String c' s)
  else if py_isspace c' then String c "" :: py_split (String c' s)
       else match py_split (String c' s) with
            | t :: ts => String c t :: ts
            | [] => [String c ""]
            end.
Proof. reflexivity. Qed.

Lemma split_rstrip (s : string) : py_split (py_rstrip s) = py_split s.
Proof.
  induction s as [|c s IH]; [reflexivity|].
  simpl py_rstrip. destruct (py_rstrip s) as [|c1 r1] eqn:Er.
  - pose proof (rstrip_empty_split s Er) as Hs.
    destruct (py_isspace c) eqn:Ec; simpl; rewrite Ec; [now rewrite Hs|].
    destruct s as [|c' s']; [reflexivity|].
    rewrite Hs. now destruct (py_isspace c').
  - destruct (rstrip_head s c1 r1 Er) as [s1 ->].
    rewrite !split_cons, IH. reflexivity.
Qed.

Lemma split_strip (s : string) : py_split (py_strip s) = py_split s.
Proof. unfold py_strip. now rewrite split_rstrip, split_lstrip. Qed.

Lemma append_assoc (a b c : string) : (a ++ b) ++ c = a ++ (b ++ c).
Proof.
  induction a as [|x a IH]; [reflexivity|].
  change ((String x a ++ b) ++ c) with (String x ((a ++ b) ++ c)).
  now rewrite IH.
Qed.

(** A token followed by white space is split off whole. *)
Lemma split_token_then_space (t : string) c rest :
  is_token t = true -> py_isspace c = true ->
  py_split (t ++ String c rest) = t :: py_split rest.
Proof.
  intros Ht Hc. unfold is_token in Ht. apply andb_true_iff in Ht. destruct Ht as [Hne Hns].
  destruct t as [|c0 t]; [discriminate|]. clear Hne.
  revert c0 Hns. induction t as [|c1 t IH]; intros c0 Hns.
  - simpl in *. rewrite andb_true_r in Hns. apply negb_true_iff in Hns.
    now rewrite Hns, Hc.
  - simpl in Hns. apply andb_true_iff in Hns. destruct Hns as [H0 Hns].
    apply negb_true_iff in H0.
    specialize (IH c1 Hns).
    assert (H1 : py_isspace c1 = false).
    { simpl in Hns. apply andb_true_iff in Hns. destruct Hns as [H1 _].
      now apply negb_true_iff in H1. }
    change (String c0 (String c1 t) ++ String c rest)
      with (String c0 (String c1 (t ++ String c rest))).
    rewrite split_cons, H0, H1.
    change (String c1 (t ++ String c rest)) with (String c1 t ++ String c rest).
    rewrite IH. reflexivity.
Qed.

Lemma space_is_space : py_isspace " " = true.
Proof. reflexivity. Qed.

Lemma newline_is_space : py_isspace newline = true.
Proof. reflexivity. Qed.

Lemma split_joined_then_space (toks : list string) c rest :
  Forall (fun t => is_token t = true) toks -> py_isspace c = true ->
  py_split (join_space toks ++ String c rest) = (toks ++ py_split rest)%list.
Proof.
  intros Htoks Hc. induction Htoks as [|t toks Ht Htoks IH].
  - simpl. now rewrite Hc.
  - destruct toks as [|t2 toks].
    + simpl join_space. now apply split_token_then_space.
    + change (join_space (t :: t2 :: toks)) with (t ++ " " ++ join_space (t2 :: toks)).
      rewrite !append_assoc.
      change (" " ++ join_space (t2 :: toks) ++ String c rest)
        with (String " " (join_space (t2 :: toks) ++ String c rest)).
      rewrite split_token_then_space by (auto using space_is_space).
      rewrite IH. reflexivity.
Qed.

Lemma token_no_newline (t : string) : no_space t = true -> no_newline t = true.
Proof.
  induction t as [|c t IH]; simpl; [reflexivity|].
  intros H. apply andb_true_iff in H. destruct H as [Hc Ht].
  rewrite IH by exact Ht. rewrite andb_true_r.
  destruct (Ascii.eqb_spec c newline) as [->|]; [discriminate | reflexivity].
Qed.

Lemma no_newline_app (a b : string) :
  no_newline (a ++ b) = no_newline a && no_newline b.
Proof.
  induction a as [|c a IH]; [reflexivity|].
  change (no_newline (String c a ++ b))
    with (negb (Ascii.eqb c newline) && no_newline (a ++ b)).
  rewrite IH. cbn [no_newline]. now rewrite andb_assoc.
Qed.

Lemma joined_no_newline (toks : list string) :
  Forall (fun t => is_token t = true) toks -> no_newline (join_space toks) = true.
Proof.
  intros Htoks. induction Htoks as [|t toks Ht Htoks IH]; [reflexivity|].
  assert (Hn : no_newline t = true).
  { apply token_no_newline. unfold is_token in Ht. now apply andb_true_iff in Ht. }
  destruct toks as [|t2 toks]; [exact Hn|].
  change (join_space (t :: t2 :: toks)) with (t ++ " " ++ join_space (t2 :: toks)).
  rewrite !no_newline_app, Hn, IH. reflexivity.
Qed.

Lemma readlines_line (l rest : string) :
  no_newline l = true ->
  readlines (l ++ String newline rest) = (l ++ String newline "") :: readlines rest.
Proof.
  induction l as [|c l IH]; intros Hl.
  - change ("" ++ String newline rest) with (String newline rest).
    cbn [readlines]. now rewrite Ascii.eqb_refl.
  - simpl in Hl. apply andb_true_iff in Hl. destruct Hl as [Hc Hl].
    apply negb_true_iff in Hc. specialize (IH Hl).
    change (String c l ++ String newline rest) with (String c (l ++ String newline rest)).
    cbn [readlines]. rewrite Hc, IH.
    destruct l; reflexivity.
Qed.

End TokenFacts.

(** X1: every token that [read_file_2_list] returns is non-empty and free
    of white space, and the [strip] before [split] changes nothing: the
    token lists are the [split] of the lines as read. *)
Theorem read_file_2_list_gives_tokens :
  forall (content : string),
    Forall (Forall (fun t => is_token t = true)) (read_file_2_list content) /\
    read_file_2_list content = map py_split (readlines content).
Proof.
  intros content. unfold read_file_2_list. split.
  - induction (readlines content) as [|l ls IH]; simpl; constructor;
      [apply TokenFacts.split_tokens | exact IH].
  - apply map_ext. intros l. apply TokenFacts.split_strip.
Qed.

(** Reading back a text written with [file_text]. *)
Lemma read_file_text (lines : list (list string)) :
  Forall (Forall (fun t => is_token t = true)) lines ->
  read_file_2_list (file_text lines) = lines.
Proof.
  intros Hlines. induction Hlines as [|line lines Hline Hlines IH]; [reflexivity|].
  unfold read_file_2_list in *. cbn [file_text].
  rewrite TokenFacts.readlines_line by (now apply TokenFacts.joined_no_newline).
  cbn [map]. rewrite IH. f_equal.
  rewrite TokenFacts.split_strip.
  rewrite TokenFacts.split_joined_then_space
    by (auto using TokenFacts.newline_is_space).
  apply app_nil_r.
Qed.

(** X2: a file written one command a line, with the tokens of a line one
    space apart, is read back as the same token lists; a line without
    tokens is read as the empty list. *)
Theorem read_file_2_list_of_file_text :
  forall (lines : list (list string)),
    Forall (Forall (fun t => is_token t = true)) lines ->
    read_file_2_list (file_text lines) = lines.
Proof. exact read_file_text. Qed.

Lemma read_file_2_list_of_file_text_example :
  read_file_2_list
    (file_text [["ALLOCATE"; "6000"; "3000"]; []; ["BALANCE"; "MARCH"]])
  = [["ALLOCATE"; "6000"; "3000"]; []; ["BALANCE"; "MARCH"]].
Proof.
  apply read_file_2_list_of_file_text.
  repeat constructor.
Defined.

(** The example of the docstring of [read_file_2_list]. *)
Example doctest_read_file_2_list :
  read_file_2_list
    ("ALLOCATE 6000 3000" ++ String newline "CHANGE 13.00% MAY"
     ++ String newline "BALANCE MARCH")
  = [["ALLOCATE"; "6000"; "3000"]; ["CHANGE"; "13.00%"; "MAY"]; ["BALANCE"; "MARCH"]].
Proof. reflexivity. Qed.

(** ** More on the parser *)

Module ParserFacts.

Lemma lower_ascii_idem (c : ascii) : lower_ascii (lower_ascii c) = lower_ascii c.
Proof. destruct c as [[] [] [] [] [] [] [] []]; reflexivity. Qed.

Lemma lower_idem (s : string) : lower (lower s) = lower s.
Proof.
  induction s as [|c s IH]; simpl; [reflexivity|].
  now rewrite lower_ascii_idem, IH.
Qed.

Lemma position_from_lower i names t1 t2 :
  lower t1 = lower t2 -> position_from i names t1 = position_from i names t2.
Proof.
  intros H. revert i. induction names as [|n names IH]; intros i; simpl; [reflexivity|].
  now rewrite H, IH.
Qed.

Lemma calendar_index_lower t1 t2 :
  lower t1 = lower t2 -> calendar_index t1 = calendar_index t2.
Proof. apply position_from_lower. Qed.

Lemma remove_percent_id (v : string) : has_percent v = false -> remove_percent v = v.
Proof.
  induction v as [|c v IH]; simpl; [reflexivity|].
  destruct (Ascii.eqb c "%"); simpl; [discriminate|].
  intros H. now rewrite IH.
Qed.

Lemma py_float_Err (s : string) e : py_float s = Err e -> e = ValueError.
Proof. unfold py_float. destruct (FloatLiteral.read s); congruence. Qed.

Lemma parse_nums_cases (v : string) :
  parse_nums v =
  match py_float (remove_percent v) with
  | Ok f => Ok (if has_percent v then Float64.div f hundred else f)
  | Err _ => Err ValueError
  end.
Proof.
  destruct (has_percent v) eqn:E.
  - rewrite parse_nums_percent by exact E.
    destruct (py_float (remove_percent v)) as [f|e] eqn:Ef; [reflexivity|].
    simpl. now rewrite (py_float_Err _ _ Ef).
  - rewrite parse_nums_plain, remove_percent_id by exact E.
    destruct (py_float v) as [f|e] eqn:Ef; [reflexivity|].
    now rewrite (py_float_Err _ _ Ef).
Qed.

Lemma parse_nums_Err (v : string) e : parse_nums v = Err e -> e = ValueError.
Proof.
  rewrite parse_nums_cases. destruct (py_float (remove_percent v)); congruence.
Qed.

Lemma mapM_Ok_Forall2 {A B} (f : A -> result B) (l : list A) (l' : list B) :
  mapM f l = Ok l' <-> Forall2 (fun a b => f a = Ok b) l l'.
Proof.
  revert l'. induction l as [|a l IH]; intros l'; simpl.
  - split.
    + intros [= <-]. constructor.
    + intros H. inversion H. reflexivity.
  - split.
    + intros H. apply bind_Ok_inv in H. destruct H as (b & Hb & H).
      apply bind_Ok_inv in H. destruct H as (bs & Hbs & [= <-]).
      constructor; [exact Hb | now apply IH].
    + intros H. inversion H as [|? b ? bs Hb Hbs]; subst.
      rewrite Hb. simpl. apply IH in Hbs. now rewrite Hbs.
Qed.

Lemma mapM_Err_Exists {A B} (f : A -> result B) (l : list A) e :
  mapM f l = Err e -> List.Exists (fun a => f a = Err e) l.
Proof.
  induction l as [|a l IH]; simpl; [discriminate|].
  destruct (f a) as [b|e'] eqn:Ea; simpl.
  - destruct (mapM f l) as [bs|e'']; simpl; [discriminate|].
    intros [= ->]. right. now apply IH.
  - intros [= ->]. now left.
Qed.

(** [parse_line] on two tokens or more, with the month looked up once. *)
Lemma parse_line_args command tok rest order :
  parse_line (command :: tok :: rest) order =
  (do values <- mapM parse_nums
                  (match calendar_index (List.last (tok :: rest) "") with
                   | Some _ => removelast (tok :: rest)
                   | None => tok :: rest
                   end);
   Ok (Some (mkCommand (lower command) (Dict.of_pairs (combine order values))
               (match calendar_index (List.last (tok :: rest) "") with
                | Some m => m
                | None => 0
                end)))).
Proof.
  unfold parse_line.
  unfold Dict.mem, month_number_from_name, list_of_strings_2_floats.
  rewrite !month_table_lookup.
  destruct (calendar_index (List.last (tok :: rest) "")); reflexivity.
Qed.

Lemma parse_line_Err line order e :
  parse_line line order = Err e -> e = ValueError.
Proof.
  destruct line as [|command [|tok rest]]; try discriminate.
  rewrite parse_line_args.
  destruct (mapM parse_nums _) as [values|e'] eqn:E; simpl; [discriminate|].
  intros [= <-]. apply mapM_Err_Exists in E. apply List.Exists_exists in E.
  destruct E as (v & _ & Hv). now apply parse_nums_Err in Hv.
Qed.

Lemma keys_set {V} k (v : V) d k' :
  In k' (Dict.keys (Dict.set k v d)) -> k' = k \/ In k' (Dict.keys d).
Proof.
  unfold Dict.keys. induction d as [|[k0 v0] d IH]; simpl.
  - intros [H|[]]; auto.
  - destruct (String.eqb k k0); simpl; intros [H|H]; auto.
    destruct (IH H); auto.
Qed.


Lemma fold_set_keys {V} (l acc : list (string * V)) k :
  In k (Dict.keys (fold_left (fun d kv => Dict.set (fst kv) (snd kv) d) l acc)) ->
  In k (Dict.keys acc) \/ In k (map fst l).
Proof.
  revert acc. induction l as [|[k0 v0] l IH]; intros acc; simpl; [auto|].
  intros H. apply IH in H. destruct H as [H|H]; [|auto].
  apply keys_set in H. simpl in H. destruct H as [->|H]; auto.
Qed.


Lemma of_pairs_keys {V} (l : list (string * V)) k :
  In k (Dict.keys (Dict.of_pairs l)) -> In k (map fst l).
Proof.
  intros H. apply fold_set_keys in H. destruct H as [[]|H]. exact H.
Qed.



End ParserFacts.

(** X3: [month_number_from_name] returns the calendar index, from 1 to 12,
    of a month name written in any letter case, and raises [KeyError] on
    the lower-cased name for anything else. *)
Theorem month_number_from_name_any_case :
  forall (s : string),
    month_number_from_name s =
      match calendar_index s with
      | Some m => Ok m
      | None => Err (KeyError (KStr (lower s)))
      end /\
    month_number_from_name (lower s) = month_number_from_name s /\
    (forall m, month_number_from_name s = Ok m ->
       1 <= m <= 12 /\
       lower (nth (Z.to_nat m) calendar_month_name "") = lower s).
Proof.
  intros s.
  assert (H : month_number_from_name s =
              match calendar_index s with
              | Some m => Ok m
              | None => Err (KeyError (KStr (lower s)))
              end).
  { unfold month_number_from_name. now rewrite month_table_lookup. }
  split; [exact H|]. split.
  - unfold month_number_from_name. now rewrite ParserFacts.lower_idem.
  - intros m Hm. rewrite H in Hm.
    destruct (calendar_index s) as [m'|] eqn:E; [|discriminate].
    injection Hm as ->. now apply calendar_index_range.
Qed.

(** X4: [parse_nums] drops every percent sign of its token, wherever it
    stands, and divides by 100 once when there was one; it raises
    [ValueError], and nothing else, exactly when what is left is not a
    float literal. *)
Theorem parse_nums_raises_only_ValueError :
  forall (v : string),
    parse_nums v =
      match py_float (remove_percent v) with
      | Ok f => Ok (if has_percent v then Float64.div f hundred else f)
      | Err _ => Err ValueError
      end /\
    has_percent (remove_percent v) = false.
Proof.
  intros v. split; [apply ParserFacts.parse_nums_cases | apply remove_percent_clean].
Qed.

(** X5: [list_of_strings_2_floats] returns one float for each string, in
    order, each the [parse_nums] of its string; it raises [ValueError]
    when one of the strings does not parse. *)
Theorem list_of_strings_2_floats_elementwise :
  forall (strings : list string),
    (forall fs,
        list_of_strings_2_floats strings = Ok fs <->
        Forall2 (fun s f => parse_nums s = Ok f) strings fs) /\
    (forall fs, list_of_strings_2_floats strings = Ok fs ->
                length fs = length strings) /\
    (forall e,
        list_of_strings_2_floats strings = Err e ->
        e = ValueError /\
        List.Exists (fun s => parse_nums s = Err ValueError) strings).
Proof.
  intros strings. unfold list_of_strings_2_floats. split; [|split].
  - intros fs. apply ParserFacts.mapM_Ok_Forall2.
  - intros fs H. now apply mapM_length in H.
  - intros e H. apply ParserFacts.mapM_Err_Exists in H.
    assert (He : e = ValueError).
    { apply List.Exists_exists in H. destruct H as (s & _ & Hs).
      now apply ParserFacts.parse_nums_Err in Hs. }
    subst e. auto.
Qed.

(** X6: the parser raises nothing but [ValueError]: a line either gives a
    command, or nothing, or [ValueError], and the generator can only be
    stopped by [ValueError]. *)
Theorem parser_raises_only_ValueError :
  forall (lines : list (list string)) (order : list string),
    (forall line e, parse_line line order = Err e -> e = ValueError) /\
    (forall cs e, parse_list_2_commands lines order = (cs, Some e) -> e = ValueError).
Proof.
  intros lines order. split.
  - intros line e. apply ParserFacts.parse_line_Err.
  - induction lines as [|line lines IH]; intros cs e; simpl; [discriminate|].
    destruct (parse_line line order) as [[c|]|e'] eqn:E.
    + destruct (parse_list_2_commands lines order) as [cs' stop].
      intros [= <- ->]. eapply IH; eauto.
    + apply IH.
    + intros [= <- <-]. eapply ParserFacts.parse_line_Err; eauto.
Qed.

Lemma parser_raises_only_ValueError_example :
  snd (parse_list_2_commands [["ALLOCATE"; "6000"]; ["CHANGE"; "ten%"; "MAY"]]
         ["Equity"])
  = Some ValueError.
Proof.
  destruct (parser_raises_only_ValueError
              [["ALLOCATE"; "6000"]; ["CHANGE"; "ten%"; "MAY"]] ["Equity"]) as [_ H].
  destruct (parse_list_2_commands [["ALLOCATE"; "6000"]; ["CHANGE"; "ten%"; "MAY"]]
              ["Equity"]) as [cs [e|]] eqn:E.
  - simpl. f_equal. exact (H cs e eq_refl).
  - vm_compute in E. discriminate E.
Defined.



(** X8: the command word and a trailing month name are read without
    regard to letter case: two lines that differ only in the case of
    these two tokens parse alike. *)
Theorem parse_line_ignores_case_of_command_and_month :
  forall (c1 c2 t1 t2 : string) (middle order : list string),
    lower c1 = lower c2 -> lower t1 = lower t2 ->
    calendar_index t1 <> None ->
    parse_line (c1 :: middle ++ [t1]) order = parse_line (c2 :: middle ++ [t2]) order /\
    parse_line [c1] order = parse_line [c2] order.
Proof.
  intros c1 c2 t1 t2 middle order Hc Ht Hmonth. split.
  - assert (Hargs : forall c t,
               parse_line (c :: middle ++ [t]) order =
               (do values <- mapM parse_nums
                               (match calendar_index t with
                                | Some _ => middle
                                | None => (middle ++ [t])%list
                                end);
                Ok (Some (mkCommand (lower c) (Dict.of_pairs (combine order values))
                            (match calendar_index t with
                             | Some m => m
                             | None => 0
                             end))))).
    { intros c t.
      destruct (middle ++ [t])%list as [|tok rest] eqn:E;
        [destruct middle; discriminate|].
      rewrite ParserFacts.parse_line_args, <- E, last_last, removelast_last.
      reflexivity. }
    rewrite !Hargs, Hc, (ParserFacts.calendar_index_lower t2 t1) by congruence.
    destruct (calendar_index t1); [reflexivity | contradiction].
  - simpl. now rewrite Hc.
Qed.

Lemma parse_line_ignores_case_example :
  parse_line ["change"; "4%"; "January"] ["Equity"]
  = parse_line ["CHANGE"; "4%"; "JANUARY"] ["Equity"].
Proof.
  apply (parse_line_ignores_case_of_command_and_month
           "change" "CHANGE" "January" "JANUARY" ["4%"] ["Equity"]).
  - reflexivity.
  - reflexivity.
  - discriminate.
Defined.

(** ** Whole amounts *)

(** X9: an integer below [2^53] in magnitude survives the passage through
    a float: [float] of it does not raise and [bank_rounding_system] gives
    the integer back. *)
Theorem whole_amount_survives_float :
  forall (n : Z),
    Z.abs n < 2 ^ 53 ->
    int_to_float n = Ok (Float64.of_Z n) /\
    bank_rounding_system (PyFloat (Float64.of_Z n)) = Ok n.
Proof.
  intros n Hn. split.
  - unfold int_to_float. now rewrite ExactFacts.of_Z_finite.
  - apply ExactFacts.float_to_int_of_Z. exact Hn.
Qed.

Lemma whole_amount_survives_float_example :
  bank_rounding_system (PyFloat (Float64.of_Z 9007199254740991))
  = Ok 9007199254740991 /\
  bank_rounding_system (PyFloat (Float64.of_Z 9007199254740993))
  = Ok 9007199254740992.
Proof.
  split.
  - apply (whole_amount_survives_float 9007199254740991). reflexivity.
  - vm_compute. reflexivity.
Defined.

Module AssetFacts.

Lemma asset_eta (a : Asset) : mkAsset (asset_name a) (_allocation a) (_weight a) = a.
Proof. now destruct a. Qed.

Lemma set_allocation_whole (a : Asset) (n : Z) :
  Z.abs n < 2 ^ 53 ->
  AssetOps.set_allocation a (PyFloat (Float64.of_Z n))
  = Ok (mkAsset (asset_name a) n (_weight a)).
Proof.
  intros Hn. unfold AssetOps.set_allocation, bank_rounding_system. cbn [py_int].
  now rewrite ExactFacts.float_to_int_of_Z.
Qed.

Lemma add_zero (n : Z) (s : bool) :
  Z.abs n < 2 ^ 53 ->
  py_add (PyInt n) (PyFloat (S754_zero s)) = Ok (PyFloat (Float64.of_Z n)).
Proof.
  intros Hn. cbn [py_add to_float]. unfold int_to_float.
  rewrite ExactFacts.of_Z_finite by exact Hn. cbn [bind].
  destruct (Z.eq_dec n 0) as [->|Hn0]; [now destruct s|].
  now rewrite ExactFacts.of_Z_normal.
Qed.

Lemma add_whole (n v : Z) :
  Z.abs n < 2 ^ 53 -> Z.abs v < 2 ^ 53 -> Z.abs (n + v) < 2 ^ 53 ->
  py_add (PyInt n) (PyFloat (Float64.of_Z v)) = Ok (PyFloat (Float64.of_Z (n + v))).
Proof.
  intros Hn Hv Hs. cbn [py_add to_float]. unfold int_to_float.
  rewrite ExactFacts.of_Z_finite by exact Hn. cbn [bind].
  now rewrite ExactFacts.add_of_Z.
Qed.

Lemma mul_one (n : Z) :
  Z.abs n < 2 ^ 53 ->
  py_mul (PyInt n) (PyFloat (Float64.of_Z 1)) = Ok (PyFloat (Float64.of_Z n)).
Proof.
  intros Hn. cbn [py_mul to_float]. unfold int_to_float.
  rewrite ExactFacts.of_Z_finite by exact Hn. cbn [bind].
  now rewrite ExactFacts.mul_of_Z_one.
Qed.

Lemma mul_zero (n : Z) :
  Z.abs n < 2 ^ 53 ->
  exists s, py_mul (PyInt n) (PyFloat (S754_zero false)) = Ok (PyFloat (S754_zero s)).
Proof.
  intros Hn. cbn [py_mul to_float]. unfold int_to_float.
  rewrite ExactFacts.of_Z_finite by exact Hn. cbn [bind].
  destruct (Z.eq_dec n 0) as [->|Hn0]; [now exists false|].
  rewrite ExactFacts.of_Z_normal by assumption. eexists. reflexivity.
Qed.

End AssetFacts.

(** X10: the constructor of an asset keeps [int] of the allocation and the
    weight given, and exists only for a weight from 0 to 100: outside
    that range it raises [ValueError]. *)
Theorem asset_needs_weight_0_to_100 :
  forall (name : string) (v : num) (w : Z),
    AssetOps.init name v w =
      match py_int v with
      | Err e => Err e
      | Ok n => if ((0 <=? w) && (w <=? 100))%Z then Ok (mkAsset name n w)
                else Err ValueError
      end /\
    (forall a, AssetOps.init name v w = Ok a -> 0 <= AssetOps.weight a <= 100).
Proof.
  intros name v w.
  assert (H : AssetOps.init name v w =
              match py_int v with
              | Err e => Err e
              | Ok n => if ((0 <=? w) && (w <=? 100))%Z then Ok (mkAsset name n w)
                        else Err ValueError
              end).
  { unfold AssetOps.init, AssetOps.set_allocation, AssetOps.set_weight,
      bank_rounding_system.
    destruct (py_int v) as [n|e]; [|reflexivity]. simpl.
    destruct (Z.ltb_spec w 0), (Z.gtb_spec w 100), (Z.leb_spec 0 w), (Z.leb_spec w 100);
      simpl; try reflexivity; lia. }
  split; [exact H|].
  intros a Ha. rewrite H in Ha.
  destruct (py_int v) as [n|e]; [|discriminate].
  destruct (Z.leb_spec 0 w), (Z.leb_spec w 100); simpl in Ha; try discriminate.
  injection Ha as <-. simpl. lia.
Qed.

Lemma asset_needs_weight_0_to_100_example :
  AssetOps.init "Gold" (PyInt 0) 101 = Err ValueError /\
  0 <= AssetOps.weight (mkAsset "Gold" 0 100) <= 100.
Proof.
  destruct (asset_needs_weight_0_to_100 "Gold" (PyInt 0) 101) as [H _].
  split; [rewrite H; reflexivity|].
  destruct (asset_needs_weight_0_to_100 "Gold" (PyInt 0) 100) as [_ H100].
  apply H100. reflexivity.
Defined.

(** X11: on an allocation below [2^53] in magnitude, a rate of 0% leaves
    the allocation as it is, and a rate of -100% takes it to 0. *)
Theorem rate_of_0_and_of_minus_100_percent :
  forall (a : Asset),
    Z.abs (AssetOps.allocation a) < 2 ^ 53 ->
    (forall s, AssetOps.monthly_rate_of_change a (S754_zero s) = Ok a) /\
    AssetOps.monthly_rate_of_change a (Float64.of_Z (-1))
    = Ok (mkAsset (asset_name a) 0 (AssetOps.weight a)) /\
    parse_nums "0%" = Ok (S754_zero false) /\
    parse_nums "-100%" = Ok (Float64.of_Z (-1)).
Proof.
  intros a Ha. split; [|split; [|split; vm_compute; reflexivity]].
  - intros s. unfold AssetOps.monthly_rate_of_change.
    rewrite (AssetFacts.add_zero 1 s) by (simpl; lia). cbn [bind].
    rewrite AssetFacts.mul_one by exact Ha. cbn [bind].
    rewrite AssetFacts.set_allocation_whole by exact Ha.
    unfold AssetOps.allocation. now rewrite AssetFacts.asset_eta.
  - unfold AssetOps.monthly_rate_of_change.
    rewrite (AssetFacts.add_whole 1 (-1)) by (simpl; lia).
    change (Float64.of_Z (1 + -1)) with (S754_zero false). cbn [bind].
    destruct (AssetFacts.mul_zero _ Ha) as [s ->]. cbn [bind].
    reflexivity.
Qed.

Lemma rate_of_0_and_of_minus_100_percent_example :
  AssetOps.monthly_rate_of_change (mkAsset "Equity" 6000 60) (S754_zero false)
  = Ok (mkAsset "Equity" 6000 60) /\
  AssetOps.monthly_rate_of_change (mkAsset "Equity" 6000 60) (Float64.of_Z (-1))
  = Ok (mkAsset "Equity" 0 60).
Proof.
  destruct (rate_of_0_and_of_minus_100_percent (mkAsset "Equity" 6000 60))
    as (H0 & H100 & _); [reflexivity|].
  split; [apply H0 | exact H100].
Defined.

(** ** More on portfolios *)

Module ShapeFacts.

Lemma set_same {V} k (v : V) d : Dict.get k d = Some v -> Dict.set k v d = d.
Proof.
  induction d as [|[k0 v0] d IH]; simpl; [discriminate|].
  destruct (String.eqb k k0); [intros [= ->]; reflexivity|].
  intros H. now rewrite IH.
Qed.

Lemma get_In_keys {V} k (v : V) d : Dict.get k d = Some v -> In k (Dict.keys d).
Proof.
  intros H. destruct (in_dec string_dec k (Dict.keys d)) as [|Hn]; auto.
  apply DictFacts.get_None_not_in in Hn. congruence.
Qed.

Lemma In_keys_get {V} k (d : Dict.t V) : In k (Dict.keys d) -> exists v, Dict.get k d = Some v.
Proof.
  intros H. destruct (Dict.get k d) eqn:E; eauto.
  apply DictFacts.get_None_not_in in E. contradiction.
Qed.

Lemma keys_of_weights (d : Dict.t Asset) : map fst (asset_weights d) = Dict.keys d.
Proof. unfold asset_weights, Dict.keys. rewrite map_map. reflexivity. Qed.

(** Replacing an asset by one of the same name and weight. *)
Lemma set_keeps_weights (d : Dict.t Asset) k a a' :
  Dict.get k d = Some a ->
  asset_name a' = asset_name a -> AssetOps.weight a' = AssetOps.weight a ->
  asset_weights (Dict.set k a' d) = asset_weights d.
Proof.
  intros Hget Hn Hw. induction d as [|[k0 a0] d IH]; simpl in *; [discriminate|].
  destruct (String.eqb k k0).
  - injection Hget as ->. simpl. now rewrite Hn, Hw.
  - simpl. now rewrite IH.
Qed.

Lemma allocate_one_keeps_weights d name value d' :
  Portfolio.allocate_one d name value = Ok d' -> asset_weights d' = asset_weights d.
Proof.
  unfold Portfolio.allocate_one.
  destruct (Dict.get name d) as [a|] eqn:Ha; [|discriminate].
  intros H. apply bind_Ok_inv in H. destruct H as (x & Hx & H).
  apply bind_Ok_inv in H. destruct H as (a' & Ha' & [= <-]).
  apply RoundingFacts.set_allocation_Ok in Ha'. destruct Ha' as (_ & Hn & Hw).
  eapply set_keeps_weights; eauto.
Qed.

Lemma allocate_assets_keeps_weights values :
  forall d d', Portfolio.allocate_assets d values = Ok d' ->
               asset_weights d' = asset_weights d.
Proof.
  induction values as [|[name value] values IH]; intros d d'; simpl.
  - now intros [= <-].
  - intros H. apply bind_Ok_inv in H. destruct H as (d1 & Hd1 & H).
    apply IH in H. apply allocate_one_keeps_weights in Hd1. congruence.
Qed.

Lemma change_one_keeps_weights d name rate d' :
  Portfolio.change_one d name rate = Ok d' -> asset_weights d' = asset_weights d.
Proof.
  unfold Portfolio.change_one.
  destruct (Dict.get name d) as [a|] eqn:Ha; [|discriminate].
  intros H. apply bind_Ok_inv in H. destruct H as (a' & Ha' & [= <-]).
  unfold AssetOps.monthly_rate_of_change in Ha'.
  apply bind_Ok_inv in Ha'. destruct Ha' as (f & Hf & Ha').
  apply bind_Ok_inv in Ha'. destruct Ha' as (x & Hx & Ha').
  apply RoundingFacts.set_allocation_Ok in Ha'. destruct Ha' as (_ & Hn & Hw).
  eapply set_keeps_weights; eauto.
Qed.

Lemma change_assets_keeps_weights rates :
  forall d d', Portfolio.change_assets d rates = Ok d' ->
               asset_weights d' = asset_weights d.
Proof.
  induction rates as [|[name rate] rates IH]; intros d d'; simpl.
  - now intros [= <-].
  - intros H. apply bind_Ok_inv in H. destruct H as (d1 & Hd1 & H).
    apply IH in H. apply change_one_keeps_weights in Hd1. congruence.
Qed.

Lemma rebalance_assets_keeps_weights total :
  forall d d',
    mapM (fun kv => do a' <- Portfolio.rebalance_one total (snd kv); Ok (fst kv, a')) d
    = Ok d' ->
    asset_weights d' = asset_weights d.
Proof.
  induction d as [|[k a] d IH]; intros d'; simpl.
  - now intros [= <-].
  - intros H. apply bind_Ok_inv in H. destruct H as ([k' a'] & Hka & H).
    apply bind_Ok_inv in H. destruct H as (d1 & Hd1 & [= <-]).
    apply bind_Ok_inv in Hka. destruct Hka as (a1 & Ha1 & [= <- <-]).
    unfold Portfolio.rebalance_one in Ha1.
    apply bind_Ok_inv in Ha1. destruct Ha1 as (x & Hx & Ha1).
    apply bind_Ok_inv in Ha1. destruct Ha1 as (y & Hy & Ha1).
    apply RoundingFacts.set_allocation_Ok in Ha1. destruct Ha1 as (_ & Hn & Hw).
    simpl. rewrite Hn, Hw. f_equal. now apply IH.
Qed.

Lemma allocate_keeps p values p' :
  Portfolio.allocate p values = Ok p' ->
  pf_name p' = pf_name p /\ sip p' = sip p /\
  asset_weights (assets p') = asset_weights (assets p).
Proof.
  unfold Portfolio.allocate. intros H.
  apply bind_Ok_inv in H. destruct H as (d & Hd & [= <-]). simpl.
  apply allocate_assets_keeps_weights in Hd. auto.
Qed.

Lemma change_keeps p rates p' :
  Portfolio.change p rates = Ok p' ->
  pf_name p' = pf_name p /\ sip p' = sip p /\
  asset_weights (assets p') = asset_weights (assets p).
Proof.
  unfold Portfolio.change. intros H.
  apply bind_Ok_inv in H. destruct H as (d & Hd & [= <-]). simpl.
  apply change_assets_keeps_weights in Hd. auto.
Qed.

Lemma rebalance_keeps p p' :
  Portfolio.rebalance p = Ok p' ->
  pf_name p' = pf_name p /\ sip p' = sip p /\
  asset_weights (assets p') = asset_weights (assets p).
Proof.
  unfold Portfolio.rebalance. intros H.
  apply bind_Ok_inv in H. destruct H as (d & Hd & [= <-]). simpl.
  apply rebalance_assets_keeps_weights in Hd. auto.
Qed.

Lemma combine_repeat_zero (ks all : list string) (n : nat) :
  (forall k, In k ks -> In k all) ->
  Forall (fun kv : string * float => snd kv = S754_zero false /\ In (fst kv) all)
    (combine ks (List.repeat (S754_zero false) n)).
Proof.
  revert n. induction ks as [|k ks IH]; intros [|n] Hsub; simpl; constructor.
  - split; [reflexivity|]. apply Hsub. now left.
  - apply IH. intros k' Hk'. apply Hsub. now right.
Qed.

Lemma fold_set_zero (all : list string) (l acc : Dict.t float) :
  Forall (fun kv => snd kv = S754_zero false /\ In (fst kv) all) l ->
  Forall (fun kv => snd kv = S754_zero false /\ In (fst kv) all) acc ->
  Forall (fun kv => snd kv = S754_zero false /\ In (fst kv) all)
    (fold_left (fun d kv => Dict.set (fst kv) (snd kv) d) l acc).
Proof.
  revert acc. induction l as [|[k v] l IH]; intros acc Hl Hacc; simpl; [exact Hacc|].
  inversion Hl as [|? ? [Hv Hk] Hl']; subst. simpl in Hv, Hk. apply IH; [exact Hl'|].
  clear -Hacc Hv Hk. induction Hacc as [|[k0 v0] acc H0 Hacc IH]; simpl.
  - repeat constructor; assumption.
  - destruct (String.eqb k k0); constructor; auto.
    simpl in *. tauto.
Qed.

End ShapeFacts.

(** X12: [allocate] with a whole amount adds exactly that amount to the
    asset it names and leaves every other asset alone, as long as the
    old allocation, the amount and the new allocation are below [2^53] in
    magnitude. *)
Theorem allocate_adds_whole_amount :
  forall (p : InvestorPortfolio) (name : string) (a : Asset) (v : Z),
    Dict.get name (assets p) = Some a ->
    Z.abs (AssetOps.allocation a) < 2 ^ 53 -> Z.abs v < 2 ^ 53 ->
    Z.abs (AssetOps.allocation a + v) < 2 ^ 53 ->
    exists p',
      Portfolio.allocate p [(name, Float64.of_Z v)] = Ok p' /\
      Dict.get name (assets p')
      = Some (mkAsset (asset_name a) (AssetOps.allocation a + v) (AssetOps.weight a)) /\
      (forall other, other <> name ->
                     Dict.get other (assets p') = Dict.get other (assets p)) /\
      Dict.keys (assets p') = Dict.keys (assets p).
Proof.
  intros p name a v Hget Ha Hv Hs.
  unfold Portfolio.allocate. cbn [Portfolio.allocate_assets].
  unfold Portfolio.allocate_one. rewrite Hget.
  rewrite AssetFacts.add_whole by assumption. cbn [bind].
  rewrite AssetFacts.set_allocation_whole by assumption. cbn [bind].
  eexists. split; [reflexivity|]. cbn [assets]. split; [|split].
  - apply DictFacts.get_set_eq.
  - intros other Hne. apply DictFacts.get_set_ne. congruence.
  - rewrite <- !ShapeFacts.keys_of_weights. f_equal.
    eapply ShapeFacts.set_keeps_weights; eauto.
Qed.

Lemma allocate_adds_whole_amount_example :
  exists p',
    Portfolio.allocate example_portfolio [("Debt", Float64.of_Z 500)] = Ok p' /\
    Portfolio.balance p' = [6000; 3500].
Proof.
  destruct (allocate_adds_whole_amount example_portfolio "Debt"
              (mkAsset "Debt" 3000 40) 500) as (p' & Hp' & _);
    try reflexivity.
  exists p'. split; [exact Hp'|].
  vm_compute in Hp'. injection Hp' as <-. reflexivity.
Defined.

(** X13: a portfolio as its constructor leaves it holds no contribution
    but zero, each for one of its assets, and adding that contribution
    changes nothing (allocations below [2^53] in magnitude): until a
    [sip] command is given, [change] applies the rates only. *)
Theorem default_contribution_adds_nothing :
  forall (name : string) (assets_ : Dict.t Asset) (p : InvestorPortfolio),
    Portfolio.init name assets_ = Ok p ->
    Forall (fun a => Z.abs (AssetOps.allocation a) < 2 ^ 53) (Dict.values assets_) ->
    Forall (fun kv => snd kv = S754_zero false /\ In (fst kv) (Dict.keys assets_)) (sip p) /\
    Portfolio.add_sip p = Ok p.
Proof.
  intros name assets_ p Hinit Hsmall.
  unfold Portfolio.init in Hinit.
  destruct (negb _); [discriminate|]. injection Hinit as <-. cbn [sip].
  assert (Hsip : Forall (fun kv => snd kv = S754_zero false /\ In (fst kv) (Dict.keys assets_))
                   (Dict.of_pairs
                      (combine (Dict.keys assets_)
                         (List.repeat (S754_zero false) (length assets_))))).
  { apply ShapeFacts.fold_set_zero; [|constructor].
    apply ShapeFacts.combine_repeat_zero. auto. }
  split; [exact Hsip|].
  unfold Portfolio.add_sip, Portfolio.allocate. cbn [sip assets pf_name].
  assert (Hzero : forall l,
             Forall (fun kv => snd kv = S754_zero false /\ In (fst kv) (Dict.keys assets_)) l ->
             Portfolio.allocate_assets assets_ l = Ok assets_).
  { induction l as [|[k v] l IH]; intros Hl; [reflexivity|].
    inversion Hl as [|? ? [Hv Hk] Hl']; subst. simpl in Hv, Hk. subst v.
    cbn [Portfolio.allocate_assets]. unfold Portfolio.allocate_one.
    destruct (ShapeFacts.In_keys_get _ _ Hk) as [a Ha]. rewrite Ha.
    assert (Hsm : Z.abs (AssetOps.allocation a) < 2 ^ 53).
    { clear -Ha Hsmall. unfold Dict.values in Hsmall.
      induction assets_ as [|[k0 a0] d IH]; simpl in *; [discriminate|].
      inversion Hsmall; subst.
      destruct (String.eqb k k0); [injection Ha as <-; assumption | auto]. }
    rewrite AssetFacts.add_zero by exact Hsm. cbn [bind].
    rewrite AssetFacts.set_allocation_whole by exact Hsm. cbn [bind].
    unfold AssetOps.allocation. rewrite AssetFacts.asset_eta.
    rewrite ShapeFacts.set_same by exact Ha. now apply IH. }
  rewrite Hzero by exact Hsip. reflexivity.
Qed.

Lemma default_contribution_adds_nothing_example :
  exists p,
    Portfolio.init "John Doe" (assets example_portfolio) = Ok p /\
    Portfolio.add_sip p = Ok p.
Proof.
  exists (mkPortfolio "John Doe" (assets example_portfolio)
            [("Equity", S754_zero false); ("Debt", S754_zero false)]).
  assert (H : Portfolio.init "John Doe" (assets example_portfolio)
              = Ok (mkPortfolio "John Doe" (assets example_portfolio)
                      [("Equity", S754_zero false); ("Debt", S754_zero false)]))
    by reflexivity.
  split; [exact H|].
  apply (default_contribution_adds_nothing _ _ _ H).
  repeat constructor.
Defined.

(** X14: a rebalance within the exact range never creates money: on a
    total from 0 to below [2^46], with weights from 0 to 100 that sum to
    100, every new allocation lies between 0 and the total, the new
    allocations sum to the total at most, and to the total itself when
    the total is a multiple of 100. *)
Theorem rebalance_never_creates_money :
  forall (p : InvestorPortfolio),
    let total := sum_Z (Portfolio.balance p) in
    Forall (fun a => 0 <= AssetOps.weight a <= 100) (Dict.values (assets p)) ->
    sum_Z (map AssetOps.weight (Dict.values (assets p))) = 100 ->
    0 <= total < 2 ^ 46 ->
    exists p',
      Portfolio.rebalance p = Ok p' /\
      Forall (fun x => 0 <= x <= total) (Portfolio.balance p') /\
      sum_Z (Portfolio.balance p') <= total /\
      (total mod 100 = 0 -> sum_Z (Portfolio.balance p') = total).
Proof.
  intros p total Hw Hsum Ht.
  unfold Portfolio.rebalance. fold (Portfolio.balance p). fold total.
  rewrite (RebalanceFacts.rebalance_all_exact total) by (assumption || lia).
  eexists. split; [reflexivity|].
  unfold Portfolio.balance at 1 2 3. cbn [assets]. unfold Dict.values in *.
  rewrite !map_map in *. cbn [snd AssetOps.allocation _allocation].
  revert Hw Hsum. generalize (assets p). intros d Hw.
  assert (Hshare : forall w, 0 <= w <= 100 ->
             0 <= Z.quot (total * w) 100 <= total /\
             100 * Z.quot (total * w) 100 <= total * w /\
             (total mod 100 = 0 -> 100 * Z.quot (total * w) 100 = total * w)).
  { intros w Hrange.
    rewrite Z.quot_div_nonneg by nia.
    pose proof (Z.mul_div_le (total * w) 100 ltac:(lia)) as Hle.
    assert (0 <= total * w / 100) by (apply Z.div_pos; nia).
    assert (total * w / 100 <= total).
    { apply Z.div_le_upper_bound; nia. }
    repeat split; try lia.
    intros Hmod. apply Z.mod_divide in Hmod; [|lia]. destruct Hmod as [q Hq].
    rewrite Hq. replace (q * 100 * w) with (q * w * 100) by ring.
    rewrite Z.div_mul by lia. ring. }
  assert (Hgen : forall d0,
             Forall (fun a => 0 <= AssetOps.weight a <= 100) (map snd d0) ->
             Forall (fun x => 0 <= x <= total)
               (map (fun kv : string * Asset =>
                       Z.quot (total * AssetOps.weight (snd kv)) 100) d0) /\
             100 * sum_Z (map (fun kv : string * Asset =>
                                 Z.quot (total * AssetOps.weight (snd kv)) 100) d0)
             <= total * sum_Z (map (fun kv => AssetOps.weight (snd kv)) d0) /\
             (total mod 100 = 0 ->
              100 * sum_Z (map (fun kv : string * Asset =>
                                  Z.quot (total * AssetOps.weight (snd kv)) 100) d0)
              = total * sum_Z (map (fun kv => AssetOps.weight (snd kv)) d0))).
  { induction d0 as [|[k a] d0 IH]; intros Hd0.
    - simpl. rewrite !sum_Z_nil. repeat split; [constructor | lia | lia].
    - simpl in Hd0. inversion Hd0 as [|? ? Ha Hd0']; subst.
      destruct (IH Hd0') as (IH1 & IH2 & IH3).
      destruct (Hshare _ Ha) as (H1 & H2 & H3).
      cbn [map snd]. rewrite !sum_Z_cons.
      split; [constructor; assumption|]. split; [lia|].
      intros Hmod. specialize (IH3 Hmod). specialize (H3 Hmod). lia. }
  intros Hsum. destruct (Hgen d Hw) as (H1 & H2 & H3).
  rewrite Hsum in H2, H3. split; [exact H1|]. split; [lia|].
  intros Hmod. specialize (H3 Hmod). lia.
Qed.

Lemma rebalance_never_creates_money_example :
  exists p',
    Portfolio.rebalance example_portfolio = Ok p' /\
    sum_Z (Portfolio.balance p') = sum_Z (Portfolio.balance example_portfolio).
Proof.
  destruct (rebalance_never_creates_money example_portfolio)
    as (p' & Hp' & _ & _ & Hexact).
  - repeat constructor; simpl; lia.
  - reflexivity.
  - split; [discriminate | reflexivity].
  - exists p'. split; [exact Hp'|]. apply Hexact. reflexivity.
Defined.

Module KeyFacts.

Lemma py_add_Err x y e : py_add x y = Err e -> e = OverflowError.
Proof.
  destruct x as [a|f], y as [b|g]; cbn [py_add to_float]; unfold int_to_float;
    try discriminate;
    repeat match goal with
      | |- context [Float64.is_finite ?z] => destruct (Float64.is_finite z)
      end; simpl; congruence.
Qed.

Lemma py_mul_Err x y e : py_mul x y = Err e -> e = OverflowError.
Proof.
  destruct x as [a|f], y as [b|g]; cbn [py_mul to_float]; unfold int_to_float;
    try discriminate;
    repeat match goal with
      | |- context [Float64.is_finite ?z] => destruct (Float64.is_finite z)
      end; simpl; congruence.
Qed.

Lemma py_int_Err x e : py_int x = Err e -> e = OverflowError \/ e = ValueError.
Proof.
  destruct x as [a|[s|s| |s m ex]]; simpl; try discriminate; intros [= <-]; auto.
Qed.

Lemma set_allocation_Err a v e :
  AssetOps.set_allocation a v = Err e -> e = OverflowError \/ e = ValueError.
Proof.
  unfold AssetOps.set_allocation, bank_rounding_system.
  destruct (py_int v) eqn:E; simpl; [discriminate|].
  intros [= <-]. eapply py_int_Err; eauto.
Qed.

Lemma allocate_one_Err d name value e :
  Portfolio.allocate_one d name value = Err e ->
  (Dict.get name d = None /\ e = KeyError (KStr name)) \/
  (Dict.get name d <> None /\ (e = OverflowError \/ e = ValueError)).
Proof.
  unfold Portfolio.allocate_one.
  destruct (Dict.get name d) as [a|]; [|intros [= <-]; auto].
  intros H. right. split; [discriminate|].
  destruct (py_add (PyInt (AssetOps.allocation a)) (PyFloat value)) as [x|e'] eqn:Ex;
    cbn [bind] in H.
  - destruct (AssetOps.set_allocation a x) as [a'|e''] eqn:Ea; cbn [bind] in H;
      [discriminate|].
    injection H as <-. eapply set_allocation_Err; eauto.
  - injection H as <-. left. eapply py_add_Err; eauto.
Qed.

Lemma change_one_Err d name rate e :
  Portfolio.change_one d name rate = Err e ->
  (Dict.get name d = None /\ e = KeyError (KStr name)) \/
  (Dict.get name d <> None /\ (e = OverflowError \/ e = ValueError)).
Proof.
  unfold Portfolio.change_one.
  destruct (Dict.get name d) as [a|]; [|intros [= <-]; auto].
  intros H. right. split; [discriminate|].
  unfold AssetOps.monthly_rate_of_change in H.
  destruct (py_add (PyInt 1) (PyFloat rate)) as [f|e'] eqn:Ef; cbn [bind] in H;
    [|injection H as <-; left; eapply py_add_Err; eauto].
  destruct (py_mul (PyInt (AssetOps.allocation a)) f) as [x|e'] eqn:Ex;
    cbn [bind] in H;
    [|injection H as <-; left; eapply py_mul_Err; eauto].
  destruct (AssetOps.set_allocation a x) as [a'|e''] eqn:Ea; cbn [bind] in H;
    [discriminate|].
  injection H as <-. eapply set_allocation_Err; eauto.
Qed.

Lemma get_by_keys {V W} (d : Dict.t V) (d' : Dict.t W) k :
  Dict.keys d' = Dict.keys d -> Dict.get k d = None -> Dict.get k d' = None.
Proof.
  intros Hk Hn. apply DictFacts.get_None_not_in. rewrite Hk.
  now apply DictFacts.get_None_not_in.
Qed.

Lemma keys_of_same_weights (d d' : Dict.t Asset) :
  asset_weights d' = asset_weights d -> Dict.keys d' = Dict.keys d.
Proof. intros H. rewrite <- !ShapeFacts.keys_of_weights. now rewrite H. Qed.

Lemma allocate_assets_Err values :
  forall d e,
    Portfolio.allocate_assets d values = Err e ->
    (exists name, In name (Dict.keys values) /\ ~ In name (Dict.keys d) /\
                  e = KeyError (KStr name)) \/
    e = OverflowError \/ e = ValueError.
Proof.
  induction values as [|[name value] values IH]; intros d e; simpl; [discriminate|].
  destruct (Portfolio.allocate_one d name value) as [d1|e1] eqn:E1; simpl.
  - intros H. apply IH in H. destruct H as [(n & Hin & Hnot & ->)|H]; [|auto].
    left. exists n. repeat split; auto.
    apply ShapeFacts.allocate_one_keeps_weights in E1.
    now rewrite <- (keys_of_same_weights _ _ E1).
  - intros [= <-]. apply allocate_one_Err in E1.
    destruct E1 as [[Hn ->]|[_ H]]; [|auto].
    left. exists name. repeat split; auto.
    now apply DictFacts.get_None_not_in.
Qed.

Lemma change_assets_Err rates :
  forall d e,
    Portfolio.change_assets d rates = Err e ->
    (exists name, In name (Dict.keys rates) /\ ~ In name (Dict.keys d) /\
                  e = KeyError (KStr name)) \/
    e = OverflowError \/ e = ValueError.
Proof.
  induction rates as [|[name rate] rates IH]; intros d e; simpl; [discriminate|].
  destruct (Portfolio.change_one d name rate) as [d1|e1] eqn:E1; simpl.
  - intros H. apply IH in H. destruct H as [(n & Hin & Hnot & ->)|H]; [|auto].
    left. exists n. repeat split; auto.
    apply ShapeFacts.change_one_keeps_weights in E1.
    now rewrite <- (keys_of_same_weights _ _ E1).
  - intros [= <-]. apply change_one_Err in E1.
    destruct E1 as [[Hn ->]|[_ H]]; [|auto].
    left. exists name. repeat split; auto.
    now apply DictFacts.get_None_not_in.
Qed.

End KeyFacts.

(** X15: [allocate] and [change] raise [KeyError] only for a name that is
    not an asset of the portfolio, and they do so when the first name
    given is not one; any other exception is an [OverflowError] or a
    [ValueError] of the arithmetic.  Values parsed with the asset names of
    the portfolio as asset order never raise [KeyError]. *)
Theorem allocate_and_change_KeyError :
  forall (p : InvestorPortfolio) (values : Dict.t float),
    (forall e,
        Portfolio.allocate p values = Err e \/ Portfolio.change p values = Err e ->
        (exists name, In name (Dict.keys values) /\
                      ~ In name (Dict.keys (assets p)) /\
                      e = KeyError (KStr name)) \/
        e = OverflowError \/ e = ValueError) /\
    (forall name value rest,
        values = (name, value) :: rest ->
        ~ In name (Dict.keys (assets p)) ->
        Portfolio.allocate p values = Err (KeyError (KStr name)) /\
        Portfolio.change p values = Err (KeyError (KStr name))) /\
    (forall line c e,
        parse_line line (Dict.keys (assets p)) = Ok (Some c) ->
        Portfolio.allocate p (cmd_values c) = Err e \/
        Portfolio.change p (cmd_values c) = Err e ->
        e = OverflowError \/ e = ValueError).
Proof.
  intros p values.
  assert (Hgen : forall vs e,
             Portfolio.allocate p vs = Err e \/ Portfolio.change p vs = Err e ->
             (exists name, In name (Dict.keys vs) /\
                           ~ In name (Dict.keys (assets p)) /\
                           e = KeyError (KStr name)) \/
             e = OverflowError \/ e = ValueError).
  { intros vs e [H|H].
    - unfold Portfolio.allocate in H.
      destruct (Portfolio.allocate_assets (assets p) vs) eqn:E; [discriminate|].
      injection H as <-. eapply KeyFacts.allocate_assets_Err; eauto.
    - unfold Portfolio.change in H.
      destruct (Portfolio.change_assets (assets p) vs) eqn:E; [discriminate|].
      injection H as <-. eapply KeyFacts.change_assets_Err; eauto. }
  split; [apply Hgen|]. split.
  - intros name value rest -> Hnot.
    apply DictFacts.get_None_not_in in Hnot.
    unfold Portfolio.allocate, Portfolio.change.
    cbn [Portfolio.allocate_assets Portfolio.change_assets].
    unfold Portfolio.allocate_one, Portfolio.change_one. rewrite Hnot. auto.
  - intros line c e Hparse He.
    destruct (Hgen _ _ He) as [(name & Hin & Hnot & _)|H]; [|exact H].
    exfalso. apply Hnot.
    destruct line as [|command [|tok rest]]; [discriminate| |].
    + injection Hparse as <-. destruct Hin.
    + rewrite ParserFacts.parse_line_args in Hparse.
      apply bind_Ok_inv in Hparse. destruct Hparse as (vs & _ & [= <-]).
      cbn [cmd_values] in Hin. apply ParserFacts.of_pairs_keys in Hin.
      apply in_map_iff in Hin. destruct Hin as ([k' v] & <- & Hin).
      eapply in_combine_l; eauto.
Qed.

Lemma allocate_and_change_KeyError_example :
  Portfolio.allocate example_portfolio [("Gold", Float64.of_Z 1)]
  = Err (KeyError (KStr "Gold")).
Proof.
  destruct (allocate_and_change_KeyError example_portfolio
              [("Gold", Float64.of_Z 1)]) as (_ & H & _).
  apply (H "Gold" (Float64.of_Z 1) []); [reflexivity|].
  simpl. intuition discriminate.
Defined.

(** ** More on the bank *)

Module RunFacts.

Lemma allocate_inv b name values b' :
  Bank.allocate b name values = Ok b' ->
  exists p p', investors b !! name = Some p /\
               Portfolio.allocate p values = Ok p' /\
               b' = Bank.set_investor b name p'.
Proof.
  unfold Bank.allocate. intros H.
  apply bind_Ok_inv in H. destruct H as (p & Hp & H).
  apply bind_Ok_inv in H. destruct H as (p' & Hp' & [= <-]).
  apply BankFacts.investor_Ok in Hp. eauto.
Qed.

Lemma sip_inv b name amounts b' :
  Bank.sip b name amounts = Ok b' ->
  exists p, investors b !! name = Some p /\
            b' = Bank.set_investor b name (mkPortfolio (pf_name p) (assets p) amounts).
Proof.
  unfold Bank.sip. intros H.
  apply bind_Ok_inv in H. destruct H as (p & Hp & [= <-]).
  apply BankFacts.investor_Ok in Hp. eauto.
Qed.

Lemma dispatch_unknown b name c :
  is_known_command c = false -> Bank.dispatch b name c = Ok ([], b).
Proof.
  unfold is_known_command, Bank.dispatch. simpl. intros H.
  repeat (apply orb_false_iff in H; destruct H as [?E H]).
  now rewrite E, E0, E1, E2, E3.
Qed.

(** The one investor a command touches keeps its shape; the others stay
    as they are. *)
Lemma dispatch_keeps_shape b name c out b' n :
  Bank.dispatch b name c = Ok (out, b') ->
  (n <> name -> investors b' !! n = investors b !! n) /\
  portfolio_shape <$> (investors b' !! n) = portfolio_shape <$> (investors b !! n).
Proof.
  intros H.
  assert (Hset : forall p p',
             investors b !! name = Some p ->
             portfolio_shape p' = portfolio_shape p ->
             (n <> name -> <[name := p']> (investors b) !! n = investors b !! n) /\
             portfolio_shape <$> (<[name := p']> (investors b) !! n)
             = portfolio_shape <$> (investors b !! n)).
  { intros p p' Hp Hshape. split.
    - intros Hne. now rewrite lookup_insert_ne.
    - destruct (decide (name = n)) as [<-|Hne].
      + rewrite lookup_insert_eq, Hp. simpl. now rewrite Hshape.
      + now rewrite lookup_insert_ne. }
  apply BankFacts.dispatch_cases in H.
  destruct H as [(_ & _ & H)|[(_ & _ & H)|[(_ & _ & H)|[(_ & -> & _)|[(_ & H)|H]]]]].
  - apply allocate_inv in H. destruct H as (p & p' & Hp & Hp' & ->).
    apply (Hset p p' Hp). apply ShapeFacts.allocate_keeps in Hp'.
    destruct Hp' as (Hn & _ & Hw). unfold portfolio_shape. now rewrite Hn, Hw.
  - apply sip_inv in H. destruct H as (p & Hp & ->).
    now apply (Hset p _ Hp).
  - apply BankFacts.change_Ok in H.
    destruct H as (p & p1 & p2 & sn & Hp & Hsip & Hch & _ & ->).
    apply (Hset p p2 Hp).
    apply ShapeFacts.change_keeps in Hch. destruct Hch as (Hn & _ & Hw).
    unfold portfolio_shape. rewrite Hn, Hw.
    destruct (cmd_month c >=? Bank.SIP_MONTH)%Z; [|now subst].
    apply ShapeFacts.allocate_keeps in Hsip. destruct Hsip as (Hn1 & _ & Hw1).
    now rewrite Hn1, Hw1.
  - auto.
  - destruct H as (out0 & [|] & H).
    + apply BankFacts.rebalance_Ok_done in H.
      destruct H as (m & p & p' & sn & _ & _ & Hp & Hp' & _ & _ & ->).
      apply (Hset p p' Hp). apply ShapeFacts.rebalance_keeps in Hp'.
      destruct Hp' as (Hn & _ & Hw). unfold portfolio_shape. now rewrite Hn, Hw.
    + apply BankFacts.rebalance_Ok_rejected in H. destruct H as [-> _]. auto.
  - destruct H as (_ & _ & _ & ->). auto.
Qed.

Lemma init_log investors_ (m : Z) :
  log (Bank.init investors_) !! m
  = if ((0 <=? m) && (m <=? 11))%Z then Some ∅ else None.
Proof.
  destruct (Z.leb_spec 0 m) as [H0|H0]; destruct (Z.leb_spec m 11) as [H1|H1];
    cbn [andb].
  - assert (Hcases : m = 0 \/ m = 1 \/ m = 2 \/ m = 3 \/ m = 4 \/ m = 5 \/ m = 6 \/
                     m = 7 \/ m = 8 \/ m = 9 \/ m = 10 \/ m = 11) by lia.
    repeat (destruct Hcases as [->|Hcases]; [reflexivity|]). now subst.
  - apply eq_None_not_Some. intros Hs.
    apply (BankFacts.init_months investors_ m) in Hs. lia.
  - apply eq_None_not_Some. intros Hs.
    apply (BankFacts.init_months investors_ m) in Hs. lia.
  - lia.
Qed.

Lemma balance_of_new_log investors_ b name (m : Z) :
  log b = log (Bank.init investors_) ->
  Bank.balance b name m
  = Err (KeyError (if ((0 <=? m) && (m <=? 11))%Z then KStr name else KInt m)).
Proof.
  intros Hlog. unfold Bank.balance. rewrite Hlog, init_log.
  destruct ((0 <=? m) && (m <=? 11))%Z; [|reflexivity].
  now rewrite lookup_empty.
Qed.

(** Without a [change] the log stays new, the month unset, and nothing
    is printed. *)
Lemma dispatch_before_change investors_ b name c out b' :
  cmd_name c <> "change" ->
  current_month b = None -> log b = log (Bank.init investors_) ->
  Bank.dispatch b name c = Ok (out, b') ->
  out = [] /\ current_month b' = None /\ log b' = log (Bank.init investors_).
Proof.
  intros Hc Hm Hlog H. apply BankFacts.dispatch_cases in H.
  destruct H as [(_ & -> & H)|[(_ & -> & H)|[(E & _)|[(_ & _ & H)|[(_ & H)|H]]]]].
  - apply BankFacts.allocate_Ok in H. destruct H as [-> ->]. auto.
  - apply BankFacts.sip_Ok in H. destruct H as [-> ->]. auto.
  - contradiction.
  - destruct H as (l & Hl & _).
    rewrite (balance_of_new_log investors_) in Hl by exact Hlog. discriminate.
  - destruct H as (out0 & done & H).
    rewrite (BankFacts.rebalance_unset_month _ _ Hm) in H. discriminate.
  - destruct H as (_ & _ & -> & ->). auto.
Qed.

Lemma dispatch_line_count b name c out b' :
  Bank.dispatch b name c = Ok (out, b') ->
  length out = if prints_a_line c then 1%nat else 0%nat.
Proof.
  unfold Bank.dispatch, prints_a_line.
  destruct (String.eqb_spec (cmd_name c) "allocate") as [E1|N1].
  { rewrite E1. simpl. intros H. apply bind_Ok_inv in H.
    destruct H as (b1 & _ & [= <- _]). reflexivity. }
  destruct (String.eqb_spec (cmd_name c) "sip") as [E2|N2].
  { rewrite E2. simpl. intros H. apply bind_Ok_inv in H.
    destruct H as (b1 & _ & [= <- _]). reflexivity. }
  destruct (String.eqb_spec (cmd_name c) "change") as [E3|N3].
  { rewrite E3. simpl. intros H. apply bind_Ok_inv in H.
    destruct H as (b1 & _ & [= <- _]). reflexivity. }
  destruct (String.eqb_spec (cmd_name c) "balance") as [E4|N4].
  { simpl. intros H. apply bind_Ok_inv in H.
    destruct H as (l & _ & [= <- _]). reflexivity. }
  destruct (String.eqb_spec (cmd_name c) "rebalance") as [E5|N5].
  { simpl. intros H. apply bind_Ok_inv in H.
    destruct H as ([[out0 done] b0] & Hr & H).
    destruct done.
    - apply BankFacts.rebalance_Ok_done in Hr.
      destruct Hr as (m & p & p' & sn & _ & _ & _ & _ & _ & -> & _).
      destruct (current_month b0); [|discriminate].
      apply bind_Ok_inv in H. destruct H as (l & _ & [= <- _]). reflexivity.
    - apply BankFacts.rebalance_Ok_rejected in Hr. destruct Hr as [_ ->].
      injection H as <- _. reflexivity. }
  simpl. intros [= <- _]. reflexivity.
Qed.

Lemma dispatch_month b name c out b' :
  Bank.dispatch b name c = Ok (out, b') ->
  current_month b' =
  if String.eqb (cmd_name c) "change" then Some (cmd_month c) else current_month b.
Proof.
  intros H. apply BankFacts.dispatch_cases in H.
  destruct H as [(E & _ & H)|[(E & _ & H)|[(E & _ & H)|[(E & -> & _)|[(E & H)|H]]]]];
    try rewrite E; simpl.
  - apply BankFacts.allocate_Ok in H. now destruct H as [_ ->].
  - apply BankFacts.sip_Ok in H. now destruct H as [_ ->].
  - apply BankFacts.change_Ok in H.
    destruct H as (p & p1 & p2 & sn & _ & _ & _ & _ & ->). reflexivity.
  - reflexivity.
  - destruct H as (out0 & [|] & H).
    + apply BankFacts.rebalance_Ok_done in H.
      destruct H as (m & p & p' & sn & Hm & _ & _ & _ & _ & _ & ->). now rewrite Hm.
    + apply BankFacts.rebalance_Ok_rejected in H. now destruct H as [-> _].
  - destruct H as (N & _ & _ & ->).
    destruct (String.eqb_spec (cmd_name c) "change"); [contradiction | reflexivity].
Qed.

Lemma parse_app l1 l2 order :
  parse_list_2_commands (l1 ++ l2) order =
  match parse_list_2_commands l1 order with
  | (cs1, None) =>
      ((cs1 ++ fst (parse_list_2_commands l2 order))%list,
       snd (parse_list_2_commands l2 order))
  | (cs1, Some e) => (cs1, Some e)
  end.
Proof.
  induction l1 as [|line l1 IH]; simpl.
  - now destruct (parse_list_2_commands l2 order).
  - destruct (parse_line line order) as [[c|]|e]; [|exact IH|reflexivity].
    rewrite IH. now destruct (parse_list_2_commands l1 order) as [cs1 [e|]].
Qed.

End RunFacts.

(** X16: no run of commands changes which assets a portfolio has, their
    order, their names or their weights, nor the name of the portfolio;
    and the commands, all sent to one investor, leave the portfolio of
    every other investor exactly as it was. *)
Theorem commands_keep_assets_and_weights :
  forall (b : MoneyBank) (name : string) (cs : list Command)
         (out : list string) (b' : MoneyBank),
    Bank.run_commands b name cs = (out, Ok b') ->
    forall n,
      (n <> name -> investors b' !! n = investors b !! n) /\
      portfolio_shape <$> (investors b' !! n) = portfolio_shape <$> (investors b !! n).
Proof.
  intros b name cs. revert b. induction cs as [|c cs IH]; intros b out b'; simpl.
  - intros [= _ <-]. auto.
  - destruct (Bank.dispatch b name c) as [[out1 b1]|e] eqn:E; [|discriminate].
    destruct (Bank.run_commands b1 name cs) as [out2 r] eqn:E2.
    intros [= _ ->] n.
    destruct (IH _ _ _ E2 n) as [IH1 IH2].
    destruct (RunFacts.dispatch_keeps_shape _ _ _ _ _ n E) as [H1 H2].
    split; [|congruence].
    intros Hne. rewrite IH1, H1 by exact Hne. reflexivity.
Qed.

Lemma commands_keep_assets_and_weights_example :
  portfolio_shape <$> (investors example_bank_after_change !! "John Doe")
  = Some ("John Doe", [("Equity", ("Equity", 60)); ("Debt", ("Debt", 40))]).
Proof.
  assert (H : Bank.run_commands example_bank "John Doe"
                [mkCommand "change" example_rates 3]
              = ([], Ok example_bank_after_change)) by (vm_compute; reflexivity).
  destruct (commands_keep_assets_and_weights _ _ _ _ _ H "John Doe") as [_ Hs].
  rewrite Hs. reflexivity.
Defined.

(** X17: as long as no [change] has been given, nothing is on record: a
    [balance] on a new bank raises [KeyError], on the investor for a month
    from 0 to 11 and on the month otherwise, and a run of commands without
    a [change] prints nothing; if it completes, the log is still new and
    [current_month] still unset. *)
Theorem nothing_is_printed_before_a_change :
  forall (investors_ : list InvestorPortfolio) (name : string) (cs : list Command),
    Forall (fun c => cmd_name c <> "change") cs ->
    (forall m,
        Bank.balance (Bank.init investors_) name m
        = Err (KeyError (if ((0 <=? m) && (m <=? 11))%Z then KStr name else KInt m))) /\
    fst (Bank.run_commands (Bank.init investors_) name cs) = [] /\
    (forall b',
        snd (Bank.run_commands (Bank.init investors_) name cs) = Ok b' ->
        log b' = log (Bank.init investors_) /\ current_month b' = None).
Proof.
  intros investors_ name cs Hcs. split.
  { intros m. now apply (RunFacts.balance_of_new_log investors_). }
  assert (Hgen : forall b,
             current_month b = None -> log b = log (Bank.init investors_) ->
             fst (Bank.run_commands b name cs) = [] /\
             (forall b', snd (Bank.run_commands b name cs) = Ok b' ->
                         log b' = log (Bank.init investors_) /\ current_month b' = None)).
  { induction Hcs as [|c cs Hc Hcs IH]; intros b Hm Hlog; simpl.
    - split; [reflexivity|]. intros b' [= <-]. auto.
    - destruct (Bank.dispatch b name c) as [[out1 b1]|e] eqn:E;
        [|split; [reflexivity | discriminate]].
      destruct (RunFacts.dispatch_before_change investors_ _ _ _ _ _ Hc Hm Hlog E)
        as (-> & Hm1 & Hlog1).
      destruct (IH b1 Hm1 Hlog1) as [IH1 IH2].
      destruct (Bank.run_commands b1 name cs) as [out2 r]. simpl in *.
      split; [exact IH1 | exact IH2]. }
  apply Hgen; reflexivity.
Qed.

Lemma nothing_is_printed_before_a_change_example :
  fst (Bank.run_commands (Bank.init [example_portfolio]) "John Doe"
         [mkCommand "allocate" [("Equity", Float64.of_Z 10)] 0;
          mkCommand "balance" [] 3]) = [] /\
  snd (Bank.run_commands (Bank.init [example_portfolio]) "John Doe"
         [mkCommand "allocate" [("Equity", Float64.of_Z 10)] 0;
          mkCommand "balance" [] 3]) = Err (KeyError (KStr "John Doe")).
Proof.
  destruct (nothing_is_printed_before_a_change [example_portfolio] "John Doe"
              [mkCommand "allocate" [("Equity", Float64.of_Z 10)] 0;
               mkCommand "balance" [] 3]) as (_ & H & _).
  - repeat constructor; discriminate.
  - split; [exact H | vm_compute; reflexivity].
Defined.

(** X18: a [sip] replaces the contribution as a whole, so of two [sip]
    commands in a row only the second counts; a [sip] changes neither the
    balances nor the log nor [current_month]. *)
Theorem last_sip_wins :
  forall (b : MoneyBank) (name : string) (s1 s2 : Dict.t float),
    (do b1 <- Bank.sip b name s1; Bank.sip b1 name s2) = Bank.sip b name s2 /\
    (forall b1,
        Bank.sip b name s1 = Ok b1 ->
        log b1 = log b /\ current_month b1 = current_month b /\
        sip <$> (investors b1 !! name) = Some s1 /\
        Portfolio.balance <$> (investors b1 !! name)
        = Portfolio.balance <$> (investors b !! name)).
Proof.
  intros b name s1 s2. split.
  - unfold Bank.sip, Bank.investor.
    destruct (investors b !! name) as [p|] eqn:Hp; [|reflexivity].
    cbn [bind]. unfold Bank.set_investor.
    cbn [investors initial_month log current_month].
    rewrite lookup_insert_eq. cbn [bind pf_name assets].
    now rewrite insert_insert_eq.
  - intros b1 H. apply RunFacts.sip_inv in H. destruct H as (p & Hp & ->).
    unfold Bank.set_investor. cbn [investors log current_month].
    rewrite lookup_insert_eq, Hp. auto.
Qed.

Lemma last_sip_wins_example :
  sip <$> (investors
             (match Bank.sip example_bank "John Doe" example_rates with
              | Ok b => b
              | Err _ => example_bank
              end) !! "John Doe") = Some example_rates.
Proof.
  destruct (last_sip_wins example_bank "John Doe" example_rates []) as [_ H].
  destruct (H (match Bank.sip example_bank "John Doe" example_rates with
               | Ok b => b
               | Err _ => example_bank
               end)) as (_ & _ & Hs & _); [vm_compute; reflexivity|].
  exact Hs.
Defined.

(** X19: what is on record for a month stays on record: a command leaves
    [balance] for month [m] as it was unless it is a [change] for [m] or a
    [rebalance] while [current_month] is [m]; and no command changes what
    is on record for another investor. *)
Theorem snapshots_stay_on_record :
  forall (b : MoneyBank) (name : string) (c : Command)
         (out : list string) (b' : MoneyBank) (n : string) (m : Z),
    Bank.dispatch b name c = Ok (out, b') ->
    n <> name \/
    ((cmd_name c = "change" -> cmd_month c <> m) /\
     (cmd_name c = "rebalance" -> current_month b <> Some m)) ->
    Bank.balance b' n m = Bank.balance b n m.
Proof.
  intros b name c out b' n m H Hcond.
  assert (Hrec : forall (k : Z) (bal : list Z) sn (inv : gmap string InvestorPortfolio)
                        (cm : option Z),
             log b !! k = Some sn ->
             n <> name \/ k <> m ->
             Bank.balance
               (mkBank (initial_month b) inv
                  (<[k := <[name := bal]> sn]> (log b)) cm) n m
             = Bank.balance b n m).
  { intros k bal sn inv cm Hk Hor. unfold Bank.balance. cbn [log].
    destruct (decide (k = m)) as [->|Hkm].
    - rewrite lookup_insert_eq, Hk.
      destruct Hor as [Hn|Hm]; [|contradiction].
      now rewrite lookup_insert_ne by congruence.
    - now rewrite lookup_insert_ne. }
  apply BankFacts.dispatch_cases in H.
  destruct H as [(_ & _ & H)|[(_ & _ & H)|[(E & _ & H)|[(_ & -> & _)|[(E & H)|H]]]]].
  - apply BankFacts.allocate_Ok in H. destruct H as [Hl _].
    unfold Bank.balance. now rewrite Hl.
  - apply BankFacts.sip_Ok in H. destruct H as [Hl _].
    unfold Bank.balance. now rewrite Hl.
  - apply BankFacts.change_Ok in H.
    destruct H as (p & p1 & p2 & sn & _ & _ & _ & Hs & ->).
    apply Hrec; [exact Hs|]. destruct Hcond as [Hn|[Hch _]]; auto.
  - reflexivity.
  - destruct H as (out0 & [|] & H).
    + apply BankFacts.rebalance_Ok_done in H.
      destruct H as (k & p & p' & sn & Hm & _ & _ & _ & Hs & _ & ->).
      apply Hrec; [exact Hs|]. destruct Hcond as [Hn|[_ Hre]]; auto.
      right. intros ->. now apply Hre.
    + apply BankFacts.rebalance_Ok_rejected in H. now destruct H as [-> _].
  - now destruct H as (_ & _ & _ & ->).
Qed.

Lemma snapshots_stay_on_record_example :
  Bank.balance
    (match Bank.dispatch example_bank_after_change "John Doe"
             (mkCommand "allocate" [("Equity", Float64.of_Z 1000)] 0) with
     | Ok (_, b) => b
     | Err _ => example_bank
     end) "John Doe" 3
  = Ok [6710; 3200].
Proof.
  rewrite (snapshots_stay_on_record example_bank_after_change "John Doe"
             (mkCommand "allocate" [("Equity", Float64.of_Z 1000)] 0) []
             (match Bank.dispatch example_bank_after_change "John Doe"
                      (mkCommand "allocate" [("Equity", Float64.of_Z 1000)] 0) with
              | Ok (_, b) => b
              | Err _ => example_bank
              end) "John Doe" 3).
  - vm_compute. reflexivity.
  - vm_compute. reflexivity.
  - right. split; discriminate.
Defined.

(** X20: a [rebalance] command given while [current_month] is 6 rebalances
    the portfolio, records the new balances for month 6 in place of the
    old ones, and prints them as its one line. *)
Theorem rebalance_in_june :
  forall (b : MoneyBank) (name : string) (c : Command)
         (p p' : InvestorPortfolio) (snapshots : gmap string (list Z)),
    cmd_name c = "rebalance" ->
    current_month b = Some 6 ->
    investors b !! name = Some p ->
    Portfolio.rebalance p = Ok p' ->
    log b !! 6 = Some snapshots ->
    exists b',
      Bank.dispatch b name c = Ok ([print_ints (Portfolio.balance p')], b') /\
      investors b' = <[name := p']> (investors b) /\
      Bank.balance b' name 6 = Ok (Portfolio.balance p') /\
      current_month b' = Some 6.
Proof.
  intros b name c p p' snapshots Hc Hm Hp Hp' Hs.
  unfold Bank.dispatch. rewrite Hc. simpl.
  unfold Bank.rebalance. rewrite Hm. simpl.
  unfold Bank.investor at 1. rewrite Hp. cbn [bind]. rewrite Hp'. cbn [bind].
  rewrite BankFacts.investor_set. cbn [bind].
  unfold Bank.record, Bank.set_investor. cbn [log]. rewrite Hs. cbn [bind].
  cbn [current_month]. rewrite Hm.
  unfold Bank.balance. cbn [log]. rewrite !lookup_insert_eq. cbn [bind].
  eexists. split; [reflexivity|]. cbn [investors log current_month].
  rewrite !lookup_insert_eq. auto.
Qed.

Lemma rebalance_in_june_example :
  exists b',
    Bank.dispatch (example_bank_in_month 6) "John Doe" (mkCommand "rebalance" [] 0)
    = Ok (["5400 3600"], b') /\
    Bank.balance b' "John Doe" 6 = Ok [5400; 3600].
Proof.
  destruct (rebalance_in_june (example_bank_in_month 6) "John Doe"
              (mkCommand "rebalance" [] 0) example_portfolio
              (match Portfolio.rebalance example_portfolio with
               | Ok p => p
               | Err _ => example_portfolio
               end) ∅) as (b' & Hd & _ & Hb & _); try (vm_compute; reflexivity).
  exists b'. split; [exact Hd | exact Hb].
Defined.

(** X21: commands whose name is none of allocate, sip, change, balance and
    rebalance do nothing: a run is the same with them or without. *)
Theorem unknown_commands_do_nothing :
  forall (b : MoneyBank) (name : string) (cs : list Command),
    Bank.run_commands b name cs
    = Bank.run_commands b name (List.filter is_known_command cs).
Proof.
  intros b name cs. revert b. induction cs as [|c cs IH]; intros b; [reflexivity|].
  cbn [List.filter]. destruct (is_known_command c) eqn:E.
  - simpl. destruct (Bank.dispatch b name c) as [[out1 b1]|e]; [|reflexivity].
    now rewrite IH.
  - simpl. rewrite RunFacts.dispatch_unknown by exact E. rewrite IH.
    now destruct (Bank.run_commands b name (List.filter is_known_command cs)).
Qed.

(** X22: a run that completes has printed one line for each [balance] and
    each [rebalance] command, and none for any other; a run that an
    exception stops has printed at most that many. *)
Theorem one_line_per_balance_and_rebalance :
  forall (b : MoneyBank) (name : string) (cs : list Command),
    (forall out b',
        Bank.run_commands b name cs = (out, Ok b') ->
        length out = length (List.filter prints_a_line cs)) /\
    (length (fst (Bank.run_commands b name cs))
     <= length (List.filter prints_a_line cs))%nat.
Proof.
  intros b name cs. revert b. induction cs as [|c cs IH]; intros b; simpl.
  - split; [intros out b' [= <- _]; reflexivity | lia].
  - destruct (Bank.dispatch b name c) as [[out1 b1]|e] eqn:E.
    + apply RunFacts.dispatch_line_count in E.
      destruct (IH b1) as [IH1 IH2].
      destruct (Bank.run_commands b1 name cs) as [out2 r] eqn:E2. simpl in *.
      split.
      * intros out b' [= <- ->]. rewrite length_app, E, (IH1 _ _ eq_refl).
        destruct (prints_a_line c); simpl; lia.
      * rewrite length_app, E. destruct (prints_a_line c); simpl; lia.
    + split; [discriminate|]. simpl. lia.
Qed.

Lemma one_line_per_balance_and_rebalance_example :
  length (fst (Bank.run_commands (example_bank_in_month 3) "John Doe"
                 [mkCommand "rebalance" [] 0; mkCommand "sip" [] 0;
                  mkCommand "rebalance" [] 0])) = 2%nat.
Proof.
  destruct (one_line_per_balance_and_rebalance (example_bank_in_month 3) "John Doe"
              [mkCommand "rebalance" [] 0; mkCommand "sip" [] 0;
               mkCommand "rebalance" [] 0]) as [H _].
  destruct (Bank.run_commands (example_bank_in_month 3) "John Doe"
              [mkCommand "rebalance" [] 0; mkCommand "sip" [] 0;
               mkCommand "rebalance" [] 0]) as [out [b'|e]] eqn:E.
  - simpl. exact (H out b' eq_refl).
  - vm_compute in E. discriminate E.
Defined.

(** X23: running the lines of two files one after the other is running
    the first, and then, if no exception stopped it, the second on the
    bank the first left; the output is the two outputs in order. *)
Theorem execute_investor_commands_in_sequence :
  forall (b : MoneyBank) (name : string) (lines1 lines2 : list (list string))
         (order : list string),
    Bank.execute_investor_commands b name (lines1 ++ lines2) order =
    match Bank.execute_investor_commands b name lines1 order with
    | (out1, Ok b1) =>
        ((out1 ++ fst (Bank.execute_investor_commands b1 name lines2 order))%list,
         snd (Bank.execute_investor_commands b1 name lines2 order))
    | (out1, Err e) => (out1, Err e)
    end.
Proof.
  intros b name lines1 lines2 order. unfold Bank.execute_investor_commands.
  rewrite RunFacts.parse_app.
  destruct (parse_list_2_commands lines1 order) as [cs1 [e1|]].
  - destruct (Bank.run_commands b name cs1) as [out1 [b1|e]]; reflexivity.
  - destruct (parse_list_2_commands lines2 order) as [cs2 stop2]. cbn [fst snd].
    rewrite BankFacts.run_commands_app.
    destruct (Bank.run_commands b name cs1) as [out1 [b1|e]]; [|reflexivity].
    destruct (Bank.run_commands b1 name cs2) as [out2 r2]. reflexivity.
Qed.

(** X24: after a run that completes, [current_month] is the month of the
    last [change] command of the run, whatever the months before it were,
    or what it was before the run if there was no [change]. *)
Theorem current_month_is_that_of_the_last_change :
  forall (b : MoneyBank) (name : string) (cs : list Command)
         (out : list string) (b' : MoneyBank),
    Bank.run_commands b name cs = (out, Ok b') ->
    current_month b' = last_change_month (current_month b) cs.
Proof.
  intros b name cs. revert b. induction cs as [|c cs IH]; intros b out b'; simpl.
  - now intros [= _ <-].
  - destruct (Bank.dispatch b name c) as [[out1 b1]|e] eqn:E; [|discriminate].
    destruct (Bank.run_commands b1 name cs) as [out2 r] eqn:E2.
    intros [= _ ->]. rewrite (IH _ _ _ E2).
    unfold last_change_month. cbn [fold_left].
    now rewrite (RunFacts.dispatch_month _ _ _ _ _ E).
Qed.

Lemma current_month_is_that_of_the_last_change_example :
  month_after
    (Bank.run_commands example_bank "John Doe"
       [mkCommand "change" example_rates 6; mkCommand "balance" [] 6;
        mkCommand "change" example_rates 3])
  = Some 3.
Proof.
  unfold month_after.
  destruct (Bank.run_commands example_bank "John Doe"
              [mkCommand "change" example_rates 6; mkCommand "balance" [] 6;
               mkCommand "change" example_rates 3]) as [out [b'|e]] eqn:E.
  - cbn [snd]. rewrite (current_month_is_that_of_the_last_change _ _ _ _ _ E).
    reflexivity.
  - vm_compute in E. discriminate E.
Defined.

(** ** Printed lines and the comparison of the tests *)

Module PrintFacts.

Lemma uint_no_space (d : Decimal.uint) : no_space (NilEmpty.string_of_uint d) = true.
Proof. induction d; simpl; auto. Qed.

Lemma str_int_token (n : Z) : is_token (str_int n) = true.
Proof.
  unfold str_int, NilZero.string_of_int, NilZero.string_of_uint, is_token.
  destruct (Z.to_int n) as [d|d]; destruct d; simpl; auto using uint_no_space.
Qed.

Lemma str_int_decode (n : Z) :
  option_map Z.of_int (NilZero.int_of_string (str_int n)) = Some n.
Proof.
  unfold str_int.
  destruct (Decimal.int_eq_dec (Z.to_int n) (Decimal.Pos Decimal.Nil)) as [E|N1].
  { rewrite E. simpl. f_equal. rewrite <- (DecimalZ.of_to n), E. reflexivity. }
  destruct (Decimal.int_eq_dec (Z.to_int n) (Decimal.Neg Decimal.Nil)) as [E|N2].
  { rewrite E. simpl. f_equal. rewrite <- (DecimalZ.of_to n), E. reflexivity. }
  rewrite NilZero.isi by assumption. simpl. f_equal. apply DecimalZ.of_to.
Qed.

Lemma str_int_inj (n m : Z) : str_int n = str_int m -> n = m.
Proof.
  intros H. pose proof (str_int_decode n) as Hn. rewrite H, str_int_decode in Hn.
  congruence.
Qed.

Lemma split_one_token (t : string) : is_token t = true -> py_split t = [t].
Proof.
  intros Ht. unfold is_token in Ht. apply andb_true_iff in Ht. destruct Ht as [Hne Hns].
  destruct t as [|c t]; [discriminate|]. clear Hne.
  revert c Hns. induction t as [|c1 t IH]; intros c Hns; simpl in Hns;
    apply andb_true_iff in Hns; destruct Hns as [Hc Hns]; apply negb_true_iff in Hc.
  - simpl. now rewrite Hc.
  - rewrite TokenFacts.split_cons, Hc.
    assert (H1 : py_isspace c1 = false).
    { simpl in Hns. apply andb_true_iff in Hns. destruct Hns as [H1 _].
      now apply negb_true_iff in H1. }
    rewrite H1, (IH c1 Hns). reflexivity.
Qed.

Lemma split_joined (toks : list string) :
  Forall (fun t => is_token t = true) toks -> py_split (join_space toks) = toks.
Proof.
  intros Htoks. induction Htoks as [|t toks Ht Htoks IH]; [reflexivity|].
  destruct toks as [|t2 toks]; [now apply split_one_token|].
  change (join_space (t :: t2 :: toks)) with (t ++ String " " (join_space (t2 :: toks))).
  rewrite TokenFacts.split_token_then_space by (auto using TokenFacts.space_is_space).
  now rewrite IH.
Qed.

Lemma join_space_inj (l1 l2 : list string) :
  Forall (fun t => is_token t = true) l1 ->
  Forall (fun t => is_token t = true) l2 ->
  join_space l1 = join_space l2 -> l1 = l2.
Proof.
  intros H1 H2 H. rewrite <- (split_joined l1 H1), <- (split_joined l2 H2). now rewrite H.
Qed.

Lemma no_space_append (a b : string) :
  no_space (a ++ b) = no_space a && no_space b.
Proof.
  induction a as [|c a IH]; [reflexivity|].
  change (no_space (String c a ++ b)) with (negb (py_isspace c) && no_space (a ++ b)).
  rewrite IH. cbn [no_space]. now rewrite andb_assoc.
Qed.

Lemma re_split_no_space (t : string) : no_space t = true -> re_split_space t = [t].
Proof.
  induction t as [|c t IH]; [reflexivity|]. simpl. intros H.
  apply andb_true_iff in H. destruct H as [Hc Ht]. apply negb_true_iff in Hc.
  now rewrite Hc, (IH Ht).
Qed.

Lemma re_split_then_space (t : string) c rest :
  no_space t = true -> py_isspace c = true ->
  re_split_space (t ++ String c rest) = t :: re_split_space rest.
Proof.
  intros Ht Hc. induction t as [|c0 t IH].
  - change ("" ++ String c rest) with (String c rest). simpl. now rewrite Hc.
  - simpl in Ht. apply andb_true_iff in Ht. destruct Ht as [H0 Ht].
    apply negb_true_iff in H0.
    change (String c0 t ++ String c rest) with (String c0 (t ++ String c rest)).
    cbn [re_split_space]. now rewrite H0, (IH Ht).
Qed.

Lemma re_split_joined (toks : list string) :
  toks <> [] -> Forall (fun t => is_token t = true) toks ->
  re_split_space (join_space toks) = toks.
Proof.
  intros Hne Htoks. induction Htoks as [|t toks Ht Htoks IH]; [contradiction|].
  assert (Hns : no_space t = true).
  { unfold is_token in Ht. now apply andb_true_iff in Ht. }
  destruct toks as [|t2 toks]; [now apply re_split_no_space|].
  change (join_space (t :: t2 :: toks)) with (t ++ String " " (join_space (t2 :: toks))).
  rewrite re_split_then_space by (auto using TokenFacts.space_is_space).
  rewrite IH by discriminate. reflexivity.
Qed.

Lemma rstrip_cons (c : ascii) (r : string) :
  py_isspace c = false -> py_rstrip (String c r) = String c (py_rstrip r).
Proof. intros Hc. simpl. rewrite Hc. now destruct (py_rstrip r). Qed.

Lemma rstrip_token_app (t r : string) :
  no_space t = true -> py_rstrip (t ++ r) = t ++ py_rstrip r.
Proof.
  intros Ht. induction t as [|c t IH]; [reflexivity|].
  simpl in Ht. apply andb_true_iff in Ht. destruct Ht as [Hc Ht].
  apply negb_true_iff in Hc.
  change (String c t ++ r) with (String c (t ++ r)).
  rewrite rstrip_cons by exact Hc. now rewrite (IH Ht).
Qed.

Lemma append_nil_r (s : string) : s ++ "" = s.
Proof.
  induction s as [|c s IH]; [reflexivity|].
  change (String c s ++ "") with (String c (s ++ "")). now rewrite IH.
Qed.

(** Stripping a line of tokens and its newline leaves the tokens. *)
Lemma strip_line (toks : list string) :
  toks <> [] -> Forall (fun t => is_token t = true) toks ->
  py_strip (join_space toks ++ String newline "") = join_space toks.
Proof.
  intros Hne Htoks. unfold py_strip.
  assert (Hl : py_lstrip (join_space toks ++ String newline "")
               = join_space toks ++ String newline "").
  { destruct Htoks as [|t toks Ht Htoks]; [contradiction|].
    unfold is_token in Ht. apply andb_true_iff in Ht. destruct Ht as [Hn Hs].
    destruct t as [|c t]; [discriminate|]. simpl in Hs.
    apply andb_true_iff in Hs. destruct Hs as [Hc _]. apply negb_true_iff in Hc.
    destruct toks; simpl; now rewrite Hc. }
  rewrite Hl. clear Hl.
  induction Htoks as [|t toks Ht Htoks IH]; [contradiction|].
  assert (Hns : no_space t = true).
  { unfold is_token in Ht. now apply andb_true_iff in Ht. }
  destruct toks as [|t2 toks].
  - simpl join_space. rewrite rstrip_token_app by exact Hns.
    change (py_rstrip (String newline "")) with "". apply append_nil_r.
  - change (join_space (t :: t2 :: toks)) with (t ++ String " " (join_space (t2 :: toks))).
    rewrite TokenFacts.append_assoc, rstrip_token_app by exact Hns. f_equal.
    change (String " " (join_space (t2 :: toks)) ++ String newline "")
      with (String " " (join_space (t2 :: toks) ++ String newline "")).
    cbn [py_rstrip]. rewrite IH by discriminate.
    inversion Htoks as [|? ? Ht2 _]; subst.
    unfold is_token in Ht2. apply andb_true_iff in Ht2. destruct Ht2 as [Hn2 _].
    destruct t2; [discriminate|]. now destruct toks.
Qed.

End PrintFacts.

(** X25: a printed line of balances can be read back: it splits into one
    token for each balance, the decimal writing of that balance, and two
    lists of balances that print alike are equal. *)
Theorem printed_balances_read_back :
  forall (l : list Z),
    py_split (print_ints l) = map str_int l /\
    Forall (fun t => option_map Z.of_int (NilZero.int_of_string t) <> None)
      (py_split (print_ints l)) /\
    (forall l', print_ints l = print_ints l' -> l = l').
Proof.
  intros l.
  assert (Htok : forall l0, Forall (fun t => is_token t = true) (map str_int l0)).
  { induction l0; simpl; constructor; auto using PrintFacts.str_int_token. }
  assert (Hsplit : py_split (print_ints l) = map str_int l).
  { unfold print_ints. apply PrintFacts.split_joined, Htok. }
  split; [exact Hsplit|]. split.
  - rewrite Hsplit. clear. induction l; simpl; constructor; auto.
    rewrite PrintFacts.str_int_decode. discriminate.
  - intros l' H. unfold print_ints in H.
    apply PrintFacts.join_space_inj in H; [|apply Htok..].
    clear Hsplit. revert l' H. induction l as [|x l IH]; intros [|y l']; simpl;
      try discriminate; [reflexivity|].
    intros [= Hx Hl]. f_equal; [now apply PrintFacts.str_int_inj | now apply IH].
Qed.

(** X26: on a text whose lines each hold at least one token, the tokens
    one space apart, [split_file_w_whitespace] of the tests gives the
    token lists, as [read_file_2_list] does; on an empty line it gives one
    empty piece where [read_file_2_list] gives none. *)
Theorem split_file_w_whitespace_of_file_text :
  forall (lines : list (list string)),
    Forall (fun line => line <> [] /\ Forall (fun t => is_token t = true) line) lines ->
    split_file_w_whitespace (file_text lines) = lines /\
    split_file_w_whitespace (file_text lines) = read_file_2_list (file_text lines) /\
    split_file_w_whitespace (String newline "") = [[""]] /\
    read_file_2_list (String newline "") = [[]].
Proof.
  intros lines Hlines.
  assert (H : split_file_w_whitespace (file_text lines) = lines).
  { unfold split_file_w_whitespace.
    induction Hlines as [|line lines [Hne Hline] Hlines IH]; [reflexivity|].
    cbn [file_text].
    rewrite TokenFacts.readlines_line by (now apply TokenFacts.joined_no_newline).
    cbn [map]. rewrite IH. f_equal.
    rewrite PrintFacts.strip_line by assumption.
    now apply PrintFacts.re_split_joined. }
  split; [exact H|]. split; [|split; reflexivity].
  rewrite H. symmetry. apply read_file_text.
  eapply List.Forall_impl; [|exact Hlines]. intros line [_ Hl]. exact Hl.
Qed.

Lemma split_file_w_whitespace_example :
  split_file_w_whitespace (file_text [["10593"; "7897"; "2272"]; ["CANNOT_REBALANCE"]])
  = [["10593"; "7897"; "2272"]; ["CANNOT_REBALANCE"]].
Proof.
  apply split_file_w_whitespace_of_file_text.
  repeat constructor; discriminate.
Defined.
